(** * bibit.py: portfolio poller with rolling history, token refresh and
    change notification

    A shallow embedding of [bibit.py].  Python values are modelled as the
    program uses them: integers as [Z], floats as IEEE 754 binary64 values
    ([spec_float] with precision 53 and maximal exponent 1024), strings as
    byte strings, dictionaries keyed by asset id as [gmap Z _], the files of
    the history directory as a [gmap string _].  Exceptions are values of
    [exn]; code that touches the secret store, the file system or the network
    runs in a state-and-exception monad over [World] whose state survives a
    raise, as Python's heap does. *)

From Stdlib Require Import ZArith List String Ascii Bool Lia.
From Stdlib Require Import SpecFloat.
From stdpp Require Import base option list gmap strings sorting pretty.

Local Open Scope Z_scope.

(** ** Exceptions and results *)

(** The exceptions the program can raise or let through. *)
Inductive exn : Type :=
  | StoreNotInitializedError
  | IndexError
  | KeyError (key : string)
  | TypeError
  | AttributeError
  | ValueError
  | OverflowError
  | ZeroDivisionError
  | JSONDecodeError
  | ConnectionError
  | HTTPError (status : Z).

(** The outcome of evaluating a Python expression: a value or a raised
    exception. *)
Inductive result (A : Type) : Type :=
  | Ok (a : A)
  | Raise (e : exn).
Arguments Ok {A} a.
Arguments Raise {A} e.

(** Sequencing: [x ← r; k] runs [k] on the value of [r] and passes an
    exception of [r] on. *)
Global Instance result_ret : MRet result := fun A a => Ok a.
Global Instance result_bind : MBind result := fun A B k r =>
  match r with
  | Ok a => k a
  | Raise e => Raise e
  end.

Definition is_ok {A} (r : result A) : bool :=
  match r with Ok _ => true | Raise _ => false end.

(** ** Python numbers *)

Module Num.

(** binary64 *)
Definition prec : Z := 53.
Definition emax : Z := 1024.

Abbreviation float := spec_float.

(** A JSON number as [json.load] and [Response.json] give it: an [int] or a
    [float]. *)
Inductive pynum : Type :=
  | PInt (z : Z)
  | PFloat (f : float).

Definition fzero : float := S754_zero false.
Definition fone : float := SFone prec emax.

(** [float(z)]: the nearest double, ties to even; [OverflowError] when the
    integer is too large for a double. *)
Definition float_of_int (z : Z) : result float :=
  match binary_normalize prec emax z 0 false with
  | S754_infinity _ => Raise OverflowError
  | f => Ok f
  end.

(** The operand of a mixed operation, converted to [float]. *)
Definition as_float (x : pynum) : result float :=
  match x with
  | PInt z => float_of_int z
  | PFloat f => Ok f
  end.

(** [a - b] *)
Definition py_sub (a b : pynum) : result pynum :=
  match a, b with
  | PInt x, PInt y => Ok (PInt (x - y))
  | _, _ =>
      f ← as_float a;
      g ← as_float b;
      Ok (PFloat (SFsub prec emax f g))
  end.

(** [f * b] for a float [f] *)
Definition float_mul (f : float) (b : pynum) : result float :=
  g ← as_float b; Ok (SFmul prec emax f g).

Definition float_is_zero (f : float) : bool :=
  match f with S754_zero _ => true | _ => false end.

(** [f / b] for a float [f]: the divisor is converted first, then tested
    against zero. *)
Definition float_truediv (f : float) (b : pynum) : result float :=
  g ← as_float b;
  if float_is_zero g then Raise ZeroDivisionError
  else Ok (SFdiv prec emax f g).

(** [x == 0] *)
Definition num_is_zero (x : pynum) : bool :=
  match x with
  | PInt z => z =? 0
  | PFloat f => float_is_zero f
  end.

(** [n * 2^e] for [0 <= n], rounded to the nearest integer, ties to even. *)
Definition round_half_even (n e : Z) : Z :=
  if 0 <=? e then Z.shiftl n e
  else
    let k := - e in
    let q := Z.shiftr n k in
    let r := n - Z.shiftl q k in
    let half := Z.shiftl 1 (k - 1) in
    match r ?= half with
    | Lt => q
    | Gt => q + 1
    | Eq => if Z.even q then q else q + 1
    end.

(** [int(x)]: truncation towards zero. *)
Definition py_int (x : pynum) : result Z :=
  match x with
  | PInt z => Ok z
  | PFloat S754_nan => Raise ValueError
  | PFloat (S754_infinity _) => Raise OverflowError
  | PFloat (S754_zero _) => Ok 0
  | PFloat (S754_finite s m e) => Ok (cond_Zopp s (Z.shiftl (Zpos m) e))
  end.

(** [round(x)] with one argument: an [int], ties to even. *)
Definition py_round (x : pynum) : result Z :=
  match x with
  | PInt z => Ok z
  | PFloat S754_nan => Raise ValueError
  | PFloat (S754_infinity _) => Raise OverflowError
  | PFloat (S754_zero _) => Ok 0
  | PFloat (S754_finite s m e) => Ok (cond_Zopp s (round_half_even (Zpos m) e))
  end.

(** The digits of a natural number with a comma before every group of three,
    worked on the reversed digit list. *)
Fixpoint group3_rev (ds : list ascii) : list ascii :=
  match ds with
  | a :: b :: c :: (_ :: _) as rest =>
      a :: b :: c :: ","%char :: group3_rev rest
  | _ => ds
  end.

Definition group_thousands (digits : string) : string :=
  string_of_list_ascii
    (rev (group3_rev (rev (list_ascii_of_string digits)))).

(** [f"{z:,}"] for an [int] *)
Definition format_int_grouped (z : Z) : string :=
  (if z <? 0 then "-" else "") +:+ group_thousands (pretty (Z.abs z)).

(** [f"{f:.1f}"] for a [float]: the exact binary value rounded to one decimal,
    ties to even. *)
Definition format_float_1f (f : float) : string :=
  match f with
  | S754_nan => "nan"
  | S754_infinity s => if s then "-inf" else "inf"
  | S754_zero s => if s then "-0.0" else "0.0"
  | S754_finite s m e =>
      let tenths := round_half_even (10 * Zpos m) e in
      (if s then "-" else "") +:+ pretty (tenths / 10) +:+ "."
        +:+ pretty (tenths mod 10)
  end.

(** [a > b] and [a < b] on floats; false when either is NaN. *)
Definition float_gt (a b : float) : bool := SFltb b a.
Definition float_lt (a b : float) : bool := SFltb a b.

(** The literal [1e-9]: the double nearest to 10^-9, which the correctly
    rounded quotient of the exact doubles 1 and 10^9 is. *)
Definition eps : float :=
  Eval vm_compute in SFdiv prec emax fone (binary_normalize prec emax (10 ^ 9) 0 false).

(** The literal [100] as a float operand. *)
Definition f100 : float :=
  Eval vm_compute in binary_normalize prec emax 100 0 false.

End Num.

(** ** Strings *)

Module Str.

(** The line feed, [chr(10)]. *)
Definition nl : string := String (ascii_of_nat 10) "".

(** [sep.join(parts)] *)
Fixpoint join (sep : string) (parts : list string) : string :=
  match parts with
  | [] => ""
  | [p] => p
  | p :: rest => p +:+ sep +:+ join sep rest
  end.

(** [s.replace(c, new)] for a one-character [c] *)
Fixpoint replace_char (c : ascii) (new : string) (s : string) : string :=
  match s with
  | EmptyString => EmptyString
  | String a s' =>
      if Ascii.eqb a c then new +:+ replace_char c new s'
      else String a (replace_char c new s')
  end.

Definition upper_char (a : ascii) : ascii :=
  let n := nat_of_ascii a in
  if ((97 <=? n)%nat && (n <=? 122)%nat)%bool then ascii_of_nat (n - 32) else a.

(** [s.upper()] on ASCII letters *)
Fixpoint upper (s : string) : string :=
  match s with
  | EmptyString => EmptyString
  | String a s' => String (upper_char a) (upper s')
  end.

(** [s.split(c)] for a one-character separator: the pieces between the
    occurrences of [c], one more than there are occurrences. *)
Fixpoint split (c : ascii) (s : string) : list string :=
  match s with
  | EmptyString => [""]
  | String a s' =>
      if Ascii.eqb a c then "" :: split c s'
      else
        match split c s' with
        | [] => [String a ""]
        | p :: ps => String a p :: ps
        end
  end.

Definition ends_with_slash (s : string) : bool :=
  match rev (list_ascii_of_string s) with
  | a :: _ => Ascii.eqb a "/"
  | [] => false
  end.

Definition starts_with_slash (s : string) : bool :=
  match s with
  | String a _ => Ascii.eqb a "/"
  | EmptyString => false
  end.

(** [os.path.join(a, b)] on POSIX *)
Definition path_join (a b : string) : string :=
  if starts_with_slash b then b
  else if (String.eqb a "" || ends_with_slash a)%bool then a +:+ b
  else a +:+ "/" +:+ b.

End Str.

(** ** JSON documents *)

Import Num.

#[local] Set Warnings "-register-all".

(** A parsed JSON document, as [json.load] and [Response.json] return it. *)
Inductive json : Type :=
  | JNull
  | JBool (b : bool)
  | JNum (n : pynum)
  | JStr (s : string)
  | JList (l : list json)
  | JDict (kv : list (string * json)).

(** Lookup in the pairs of a [dict], first binding of the key. *)
Fixpoint assoc (k : string) (kv : list (string * json)) : option json :=
  match kv with
  | [] => None
  | (k', v) :: rest => if String.eqb k k' then Some v else assoc k rest
  end.

(** [d[k]] for a string key: [KeyError] on a dict without the key,
    [TypeError] on anything that is not a dict. *)
Definition py_getitem (d : json) (k : string) : result json :=
  match d with
  | JDict kv =>
      match assoc k kv with
      | Some v => Ok v
      | None => Raise (KeyError k)
      end
  | _ => Raise TypeError
  end.

(** Truth value of an object in a condition. *)
Definition truthy (v : json) : bool :=
  match v with
  | JNull => false
  | JBool b => b
  | JNum (PInt z) => negb (z =? 0)
  | JNum (PFloat f) => negb (float_is_zero f)
  | JStr s => negb (String.eqb s "")
  | JList l => match l with [] => false | _ => true end
  | JDict kv => match kv with [] => false | _ => true end
  end.

(** ** Data model *)

(** A cleaned asset record: the four fields [_clean_porto_item] keeps. *)
Record asset : Type := Asset {
  id : Z;
  invested : pynum;
  marketvalue : pynum;
  name : string
}.

(** One element of a history file:
    [{"timestamp": ..., "portofolios": ...}]. *)
Record entry : Type := Entry {
  timestamp : Z;
  portofolios : list asset
}.

(** The four attributes of [SecretStore]; [access_token] is [JNull] for
    [None]. *)
Record secrets : Type := Secrets {
  access_token : json;
  refresh_token : json;
  telegram_token : json;
  telegram_chat_id : json
}.

(** A call of [requests.request] by [BibitAPI._request].  [authorization] is
    the token put after [Bearer] in the [authorization] header, absent when
    the header is; the other headers are constant and left out. *)
Record http_request : Type := HttpRequest {
  method : string;
  url : string;
  body : json;
  authorization : option json
}.

(** What the program reads of a [requests.Response]: the status and the body,
    [None] when the body is not JSON. *)
Record response : Type := Response {
  status_code : Z;
  content : option json
}.

(** What the program does to the outside, in order. *)
Inductive event : Type :=
  | EvRequest (req : http_request) (res : result response)
  | EvTelegram (token chat_id : json) (text : string) (res : result response)
  | EvSecretsDump (s : secrets)
  | EvDump (filename : string) (content : list entry).

(** [PortofolioHistoryStore]: the file name of its storage and the loaded
    history. *)
Record history_store : Type := HistoryStore {
  storage : string;
  history : list entry
}.

(** [RollingJSONFileRepository] *)
Record json_file_repository : Type := FileRepository {
  directory : string;
  file_prefix : string;
  _last_idx : Z
}.

(** The outside world's answers, each a function of what has happened so
    far: the brokerage server, the Telegram server, the clock read by
    [int(time.time())], and the builtin [int] on a string. *)
Record Env : Type := MkEnv {
  server : list event -> http_request -> result response;
  telegram : list event -> json -> json -> string -> result response;
  clock : list event -> Z;
  int_of_str : string -> result Z
}.

(** The state a run works on.  [secret_storage] is the one [SecretStore]
    object both API clients hold; [secrets_file] is [.secrets.json];
    [files] are the files of the history directory by path;
    [file_repository] and [_store] are the two attributes of
    [RollingPortofolioHistoryStore]. *)
Record World : Type := MkWorld {
  env : Env;
  secret_storage : secrets;
  secrets_file : option secrets;
  files : gmap string (list entry);
  file_repository : json_file_repository;
  _store : history_store;
  trace : list event
}.

(** Assignments to the parts of the state, and the record of an event. *)
Definition set_secret_storage (s : secrets) (w : World) : World :=
  MkWorld (env w) s (secrets_file w) (files w) (file_repository w) (_store w)
    (trace w).
Definition set_secrets_file (s : option secrets) (w : World) : World :=
  MkWorld (env w) (secret_storage w) s (files w) (file_repository w) (_store w)
    (trace w).
Definition set_files (f : gmap string (list entry)) (w : World) : World :=
  MkWorld (env w) (secret_storage w) (secrets_file w) f (file_repository w)
    (_store w) (trace w).
Definition set_repo (r : json_file_repository) (w : World) : World :=
  MkWorld (env w) (secret_storage w) (secrets_file w) (files w) r (_store w)
    (trace w).
Definition set_store (s : history_store) (w : World) : World :=
  MkWorld (env w) (secret_storage w) (secrets_file w) (files w)
    (file_repository w) s (trace w).
Definition log (e : event) (w : World) : World :=
  MkWorld (env w) (secret_storage w) (secrets_file w) (files w)
    (file_repository w) (_store w) (trace w ++ [e]).

(** ** The monad of effectful code *)

(** A computation takes the world and gives an outcome and the world after
    it; what was done before an exception stays done. *)
Definition M (A : Type) : Type := World -> result A * World.

Global Instance M_ret : MRet M := fun A a w => (Ok a, w).
Global Instance M_bind : MBind M := fun A B k m w =>
  match m w with
  | (Ok a, w') => k a w'
  | (Raise e, w') => (Raise e, w')
  end.

(** An expression without effects, in effectful code. *)
Definition lift {A} (r : result A) : M A := fun w => (r, w).
Definition raise {A} (e : exn) : M A := lift (Raise e).
Definition get : M World := fun w => (Ok w, w).
Definition modify (f : World -> World) : M unit := fun w => (Ok tt, f w).

(** [try: body  except E: handler], for the exceptions [catches] accepts. *)
Definition try_except {A} (body : M A) (catches : exn -> bool) (handler : M A) : M A :=
  fun w =>
    match body w with
    | (Raise e, w') => if catches e then handler w' else (Raise e, w')
    | ok => ok
    end.

(** [res.raise_for_status()]: [HTTPError] for a status from 400 to 599. *)
Definition raise_for_status (res : response) : result unit :=
  if ((400 <=? status_code res) && (status_code res <? 600))%bool
  then Raise (HTTPError (status_code res))
  else Ok tt.

(** [res.json()] *)
Definition response_json (res : response) : result json :=
  match content res with
  | Some j => Ok j
  | None => Raise JSONDecodeError
  end.

(** ** Storage: [JSONFileStorage], [SecretStore], the file repository and
    the history stores *)

Module JSONFileStorage.

(** [load]: the content of the file, [StoreNotInitializedError] when there
    is no such file. *)
Definition load (filename : string) : M (list entry) := fun w =>
  match files w !! filename with
  | Some h => (Ok h, w)
  | None => (Raise StoreNotInitializedError, w)
  end.

(** [dump]: the file is written whole. *)
Definition dump (filename : string) (h : list entry) : M unit :=
  modify (fun w => log (EvDump filename h) (set_files (<[filename := h]> (files w)) w)).

End JSONFileStorage.

Module SecretStore.

(** [init]: the four attributes are read from [.secrets.json]. *)
Definition init : M unit := fun w =>
  match secrets_file w with
  | Some s => (Ok tt, set_secret_storage s w)
  | None => (Raise StoreNotInitializedError, w)
  end.

(** [save]: the four attributes are written to [.secrets.json]. *)
Definition save : M unit :=
  modify (fun w =>
    log (EvSecretsDump (secret_storage w)) (set_secrets_file (Some (secret_storage w)) w)).

End SecretStore.

Module RollingJSONFileRepository.

Definition _get_filename (r : json_file_repository) (idx : Z) : string :=
  Str.path_join (directory r) (file_prefix r +:+ "." +:+ pretty idx +:+ ".json").

Definition set_last_idx (idx : Z) : M unit :=
  modify (fun w =>
    let r := file_repository w in
    set_repo (FileRepository (directory r) (file_prefix r) idx) w).

(** The body of the loop of [init] for one directory entry: the name is
    split at the dots into exactly three pieces and the middle one is read
    as an integer. *)
Definition scan_file (f : string) : M unit :=
  match Str.split "." f with
  | [_; idx; _] =>
      w ← get;
      idx ← lift (int_of_str (env w) idx);
      if _last_idx (file_repository w) <? idx then set_last_idx idx else mret tt
  | _ => raise ValueError
  end.

Fixpoint scan_files (fs : list string) : M unit :=
  match fs with
  | [] => mret tt
  | f :: rest => scan_file f;; scan_files rest
  end.

(** [init], given what [os.listdir] returns for the directory ([os.mkdir]
    leaves no mark on the state modelled here). *)
Definition init (listing : list string) : M unit :=
  set_last_idx 1;; scan_files listing.

Definition get_latest_filename : M string := fun w =>
  (Ok (_get_filename (file_repository w) (_last_idx (file_repository w))), w).

Definition new_file : M string := fun w =>
  let r := file_repository w in
  let r' := FileRepository (directory r) (file_prefix r) (_last_idx r + 1) in
  (Ok (_get_filename r' (_last_idx r')), set_repo r' w).

End RollingJSONFileRepository.

Module PortofolioHistoryStore.

Definition set_history (h : list entry) : M unit :=
  modify (fun w => set_store (HistoryStore (storage (_store w)) h) w).

Definition is_StoreNotInitializedError (e : exn) : bool :=
  match e with StoreNotInitializedError => true | _ => false end.

Definition is_IndexError (e : exn) : bool :=
  match e with IndexError => true | _ => false end.

Definition init : M unit :=
  try_except
    (w ← get;
     h ← JSONFileStorage.load (storage (_store w));
     set_history h)
    is_StoreNotInitializedError
    (set_history []).

Definition save : M unit :=
  w ← get; JSONFileStorage.dump (storage (_store w)) (history (_store w)).

Definition add (snapshot : list asset) : M unit :=
  w ← get;
  set_history (history (_store w) ++ [Entry (clock (env w) (trace w)) snapshot]);;
  save.

(** [l[-1]] *)
Definition last_item {A} (l : list A) : result A :=
  match last l with
  | Some x => Ok x
  | None => Raise IndexError
  end.

Definition get_last : M (list asset) :=
  try_except
    (w ← get;
     last ← lift (last_item (history (_store w)));
     mret (portofolios last))
    is_IndexError
    (mret []).

(** The asset list of the most recent entry of a history, empty for an
    empty history: what [get_last] comes to. *)
Definition last_snapshot (h : list entry) : list asset :=
  match last h with
  | Some e => portofolios e
  | None => []
  end.

End PortofolioHistoryStore.

Module RollingPortofolioHistoryStore.

Definition max_portofolio : Z := 100.

(** [_init_inner_store]: a new store object over the file replaces
    [_store], then loads. *)
Definition _init_inner_store (filename : string) : M unit :=
  modify (set_store (HistoryStore filename []));;
  PortofolioHistoryStore.init.

Definition add (snapshot : list asset) : M unit :=
  w ← get;
  (if max_portofolio <? Z.of_nat (length (history (_store w)))
   then
     new_filename ← RollingJSONFileRepository.new_file;
     _init_inner_store new_filename
   else mret tt);;
  PortofolioHistoryStore.add snapshot.

Definition get_last : M (list asset) := PortofolioHistoryStore.get_last.

Definition save : M unit := PortofolioHistoryStore.save.

Definition init : M unit :=
  latest_filename ← RollingJSONFileRepository.get_latest_filename;
  _init_inner_store latest_filename.

End RollingPortofolioHistoryStore.

(** [new_rolling_portofolio_history_store], given the listing of the history
    directory. *)
Definition new_rolling_portofolio_history_store (listing : list string) : M unit :=
  RollingJSONFileRepository.init listing;;
  RollingPortofolioHistoryStore.init.

(** ** [BibitAPI]: the authenticated client *)

Module BibitAPI.

(** The call [_request] hands to [requests.request]: the bearer token is
    attached when [access_token] is true in a condition. *)
Definition build_request (s : secrets) (method endpoint : string) (data : json)
    : http_request :=
  HttpRequest (Str.upper method) ("https://api.bibit.id" +:+ endpoint) data
    (if truthy (access_token s) then Some (access_token s) else None).

(** [_request]: the call goes to the server; with [allow_fail=False] an error
    status raises. *)
Definition _request (method endpoint : string) (data : json) (allow_fail : bool)
    : M response :=
  w ← get;
  let req := build_request (secret_storage w) method endpoint data in
  let answer := server (env w) (trace w) req in
  modify (log (EvRequest req answer));;
  res ← lift answer;
  (if allow_fail then mret tt else lift (raise_for_status res));;
  mret res.

Definition set_access_token (t : json) : M unit :=
  modify (fun w =>
    let s := secret_storage w in
    set_secret_storage
      (Secrets t (refresh_token s) (telegram_token s) (telegram_chat_id s)) w).

Definition set_refresh_token (t : json) : M unit :=
  modify (fun w =>
    let s := secret_storage w in
    set_secret_storage
      (Secrets (access_token s) t (telegram_token s) (telegram_chat_id s)) w).

(** The body [_refresh_token] posts: the stored refresh token. *)
Definition refresh_data (s : secrets) : json :=
  JDict [("notifid", JStr ""); ("refresh_token", refresh_token s)].

Definition _refresh_token : M unit :=
  set_access_token JNull;;
  w ← get;
  res ← _request "POST" "/auth/token" (refresh_data (secret_storage w)) false;
  token ← lift (j ← response_json res; d ← py_getitem j "data"; py_getitem d "token");
  a ← lift (py_getitem token "access_token");
  set_access_token a;;
  r ← lift (py_getitem token "refresh_token");
  set_refresh_token r;;
  SecretStore.save.

(** The token values a refresh response carries, read as [_refresh_token]
    reads them: [res.json()['data']['token']], then its two keys. *)
Definition refresh_tokens (res : response) : result (json * json) :=
  j ← response_json res;
  d ← py_getitem j "data";
  token ← py_getitem d "token";
  a ← py_getitem token "access_token";
  r ← py_getitem token "refresh_token";
  Ok (a, r).

(** The call [_refresh_token] makes: no bearer token, since [access_token]
    has just been set to [None]. *)
Definition refresh_request (s : secrets) : http_request :=
  HttpRequest "POST" "https://api.bibit.id/auth/token" (refresh_data s) None.

(** [request]: [None] is what Python returns when the body falls off its
    end. *)
Definition request (method url : string) (data : json) : M (option response) :=
  res ← _request method url data true;
  if status_code res =? 200 then mret (Some res)
  else if status_code res =? 401 then
    _refresh_token;;
    res' ← _request method url data true;
    mret (Some res')
  else
    lift (raise_for_status res);;
    mret None.

Definition get_portofolio : M json :=
  res ← request "GET" "/portfolio" (JDict []);
  match res with
  | Some res => lift (response_json res)
  | None => raise AttributeError
  end.

End BibitAPI.

(** ** [TelegramAPI] *)

Module TelegramAPI.

Definition to_replace : list ascii := ["."; "["; "]"; "-"; "|"]%char.

(** The loop over [to_replace]: each character gets a backslash before it. *)
Definition escape (content : string) : string :=
  foldl (fun safe_msg c => Str.replace_char c (String "\" (String c "")) safe_msg)
    content to_replace.

Definition send_message (content : string) : M unit :=
  let safe_msg := escape content in
  w ← get;
  let s := secret_storage w in
  let answer := telegram (env w) (trace w) (telegram_token s) (telegram_chat_id s) safe_msg in
  modify (log (EvTelegram (telegram_token s) (telegram_chat_id s) safe_msg answer));;
  res ← lift answer;
  lift (raise_for_status res).

End TelegramAPI.

(** ** [BibitNotifyJob] *)

Module BibitNotifyJob.

(** The values of the four kept fields, as the data model types them: an
    integer id, numeric amounts, a string name.  The source copies the four
    values whatever their type; portfolios with values of other types are
    outside this embedding, which stops on them with [TypeError], so what is
    proved of cleaned snapshots is proved of typed portfolios only. *)
Definition typed_item (i inv mv nm : json) : result asset :=
  match i, inv, mv, nm with
  | JNum (PInt i), JNum inv, JNum mv, JStr nm => Ok (Asset i inv mv nm)
  | _, _, _, _ => Raise TypeError
  end.

(** [_clean_porto_item]: the four fields are read in the order of [fields]. *)
Definition _clean_porto_item (porto_item : json) : result asset :=
  i ← py_getitem porto_item "id";
  inv ← py_getitem porto_item "invested";
  mv ← py_getitem porto_item "marketvalue";
  nm ← py_getitem porto_item "name";
  typed_item i inv mv nm.

Fixpoint map_result {A B} (f : A -> result B) (l : list A) : result (list B) :=
  match l with
  | [] => Ok []
  | x :: rest =>
      y ← f x;
      ys ← map_result f rest;
      Ok (y :: ys)
  end.

(** [_clean_porto]: [list(map(..., porto['result']))].  An empty dict or
    string iterates as nothing; any other value that is not a list ends in
    [TypeError]. *)
Definition _clean_porto (porto : json) : result (list asset) :=
  r ← py_getitem porto "result";
  match r with
  | JList l => map_result _clean_porto_item l
  | JDict [] | JStr "" => Ok []
  | _ => Raise TypeError
  end.

(** [_build_porto_map]: a later record of an id replaces an earlier one. *)
Definition _build_porto_map (porto : list asset) : gmap Z asset :=
  foldl (fun m porto_item => <[id porto_item := porto_item]> m) ∅ porto.

Definition _format_currency (num : pynum) : result string :=
  rounded ← py_round num;
  Ok (format_int_grouped rounded).

(** U+1F4C8, U+1F4C9 and U+2B1C in UTF-8 *)
Definition emoji_up : string :=
  String (ascii_of_nat 240) (String (ascii_of_nat 159)
    (String (ascii_of_nat 147) (String (ascii_of_nat 136) ""))).
Definition emoji_down : string :=
  String (ascii_of_nat 240) (String (ascii_of_nat 159)
    (String (ascii_of_nat 147) (String (ascii_of_nat 137) ""))).
Definition emoji_flat : string :=
  String (ascii_of_nat 226) (String (ascii_of_nat 172)
    (String (ascii_of_nat 156) "")).

(** The glyph of a change ratio in the words of the specification: up when
    the ratio is greater than [1e-9], down when it is less than [-1e-9],
    flat otherwise (a NaN compares with nothing and is flat). *)
Definition glyph_of (change : float) : string :=
  match SFcompare change eps, SFcompare change (SFopp eps) with
  | Some Gt, _ => emoji_up
  | _, Some Lt => emoji_down
  | _, _ => emoji_flat
  end.

Definition _format_message (name : string) (change_percentage : float)
    (total profit : pynum) : result string :=
  let emoji :=
    if float_gt change_percentage eps then emoji_up
    else if float_lt change_percentage (SFopp eps) then emoji_down
    else emoji_flat in
  scaled ← float_mul change_percentage (PInt 100);
  let change_percentage := SFabs scaled in
  total ← _format_currency total;
  profit ← _format_currency profit;
  Ok (emoji +:+ " " +:+ format_float_1f change_percentage +:+ " | *" +:+ name
        +:+ "*" +:+ Str.nl +:+ total +:+ " [" +:+ profit +:+ "]" +:+ Str.nl).

(** [sorted(porto_map.keys())] *)
Definition sorted_keys (porto_map : gmap Z asset) : list Z :=
  merge_sort Z.le (elements (dom porto_map)).

(** [d.get(field, 0)] on the last record of an id, [None] standing for the
    empty dict that [last_porto_map.get(porto_id, {})] gives for an id the
    last snapshot does not have. *)
Definition get_or_0 (field : asset -> pynum) (last_porto_item : option asset)
    : pynum :=
  match last_porto_item with
  | Some it => field it
  | None => PInt 0
  end.

(** [1.0 * (current_profit - last_profit) / current_invested] *)
Definition change_of (current_profit last_profit current_invested : pynum)
    : result float :=
  d ← py_sub current_profit last_profit;
  n ← float_mul fone d;
  float_truediv n current_invested.

(** The body of the loop of [_construct_message] for one id, on the loop's
    two variables. *)
Definition loop_body (last_porto_map porto_map : gmap Z asset)
    (acc : bool * list string) (porto_id : Z) : result (bool * list string) :=
  let '(should_send, message_parts) := acc in
  porto_item ← match porto_map !! porto_id with
               | Some it => Ok it
               | None => Raise (KeyError (pretty porto_id))
               end;
  let last_porto_item := last_porto_map !! porto_id in
  let last_value := get_or_0 marketvalue last_porto_item in
  last_profit ← py_sub last_value (get_or_0 invested last_porto_item);
  let current_invested := invested porto_item in
  let current_value := marketvalue porto_item in
  current_profit ← py_sub current_value current_invested;
  change_percentage ← change_of current_profit last_profit current_invested;
  cur_int ← py_int current_value;
  last_int ← py_int last_value;
  let should_send := if bool_decide (cur_int ≠ last_int) then true else should_send in
  formatted ← _format_message (name porto_item) change_percentage current_value
                 current_profit;
  Ok (should_send, message_parts ++ [formatted]).

(** The line of an id and whether its truncated value moved: the body of the
    loop run on fresh variables. *)
Definition line_of (last_porto_map porto_map : gmap Z asset) (i : Z)
    (l : bool * string) : Prop :=
  loop_body last_porto_map porto_map (false, []) i = Ok (l.1, [l.2]).

Fixpoint loop (last_porto_map porto_map : gmap Z asset)
    (acc : bool * list string) (ids : list Z) : result (bool * list string) :=
  match ids with
  | [] => Ok acc
  | porto_id :: rest =>
      acc' ← loop_body last_porto_map porto_map acc porto_id;
      loop last_porto_map porto_map acc' rest
  end.

(** [_construct_message] after [get_last]: the comparison of the current
    snapshot with the last one. *)
Definition construct (last_porto porto : list asset) : result (bool * string) :=
  let last_porto_map := _build_porto_map last_porto in
  let porto_map := _build_porto_map porto in
  '(should_send, message_parts) ←
    loop last_porto_map porto_map (false, []) (sorted_keys porto_map);
  Ok (should_send, Str.join Str.nl message_parts).

Definition _construct_message (porto : list asset) : M (bool * string) :=
  last_porto ← RollingPortofolioHistoryStore.get_last;
  lift (construct last_porto porto).

(** The truncated market value of a record is what it was in the last
    snapshot, 0 standing for an id the last snapshot does not have. *)
Definition same_truncated_value (last_porto_map : gmap Z asset) (it : asset) : Prop :=
  py_int (marketvalue it) = py_int (get_or_0 marketvalue (last_porto_map !! id it)).

(** [run] *)
Definition run : M unit :=
  portofolio ← BibitAPI.get_portofolio;
  cleaned ← lift (data ← py_getitem portofolio "data"; _clean_porto data);
  '(should_send, message) ← _construct_message cleaned;
  if should_send : bool then
    TelegramAPI.send_message message;;
    RollingPortofolioHistoryStore.add cleaned
  else mret tt.

End BibitNotifyJob.

(** ** Sequences of appends *)

(** The calls [add(s1)], [add(s2)], ... on the rolling store, one after the
    other. *)
Fixpoint adds (snapshots : list (list asset)) : M unit :=
  match snapshots with
  | [] => mret tt
  | snapshot :: rest => RollingPortofolioHistoryStore.add snapshot;; adds rest
  end.

(** The world after these calls. *)
Definition after (w : World) (snapshots : list (list asset)) : World :=
  snd (adds snapshots w).

(** A fresh rolling log: no history file, and the repository and the store
    as [new_rolling_portofolio_history_store] leaves them on an empty
    directory. *)
Definition fresh (w : World) : Prop :=
  files w = ∅
  ∧ _last_idx (file_repository w) = 1
  ∧ _store w
    = HistoryStore (RollingJSONFileRepository._get_filename (file_repository w) 1) [].

(** [ceil(n / d)] *)
Definition ceil_div (n d : Z) : Z := (n + d - 1) / d.

(** ** Observations on the trace *)

(** A message sent to the notification channel. *)
Definition is_notification (ev : event) : bool :=
  match ev with EvTelegram _ _ _ _ => true | _ => false end.

(** A history file written. *)
Definition is_history_write (ev : event) : bool :=
  match ev with EvDump _ _ => true | _ => false end.

(** A call to the brokerage server or a save of the secrets. *)
Definition is_client_event (ev : event) : bool :=
  match ev with EvRequest _ _ | EvSecretsDump _ => true | _ => false end.

(** [w'] comes from [w] by client events only: the history, its files and
    the file repository are the same, and the trace has grown by calls to
    the server and saves of the secrets. *)
Definition client_only (w w' : World) : Prop :=
  env w' = env w
  ∧ files w' = files w
  ∧ file_repository w' = file_repository w
  ∧ _store w' = _store w
  ∧ ∃ evs, trace w' = trace w ++ evs ∧ forallb is_client_event evs = true.

(** A computation that only ever makes client events. *)
Definition client_computation {A} (m : M A) : Prop :=
  ∀ w, client_only w (snd (m w)).

Create HintDb client.

(** ** The state of a rolling log *)

(** The number of files a log holds that has [full] whole files and the
    entries [cur] in the active one. *)
Definition file_count (full : list (list entry)) (cur : list entry) : nat :=
  length full + (if cur is [] then 0 else 1).

(** The state of a rolling log named by [fn] after the entries
    [concat full ++ cur]: the files of the indices from 1 hold the lists of
    [full], 101 entries each, the active store is at the next index and
    holds [cur], which has a file as soon as it has an entry, and there are
    no other files. *)
Record rolling_state (fn : Z -> string) (w : World) (full : list (list entry))
    (cur : list entry) : Prop := RollingState {
  rs_full : Forall (λ c, length c = 101%nat) full;
  rs_cur : (length cur <= 101)%nat;
  rs_first : cur = [] -> full = [];
  rs_idx : _last_idx (file_repository w) = Z.of_nat (length full) + 1;
  rs_names : ∀ r,
               directory r = directory (file_repository w) ->
               file_prefix r = file_prefix (file_repository w) ->
               ∀ i, RollingJSONFileRepository._get_filename r i = fn i;
  rs_store : _store w = HistoryStore (fn (Z.of_nat (length full) + 1)) cur;
  rs_full_files : ∀ i c, full !! i = Some c -> files w !! fn (Z.of_nat i + 1) = Some c;
  rs_cur_file : cur ≠ [] -> files w !! fn (Z.of_nat (length full) + 1) = Some cur;
  rs_no_other : ∀ f, is_Some (files w !! f) ->
                  ∃ i, 1 <= i <= Z.of_nat (file_count full cur) ∧ f = fn i;
  rs_size : size (files w) = file_count full cur
}.

(** ** The entry point *)

Module Main.

(** [get_absolute_path], given [basedir], the directory of the script
    ([os.path.dirname(os.path.abspath(__file__))]). *)
Definition get_absolute_path (basedir path : string) : string :=
  Str.path_join basedir path.

(** [new_secret_store]: the store over [.secrets.json], loaded. *)
Definition new_secret_store : M unit := SecretStore.init.

(** [new_rolling_portofolio_history_store] as the script builds it: the
    repository is over the directory [history] next to the script, with the
    prefix [history]. *)
Definition new_history_store (basedir : string) (listing : list string) : M unit :=
  modify (set_repo (FileRepository (get_absolute_path basedir "history") "history" 1));;
  new_rolling_portofolio_history_store listing.

(** The body of [if __name__ == '__main__']. *)
Definition main (basedir : string) (listing : list string) : M unit :=
  new_secret_store;;
  new_history_store basedir listing;;
  BibitNotifyJob.run.

End Main.

(** ** More observations *)

(** [s.count(c)] for a one-character [c] *)
Fixpoint count_char (c : ascii) (s : string) : nat :=
  match s with
  | EmptyString => 0
  | String a s' => (if Ascii.eqb a c then 1 else 0) + count_char c s'
  end.

(** The name of a history file inside its directory, as [os.listdir] lists
    it. *)
Definition basename (file_prefix : string) (idx : Z) : string :=
  file_prefix +:+ "." +:+ pretty idx +:+ ".json".

(** [n] calls of [new_file], one after the other, and the names they
    return. *)
Fixpoint new_files (n : nat) : M (list string) :=
  match n with
  | O => mret []
  | S n' =>
      f ← RollingJSONFileRepository.new_file;
      fs ← new_files n';
      mret (f :: fs)
  end.

(** One of the five characters [send_message] escapes. *)
Definition is_reserved (a : ascii) : bool :=
  existsb (Ascii.eqb a) TelegramAPI.to_replace.

(** A text with a backslash put before each reserved character, character
    by character. *)
Fixpoint escape_each (s : string) : string :=
  match s with
  | EmptyString => EmptyString
  | String a s' =>
      if is_reserved a then String "\" (String a (escape_each s'))
      else String a (escape_each s')
  end.

(** The inverse reading: a backslash that stands before a reserved
    character is dropped. *)
Fixpoint unescape (s : string) : string :=
  match s with
  | EmptyString => EmptyString
  | String a s' =>
      match s' with
      | String b s'' =>
          if (Ascii.eqb a "\" && is_reserved b)%bool then String b (unescape s'')
          else String a (unescape s')
      | EmptyString => String a EmptyString
      end
  end.

(** The scan keeps the files, the store, the secrets and the trace. *)
Definition repository_only (w w' : World) : Prop :=
  env w' = env w
  ∧ secret_storage w' = secret_storage w
  ∧ secrets_file w' = secrets_file w
  ∧ files w' = files w
  ∧ _store w' = _store w
  ∧ trace w' = trace w
  ∧ directory (file_repository w') = directory (file_repository w)
  ∧ file_prefix (file_repository w') = file_prefix (file_repository w).

(** The names of a listing parse to these indices: each has exactly two
    dots and the builtin [int] reads what stands between them. *)
Definition parses_to (w : World) (listing : list string) (idxs : list Z) : Prop :=
  Forall2 (λ f i, ∃ a b c, Str.split "." f = [a; b; c] ∧ int_of_str (env w) b = Ok i)
    listing idxs.

(** What a line shows, in the words of the specification. *)

(** [t] is the integer nearest to [n * 2^e], and the even one of the two
    when [n * 2^e] lies half-way between two integers. *)
Definition nearest_even (n e t : Z) : Prop :=
  if 0 <=? e then t = n * 2 ^ e
  else 2 * Z.abs (t * 2 ^ (- e) - n) <= 2 ^ (- e)
       ∧ (2 * Z.abs (t * 2 ^ (- e) - n) = 2 ^ (- e) -> Z.even t = true).

(** [z] is the amount [num] rounded to an integer: an integer amount
    itself, a float amount rounded to the nearest integer, ties to even, with
    its sign. *)
Definition rounds_to (num : pynum) (z : Z) : Prop :=
  match num with
  | PInt i => z = i
  | PFloat (S754_finite s m e) => ∃ t, nearest_even (Zpos m) e t ∧ z = cond_Zopp s t
  | PFloat (S754_zero _) => z = 0
  | PFloat _ => False
  end.

(** [text] is the digit string with a comma before every group of three
    digits counted from the right. *)
Inductive grouped : string -> string -> Prop :=
  | grouped_short (digits : string) :
      (String.length digits <= 3)%nat -> grouped digits digits
  | grouped_step (front text : string) (a b c : ascii) :
      front ≠ "" ->
      grouped front text ->
      grouped (front +:+ String a (String b (String c "")))
        (text +:+ String "," (String a (String b (String c "")))).

(** [text] shows the integer [z]: its sign and its decimal digits,
    thousands-grouped. *)
Definition shows_amount (z : Z) (text : string) : Prop :=
  ∃ digits, grouped (pretty (Z.abs z)) digits
            ∧ text = (if z <? 0 then "-" else "") +:+ digits.

(** [text] shows the float [f] to one decimal place: the number of tenths
    is [10 * f] rounded to the nearest integer, ties to even. *)
Definition shows_one_decimal (f : float) (text : string) : Prop :=
  match f with
  | S754_finite s m e =>
      ∃ t, nearest_even (10 * Zpos m) e t
           ∧ text = (if s then "-" else "") +:+ pretty (t `div` 10) +:+ "."
                      +:+ pretty (t `mod` 10)
  | S754_zero s => text = if s then "-0.0" else "0.0"
  | S754_infinity s => text = if s then "-inf" else "inf"
  | S754_nan => text = "nan"
  end.

(** The memory of a process that starts again on the disk [w] has been left
    with: the repository and store objects are built anew, so what the old
    process held in [_last_idx] and [_store] is gone; [idx] and [st] stand
    for whatever is in their place before [init] runs. *)
Definition restarted (idx : Z) (st : history_store) (w : World) : World :=
  set_store st
    (set_repo
       (FileRepository (directory (file_repository w)) (file_prefix (file_repository w))
          idx) w).

(** A call to the brokerage server; a save of the secrets. *)
Definition is_request (ev : event) : bool :=
  match ev with EvRequest _ _ => true | _ => false end.
Definition is_secrets_dump (ev : event) : bool :=
  match ev with EvSecretsDump _ => true | _ => false end.

(** ** Sample worlds *)

Module Sample.

Definition auth_url : string := "https://api.bibit.id/auth/token".

(** The body of a successful refresh:
    [{"data": {"token": {"access_token": a, "refresh_token": r}}}]. *)
Definition tokens_body (a r : json) : json :=
  JDict [("data", JDict [("token",
    JDict [("access_token", a); ("refresh_token", r)])])].

(** A portfolio body: [{"data": {"result": items}}]. *)
Definition portfolio_body (items : list json) : json :=
  JDict [("data", JDict [("result", JList items)])].

Definition raw_item (i : Z) (inv mv : pynum) (nm : string) : json :=
  JDict [("id", JNum (PInt i)); ("invested", JNum inv); ("marketvalue", JNum mv);
         ("name", JStr nm); ("product", JStr "mutual fund")].

(** A server that refreshes tokens but answers every other call with 401. *)
Definition expired_server (tr : list event) (req : http_request) : result response :=
  if String.eqb (url req) auth_url
  then Ok (Response 200 (Some (tokens_body (JStr "access-2") (JStr "refresh-2"))))
  else Ok (Response 401 None).

(** A server that refreshes tokens and serves [portfolio] to the bearer of
    the refreshed access token only. *)
Definition renewing_server (portfolio : json) (tr : list event) (req : http_request)
    : result response :=
  if String.eqb (url req) auth_url
  then Ok (Response 200 (Some (tokens_body (JStr "access-2") (JStr "refresh-2"))))
  else
    match authorization req with
    | Some (JStr "access-2") => Ok (Response 200 (Some portfolio))
    | _ => Ok (Response 401 None)
    end.

(** A server that refuses to refresh. *)
Definition refusing_server (tr : list event) (req : http_request) : result response :=
  if String.eqb (url req) auth_url then Ok (Response 403 None)
  else Ok (Response 401 None).

(** A server that serves [portfolio] to every call. *)
Definition serving (portfolio : json) (tr : list event) (req : http_request)
    : result response :=
  Ok (Response 200 (Some portfolio)).

(** 1050.5 and 0.5 as doubles *)
Definition f_1050_5 : float :=
  Eval vm_compute in
    SFdiv prec emax (binary_normalize prec emax 2101 0 false)
      (binary_normalize prec emax 2 0 false).
Definition f_0_5 : float :=
  Eval vm_compute in
    SFdiv prec emax (binary_normalize prec emax 1 0 false)
      (binary_normalize prec emax 2 0 false).

(** A server that answers every call with [status] and no body. *)
Definition constant_server (status : Z) (tr : list event) (req : http_request)
    : result response :=
  Ok (Response status None).

Definition telegram_ok (tr : list event) (token chat_id : json) (text : string)
    : result response :=
  Ok (Response 200 (Some (JDict [("ok", JBool true)]))).

(** A clock that advances by a minute with every event. *)
Definition ticking_clock (tr : list event) : Z :=
  1600000000 + 60 * Z.of_nat (length tr).

Definition no_int (s : string) : result Z := Raise ValueError.

Definition env_of (srv : list event -> http_request -> result response) : Env :=
  MkEnv srv telegram_ok ticking_clock no_int.

Definition old_secrets : secrets :=
  Secrets (JStr "access-1") (JStr "refresh-1") (JStr "bot-token") (JNum (PInt 42)).

Definition history_repo : json_file_repository :=
  FileRepository "/srv/bibit/history" "history" 1.

(** A world on its first run: no history file yet. *)
Definition first_run (srv : list event -> http_request -> result response) : World :=
  MkWorld (env_of srv) old_secrets (Some old_secrets) ∅ history_repo
    (HistoryStore (RollingJSONFileRepository._get_filename history_repo 1) []) [].

(** A world whose current history file holds [h]. *)
Definition with_history (srv : list event -> http_request -> result response)
    (h : list entry) : World :=
  let f := RollingJSONFileRepository._get_filename history_repo 1 in
  MkWorld (env_of srv) old_secrets (Some old_secrets) {[ f := h ]} history_repo
    (HistoryStore f h) [].

End Sample.

(** ** More sample worlds *)

Module Scenario.

(** A reader of plain decimal digit strings, standing for the builtin [int]
    on the names this program writes. *)
Fixpoint parse_digits (acc : Z) (s : string) : result Z :=
  match s with
  | EmptyString => Ok acc
  | String a s' =>
      match Ascii.is_nat a with
      | Some d => parse_digits (10 * acc + Z.of_nat d) s'
      | None => Raise ValueError
      end
  end.

Definition decimal (s : string) : result Z :=
  match s with
  | EmptyString => Raise ValueError
  | _ => parse_digits 0 s
  end.

Definition env_of (srv : list event -> http_request -> result response) : Env :=
  MkEnv srv Sample.telegram_ok Sample.ticking_clock decimal.

(** A Telegram server that is down. *)
Definition telegram_down (tr : list event) (token chat_id : json) (text : string)
    : result response :=
  Ok (Response 502 None).

Definition env_telegram_down (srv : list event -> http_request -> result response)
    : Env :=
  MkEnv srv telegram_down Sample.ticking_clock decimal.

(** A world whose history directory holds the files of the indices 1 and 2,
    the second one active. *)
Definition two_files (srv : list event -> http_request -> result response)
    (h1 h2 : list entry) : World :=
  let f1 := RollingJSONFileRepository._get_filename Sample.history_repo 1 in
  let f2 := RollingJSONFileRepository._get_filename Sample.history_repo 2 in
  MkWorld (env_of srv) Sample.old_secrets (Some Sample.old_secrets)
    (<[f1 := h1]> {[ f2 := h2 ]})
    (FileRepository "/srv/bibit/history" "history" 2)
    (HistoryStore f2 h2) [].

(** A world on its first run, with the digit reader. *)
Definition first_run (srv : list event -> http_request -> result response) : World :=
  MkWorld (env_of srv) Sample.old_secrets (Some Sample.old_secrets) ∅
    Sample.history_repo
    (HistoryStore (RollingJSONFileRepository._get_filename Sample.history_repo 1) [])
    [].

(** A world whose current history file holds [h], with a Telegram server
    that is down. *)
Definition telegram_is_down (srv : list event -> http_request -> result response)
    (h : list entry) : World :=
  let f := RollingJSONFileRepository._get_filename Sample.history_repo 1 in
  MkWorld (env_telegram_down srv) Sample.old_secrets (Some Sample.old_secrets)
    {[ f := h ]} Sample.history_repo (HistoryStore f h) [].

(** A machine that has never been set up: no secrets file. *)
Definition no_secrets (srv : list event -> http_request -> result response) : World :=
  MkWorld (env_of srv) (Secrets JNull JNull JNull JNull) None ∅
    Sample.history_repo
    (HistoryStore (RollingJSONFileRepository._get_filename Sample.history_repo 1) [])
    [].

(** One fund, as served and as cleaned, and the message of a first run that
    finds it. *)
Definition fund_a : asset := Asset 1 (PInt 1000) (PInt 1100) "Fund A".

Definition fund_a_served : json :=
  Sample.portfolio_body [Sample.raw_item 1 (PInt 1000) (PInt 1100) "Fund A"].

Definition fund_a_message : string :=
  Eval vm_compute in
    match BibitNotifyJob.construct [] [fund_a] with
    | Ok (_, message) => message
    | Raise _ => ""
    end.

(** The world after the portfolio call of a run from [w] on a server that
    serves [pf]. *)
Definition fetched (pf : json) (w : World) : World :=
  log (EvRequest (BibitAPI.build_request (secret_storage w) "GET" "/portfolio" (JDict []))
         (Ok (Response 200 (Some pf)))) w.

End Scenario.

(** * Proofs *)

(** ** Running computations *)

Lemma bind_ok {A B} (m : M A) (k : A -> M B) (w w' : World) (a : A) :
  m w = (Ok a, w') -> (m ≫= k) w = k a w'.
Proof. intros H. unfold mbind, M_bind. by rewrite H. Qed.

Lemma bind_raise {A B} (m : M A) (k : A -> M B) (w w' : World) (e : exn) :
  m w = (Raise e, w') -> (m ≫= k) w = (Raise e, w').
Proof. intros H. unfold mbind, M_bind. by rewrite H. Qed.

(** Unfolds the monad's plumbing in the goal. *)
Ltac run_m :=
  cbv [mbind M_bind mret M_ret get modify lift raise try_except
       result_bind result_ret]; cbn [fst snd].

(** Splits the goal, or a hypothesis, along the outcome of the next
    sequenced expression. *)
Ltac next_outcome :=
  match goal with
  | |- context [mbind _ ?r] => destruct r eqn:?; cbn [mbind result_bind]
  end.

Ltac next_outcome_in H :=
  match type of H with
  | context [mbind _ ?r] => destruct r eqn:?; cbn [mbind result_bind] in H
  end.

(** ** The authenticated client *)

(** What [_request] comes to: one call, logged, whose answer is returned, or
    raised when it is an error status and failing is not allowed. *)
Lemma _request_spec (w : World) (method endpoint : string) (data : json)
    (allow_fail : bool) :
  let req := BibitAPI.build_request (secret_storage w) method endpoint data in
  let answer := server (env w) (trace w) req in
  BibitAPI._request method endpoint data allow_fail w =
    (res ← answer;
     (if allow_fail then Ok tt else raise_for_status res) ≫= λ _, Ok res,
     log (EvRequest req answer) w).
Proof.
  intros req answer. unfold BibitAPI._request. run_m.
  fold req answer. destruct answer as [res|e]; cbn; [|done].
  destruct allow_fail; cbn; [done|].
  by destruct (raise_for_status res).
Qed.

Lemma _request_allow_fail (w : World) (method endpoint : string) (data : json) :
  let req := BibitAPI.build_request (secret_storage w) method endpoint data in
  let answer := server (env w) (trace w) req in
  BibitAPI._request method endpoint data true w = (answer, log (EvRequest req answer) w).
Proof.
  intros req answer. rewrite _request_spec. fold req answer.
  by destruct answer.
Qed.

Lemma raise_for_status_ok (res : response) :
  status_code res < 400 -> raise_for_status res = Ok tt.
Proof.
  intros H. unfold raise_for_status.
  destruct (Z.leb_spec 400 (status_code res)); [lia|done].
Qed.

Lemma raise_for_status_error (res : response) :
  400 <= status_code res < 600 ->
  raise_for_status res = Raise (HTTPError (status_code res)).
Proof.
  intros [H1 H2]. unfold raise_for_status.
  destruct (Z.leb_spec 400 (status_code res)); [|lia].
  destruct (Z.ltb_spec (status_code res) 600); [done|lia].
Qed.

(** C10: a first response whose status is below 400 and is not 200 makes
    [request] return [None]: it neither returns the response nor raises.  The
    call is the only thing that happened. *)
Theorem request_other_success_returns_None
    (w : World) (method url : string) (data : json) (res : response) :
  let req := BibitAPI.build_request (secret_storage w) method url data in
  server (env w) (trace w) req = Ok res ->
  status_code res ≠ 200 ->
  status_code res < 400 ->
  BibitAPI.request method url data w = (Ok None, log (EvRequest req (Ok res)) w).
Proof.
  intros req Hres H200 Hlt. unfold BibitAPI.request.
  erewrite bind_ok; last by (rewrite _request_allow_fail; fold req; rewrite Hres).
  destruct (Z.eqb_spec (status_code res) 200) as [|_]; [done|].
  destruct (Z.eqb_spec (status_code res) 401) as [|_]; [lia|].
  run_m. by rewrite raise_for_status_ok.
Qed.

(** C10, on a server that answers 204 with no content. *)
Lemma request_other_success_returns_None_witness :
  BibitAPI.request "get" "/portfolio" (JDict [])
    (Sample.first_run (Sample.constant_server 204))
  = (Ok None,
     log (EvRequest
            (BibitAPI.build_request Sample.old_secrets "get" "/portfolio" (JDict []))
            (Ok (Response 204 None)))
       (Sample.first_run (Sample.constant_server 204))).
Proof.
  apply (request_other_success_returns_None
           (Sample.first_run (Sample.constant_server 204)) "get" "/portfolio"
           (JDict []) (Response 204 None)).
  - reflexivity.
  - cbn. lia.
  - cbn. lia.
Defined.

(** A refresh whose answer is an error status raises at once: the call is
    the only thing that happened, and the access token stays cleared. *)
Lemma _refresh_token_error (w : World) (res : response) :
  let s := secret_storage w in
  let req := BibitAPI.refresh_request s in
  server (env w) (trace w) req = Ok res ->
  400 <= status_code res < 600 ->
  BibitAPI._refresh_token w =
    (Raise (HTTPError (status_code res)),
     MkWorld (env w)
       (Secrets JNull (refresh_token s) (telegram_token s) (telegram_chat_id s))
       (secrets_file w) (files w) (file_repository w) (_store w)
       (trace w ++ [EvRequest req (Ok res)])).
Proof.
  intros s req Hres Hst.
  unfold BibitAPI._refresh_token, BibitAPI.set_access_token. run_m.
  rewrite _request_spec. cbn. fold s. change (BibitAPI.build_request _ _ _ _) with req.
  rewrite Hres. cbn. by rewrite raise_for_status_error.
Qed.

(** A refresh that succeeds stores the two tokens of the response and
    saves the secret store; the call and the save are all that happened. *)
Lemma _refresh_token_ok (w : World) (res : response) (a r : json) :
  let s := secret_storage w in
  let req := BibitAPI.refresh_request s in
  let s' := Secrets a r (telegram_token s) (telegram_chat_id s) in
  server (env w) (trace w) req = Ok res ->
  raise_for_status res = Ok tt ->
  BibitAPI.refresh_tokens res = Ok (a, r) ->
  BibitAPI._refresh_token w =
    (Ok tt,
     MkWorld (env w) s' (Some s') (files w) (file_repository w) (_store w)
       (trace w ++ [EvRequest req (Ok res); EvSecretsDump s'])).
Proof.
  intros s req s' Hres Hst Htok.
  unfold BibitAPI._refresh_token, BibitAPI.set_access_token,
    BibitAPI.set_refresh_token, SecretStore.save. run_m.
  rewrite _request_spec. cbn. fold s. change (BibitAPI.build_request _ _ _ _) with req.
  rewrite Hres. cbn. rewrite Hst. cbn.
  unfold BibitAPI.refresh_tokens in Htok. revert Htok. run_m.
  destruct (response_json res) as [j|]; [|done].
  destruct (py_getitem j "data") as [d|]; [|done].
  destruct (py_getitem d "token") as [token|]; [|done].
  destruct (py_getitem token "access_token") as [a'|]; [|done].
  destruct (py_getitem token "refresh_token") as [r'|]; [|done].
  intros [= -> ->]. cbn. unfold log, set_secrets_file, set_secret_storage. cbn.
  by rewrite <- app_assoc.
Qed.

(** After a first 401 and a refresh that succeeds, [request] is the retried
    call: four events in order (the call, the refresh, the save, the retry),
    the refreshed secrets stored and saved, and the retry's outcome passed
    on whatever it is. *)
Lemma request_after_refresh (w : World) (method url : string) (data : json)
    (res1 res2 : response) (a r : json) :
  let s := secret_storage w in
  let req1 := BibitAPI.build_request s method url data in
  let req2 := BibitAPI.refresh_request s in
  let s' := Secrets a r (telegram_token s) (telegram_chat_id s) in
  let req3 := BibitAPI.build_request s' method url data in
  let before_retry :=
    trace w ++ [EvRequest req1 (Ok res1); EvRequest req2 (Ok res2); EvSecretsDump s'] in
  let answer := server (env w) before_retry req3 in
  server (env w) (trace w) req1 = Ok res1 ->
  status_code res1 = 401 ->
  server (env w) (trace w ++ [EvRequest req1 (Ok res1)]) req2 = Ok res2 ->
  raise_for_status res2 = Ok tt ->
  BibitAPI.refresh_tokens res2 = Ok (a, r) ->
  BibitAPI.request method url data w =
    (res ← answer; Ok (Some res),
     MkWorld (env w) s' (Some s') (files w) (file_repository w) (_store w)
       (before_retry ++ [EvRequest req3 answer])).
Proof.
  intros s req1 req2 s' req3 before_retry answer H1 H401 H2 Hst Htok.
  unfold BibitAPI.request.
  erewrite bind_ok; last by (rewrite _request_allow_fail; fold s req1; rewrite H1).
  rewrite H401. cbn [Z.eqb Pos.eqb].
  rewrite (bind_ok _ _ _ _ _
    (_refresh_token_ok (log (EvRequest req1 (Ok res1)) w) res2 a r H2 Hst Htok)).
  run_m. rewrite _request_allow_fail.
  cbn [secret_storage log trace env files file_repository _store secrets_file].
  fold s s' req1 req2 req3. rewrite <- !app_assoc. cbn [app].
  fold before_retry. fold answer.
  by destruct answer.
Qed.

(** C4: after a first 401 and a refresh that succeeds, the stored access and
    refresh tokens are the two the refresh response carries, the secrets are
    saved before the retry, and the outcome of the retried call is the
    outcome of [request]; and a refresh answered with an error status raises
    at once, with that one call as the only thing that happened. *)
Theorem token_refresh_protocol :
  (∀ (w : World) (method url : string) (data : json) (res1 res2 : response)
     (a r : json),
     let s := secret_storage w in
     let req1 := BibitAPI.build_request s method url data in
     let req2 := BibitAPI.refresh_request s in
     let s' := Secrets a r (telegram_token s) (telegram_chat_id s) in
     let req3 := BibitAPI.build_request s' method url data in
     let before_retry :=
       trace w ++ [EvRequest req1 (Ok res1); EvRequest req2 (Ok res2); EvSecretsDump s'] in
     let answer := server (env w) before_retry req3 in
     server (env w) (trace w) req1 = Ok res1 ->
     status_code res1 = 401 ->
     server (env w) (trace w ++ [EvRequest req1 (Ok res1)]) req2 = Ok res2 ->
     raise_for_status res2 = Ok tt ->
     BibitAPI.refresh_tokens res2 = Ok (a, r) ->
     BibitAPI.request method url data w =
       (res ← answer; Ok (Some res),
        MkWorld (env w) s' (Some s') (files w) (file_repository w) (_store w)
          (before_retry ++ [EvRequest req3 answer])))
  ∧
  (∀ (w : World) (res : response),
     let s := secret_storage w in
     let req := BibitAPI.refresh_request s in
     server (env w) (trace w) req = Ok res ->
     400 <= status_code res < 600 ->
     BibitAPI._refresh_token w =
       (Raise (HTTPError (status_code res)),
        MkWorld (env w)
          (Secrets JNull (refresh_token s) (telegram_token s) (telegram_chat_id s))
          (secrets_file w) (files w) (file_repository w) (_store w)
          (trace w ++ [EvRequest req (Ok res)]))).
Proof.
  split.
  - apply request_after_refresh.
  - apply _refresh_token_error.
Qed.

(** C4, on a server that accepts the refreshed token only, and on one that
    answers the refresh with 403. *)
Lemma token_refresh_protocol_witness :
  let pf := Sample.portfolio_body [] in
  let w := Sample.first_run (Sample.renewing_server pf) in
  let s' := Secrets (JStr "access-2") (JStr "refresh-2") (JStr "bot-token") (JNum (PInt 42)) in
  BibitAPI.request "get" "/portfolio" (JDict []) w =
    (Ok (Some (Response 200 (Some pf))),
     MkWorld (env w) s' (Some s') ∅ (file_repository w) (_store w)
       [EvRequest (HttpRequest "GET" "https://api.bibit.id/portfolio" (JDict [])
                     (Some (JStr "access-1")))
          (Ok (Response 401 None));
        EvRequest (BibitAPI.refresh_request Sample.old_secrets)
          (Ok (Response 200
                 (Some (Sample.tokens_body (JStr "access-2") (JStr "refresh-2")))));
        EvSecretsDump s';
        EvRequest (HttpRequest "GET" "https://api.bibit.id/portfolio" (JDict [])
                     (Some (JStr "access-2")))
          (Ok (Response 200 (Some pf)))])
  ∧
  BibitAPI._refresh_token (Sample.first_run Sample.refusing_server) =
    (Raise (HTTPError 403),
     MkWorld (Sample.env_of Sample.refusing_server)
       (Secrets JNull (JStr "refresh-1") (JStr "bot-token") (JNum (PInt 42)))
       (Some Sample.old_secrets) ∅ Sample.history_repo
       (_store (Sample.first_run Sample.refusing_server))
       [EvRequest (BibitAPI.refresh_request Sample.old_secrets) (Ok (Response 403 None))]).
Proof.
  split.
  - apply (proj1 token_refresh_protocol
             (Sample.first_run (Sample.renewing_server (Sample.portfolio_body [])))
             "get" "/portfolio" (JDict []) (Response 401 None)
             (Response 200 (Some (Sample.tokens_body (JStr "access-2") (JStr "refresh-2"))))
             (JStr "access-2") (JStr "refresh-2")); reflexivity.
  - apply (proj2 token_refresh_protocol (Sample.first_run Sample.refusing_server)
             (Response 403 None)); [reflexivity | cbn; lia].
Defined.

(** C1, at the failing input: against a server that refreshes tokens but
    answers every other call with 401, [request] refreshes once, retries
    once, and returns the second 401 response; it does not raise. *)
Theorem request_second_401_is_returned :
  let w := Sample.first_run Sample.expired_server in
  let s' := Secrets (JStr "access-2") (JStr "refresh-2") (JStr "bot-token") (JNum (PInt 42)) in
  fst (BibitAPI.request "get" "/portfolio" (JDict []) w) = Ok (Some (Response 401 None))
  ∧ trace (snd (BibitAPI.request "get" "/portfolio" (JDict []) w)) =
      [EvRequest (HttpRequest "GET" "https://api.bibit.id/portfolio" (JDict [])
                    (Some (JStr "access-1")))
         (Ok (Response 401 None));
       EvRequest (BibitAPI.refresh_request Sample.old_secrets)
         (Ok (Response 200
                (Some (Sample.tokens_body (JStr "access-2") (JStr "refresh-2")))));
       EvSecretsDump s';
       EvRequest (HttpRequest "GET" "https://api.bibit.id/portfolio" (JDict [])
                    (Some (JStr "access-2")))
         (Ok (Response 401 None))].
Proof.
  intros w s'.
  rewrite (request_after_refresh w "get" "/portfolio" (JDict []) (Response 401 None)
             (Response 200 (Some (Sample.tokens_body (JStr "access-2") (JStr "refresh-2"))))
             (JStr "access-2") (JStr "refresh-2")); try reflexivity.
  split; reflexivity.
Qed.

(** ** The client leaves the history alone *)

Lemma client_only_refl (w : World) : client_only w w.
Proof.
  repeat split. exists []. by rewrite app_nil_r.
Qed.

Lemma client_only_trans (w1 w2 w3 : World) :
  client_only w1 w2 -> client_only w2 w3 -> client_only w1 w3.
Proof.
  intros (He1 & Hf1 & Hr1 & Hs1 & evs1 & Ht1 & Hc1)
         (He2 & Hf2 & Hr2 & Hs2 & evs2 & Ht2 & Hc2).
  repeat split; try congruence.
  exists (evs1 ++ evs2). split.
  - by rewrite Ht2, Ht1, app_assoc.
  - by rewrite forallb_app, Hc1, Hc2.
Qed.

Lemma client_only_log (w : World) (ev : event) :
  is_client_event ev = true -> client_only w (log ev w).
Proof.
  intros H. repeat split. exists [ev]. split; [done|]. cbn. by rewrite H.
Qed.

Lemma client_only_set_secret_storage (w : World) (s : secrets) :
  client_only w (set_secret_storage s w).
Proof. repeat split. exists []. by rewrite app_nil_r. Qed.

Lemma client_only_set_secrets_file (w : World) (s : option secrets) :
  client_only w (set_secrets_file s w).
Proof. repeat split. exists []. by rewrite app_nil_r. Qed.

Lemma client_bind {A B} (m : M A) (k : A -> M B) :
  client_computation m -> (∀ a, client_computation (k a)) ->
  client_computation (m ≫= k).
Proof.
  intros Hm Hk w. unfold mbind, M_bind. specialize (Hm w).
  destruct (m w) as [[a|e] w1]; cbn in *; [|done].
  eapply client_only_trans; [exact Hm|apply Hk].
Qed.

Lemma client_lift {A} (r : result A) : client_computation (lift r).
Proof. intros w. apply client_only_refl. Qed.

Lemma client_mret {A} (a : A) : client_computation (mret a).
Proof. intros w. apply client_only_refl. Qed.

Lemma client_get : client_computation get.
Proof. intros w. apply client_only_refl. Qed.

Lemma client__request (method endpoint : string) (data : json) (allow_fail : bool) :
  client_computation (BibitAPI._request method endpoint data allow_fail).
Proof.
  intros w. rewrite _request_spec. cbn [snd]. by apply client_only_log.
Qed.

Lemma client_set_access_token (t : json) :
  client_computation (BibitAPI.set_access_token t).
Proof. intros w. apply client_only_set_secret_storage. Qed.

Lemma client_set_refresh_token (t : json) :
  client_computation (BibitAPI.set_refresh_token t).
Proof. intros w. apply client_only_set_secret_storage. Qed.

Lemma client_save : client_computation SecretStore.save.
Proof.
  intros w. unfold SecretStore.save, modify. cbn [snd].
  eapply client_only_trans; [apply client_only_set_secrets_file|].
  by apply client_only_log.
Qed.

#[local] Hint Resolve client_lift client_mret client_get client__request
  client_set_access_token client_set_refresh_token client_save : client.

Ltac client_steps :=
  repeat first
    [ solve [auto with client]
    | apply client_bind; [|intros ?] ].

Lemma client__refresh_token : client_computation BibitAPI._refresh_token.
Proof. unfold BibitAPI._refresh_token. client_steps. Qed.

Lemma client_request (method url : string) (data : json) :
  client_computation (BibitAPI.request method url data).
Proof.
  pose proof client__refresh_token.
  unfold BibitAPI.request. client_steps.
  repeat case_match; client_steps.
Qed.

Lemma client_get_portofolio : client_computation BibitAPI.get_portofolio.
Proof.
  pose proof client_request.
  unfold BibitAPI.get_portofolio. client_steps.
  case_match; [auto with client|]. intros w. apply client_only_refl.
Qed.

(** ** The history store *)

Lemma get_last_spec (w : World) :
  PortofolioHistoryStore.get_last w =
    (Ok (PortofolioHistoryStore.last_snapshot (history (_store w))), w).
Proof.
  unfold PortofolioHistoryStore.get_last, PortofolioHistoryStore.last_snapshot,
    PortofolioHistoryStore.last_item.
  run_m. by destruct (last (history (_store w))).
Qed.

(** ** The map of a snapshot and its sorted keys *)

Section PortoMap.
Import BibitNotifyJob.

Lemma _build_porto_map_snoc (l : list asset) (it : asset) :
  _build_porto_map (l ++ [it]) = <[id it := it]> (_build_porto_map l).
Proof. unfold _build_porto_map. by rewrite foldl_app. Qed.

(** A record found in the map is a record of the snapshot, under its own
    id. *)
Lemma _build_porto_map_lookup (l : list asset) (i : Z) (it : asset) :
  _build_porto_map l !! i = Some it -> it ∈ l ∧ id it = i.
Proof.
  induction l as [|x l IH] using rev_ind.
  - unfold _build_porto_map. cbn. by rewrite lookup_empty.
  - rewrite _build_porto_map_snoc.
    destruct (decide (id x = i)) as [<-|Hne].
    + rewrite lookup_insert_eq. intros [= <-]. split; [|done].
      apply elem_of_app. right. by apply list_elem_of_singleton.
    + rewrite lookup_insert_ne by done. intros H.
      destruct (IH H) as [Hin Hid]. split; [|done].
      apply elem_of_app. by left.
Qed.

(** With ids unique in the snapshot, every record is found under its id. *)
Lemma _build_porto_map_NoDup (l : list asset) (it : asset) :
  NoDup (id <$> l) -> it ∈ l -> _build_porto_map l !! id it = Some it.
Proof.
  induction l as [|x l IH] using rev_ind; intros Hnd Hin.
  - by apply elem_of_nil in Hin.
  - rewrite _build_porto_map_snoc.
    rewrite fmap_app in Hnd. apply NoDup_app in Hnd as (Hnd & Hdisj & _).
    apply elem_of_app in Hin as [Hin|Hin].
    + rewrite lookup_insert_ne; [by apply IH|].
      intros Heq. apply (Hdisj (id it)).
      * apply list_elem_of_fmap. by exists it.
      * rewrite <- Heq. cbn. apply list_elem_of_singleton. done.
    + apply list_elem_of_singleton in Hin as ->. by rewrite lookup_insert_eq.
Qed.

Lemma _build_porto_map_None (l : list asset) (i : Z) :
  i ∉ id <$> l -> _build_porto_map l !! i = None.
Proof.
  intros Hnot. destruct (_build_porto_map l !! i) as [it|] eqn:Hl; [|done].
  apply _build_porto_map_lookup in Hl as [Hin <-].
  exfalso. apply Hnot. apply list_elem_of_fmap. by exists it.
Qed.

(** The map does not depend on the order of a snapshot with unique ids. *)
Lemma _build_porto_map_Permutation (l l' : list asset) :
  NoDup (id <$> l) -> l ≡ₚ l' -> _build_porto_map l = _build_porto_map l'.
Proof.
  intros Hnd Hp.
  assert (Hnd' : NoDup (id <$> l')) by (by rewrite <- Hp).
  apply map_eq. intros i. apply option_eq. intros it. split; intros H.
  - apply _build_porto_map_lookup in H as [Hin <-].
    apply _build_porto_map_NoDup; [done|]. by rewrite <- Hp.
  - apply _build_porto_map_lookup in H as [Hin <-].
    apply _build_porto_map_NoDup; [done|]. by rewrite Hp.
Qed.

Lemma sorted_keys_elem (pm : gmap Z asset) (i : Z) :
  i ∈ sorted_keys pm <-> is_Some (pm !! i).
Proof.
  unfold sorted_keys. rewrite merge_sort_Permutation, elem_of_elements.
  apply elem_of_dom.
Qed.

Lemma sorted_keys_NoDup (pm : gmap Z asset) : NoDup (sorted_keys pm).
Proof.
  unfold sorted_keys. rewrite merge_sort_Permutation. apply NoDup_elements.
Qed.

(** The keys come out in strictly ascending order. *)
Lemma sorted_keys_ascending (pm : gmap Z asset) :
  StronglySorted Z.lt (sorted_keys pm).
Proof.
  pose proof (sorted_keys_NoDup pm) as Hnd.
  assert (Hs : StronglySorted Z.le (sorted_keys pm))
    by apply (StronglySorted_merge_sort Z.le).
  induction Hs as [|x l Hs IH Hall]; [constructor|].
  apply NoDup_cons in Hnd as [Hx Hnd].
  constructor; [by apply IH|].
  rewrite Forall_forall in Hall |- *. intros y Hy.
  specialize (Hall y Hy).
  assert (x ≠ y) by (intros ->; by apply Hx). lia.
Qed.

End PortoMap.

(** ** The loop of [_construct_message] *)

Section Loop.
Import BibitNotifyJob.

Lemma loop_body_unchanged (lm pm : gmap Z asset) (b b' : bool)
    (parts parts' : list string) (i : Z) (it : asset) :
  pm !! i = Some it -> id it = i ->
  same_truncated_value lm it ->
  loop_body lm pm (b, parts) i = Ok (b', parts') ->
  b' = b.
Proof.
  intros Hit Hid Hsame H. unfold loop_body in H. rewrite Hit in H.
  cbn [mbind result_bind] in H.
  unfold same_truncated_value in Hsame. rewrite Hid in Hsame.
  repeat (next_outcome_in H; [|discriminate]).
  injection H as <- _.
  rewrite bool_decide_eq_false_2; [done|]. intros Hne. apply Hne. congruence.
Qed.

(** A loop over records whose truncated values all stand leaves
    [should_send] as it was. *)
Lemma loop_unchanged (lm pm : gmap Z asset) (ids : list Z) :
  (∀ i it, i ∈ ids -> pm !! i = Some it -> id it = i ∧ same_truncated_value lm it) ->
  ∀ (b b' : bool) (parts parts' : list string),
    loop lm pm (b, parts) ids = Ok (b', parts') -> b' = b.
Proof.
  induction ids as [|i ids IH]; intros Hall b b' parts parts' H.
  - by injection H as <- _.
  - cbn [loop] in H.
    destruct (loop_body lm pm (b, parts) i) as [[b1 parts1]|] eqn:Hb;
      cbn [mbind result_bind] in H; [|discriminate].
    assert (b1 = b) as ->.
    { destruct (pm !! i) as [it|] eqn:Hit.
      - destruct (Hall i it) as [Hid Hsame]; [by left|done|].
        by eapply loop_body_unchanged.
      - unfold loop_body in Hb. rewrite Hit in Hb. discriminate. }
    eapply IH; [|exact H].
    intros j jt Hj. apply Hall. by right.
Qed.

(** [construct] on a snapshot whose truncated values all stand does not ask
    for a notification. *)
Lemma construct_unchanged (last_porto porto : list asset) (b : bool) (msg : string) :
  (∀ it, it ∈ porto -> same_truncated_value (_build_porto_map last_porto) it) ->
  construct last_porto porto = Ok (b, msg) -> b = false.
Proof.
  intros Hall H. unfold construct in H.
  destruct (loop _ _ _ _) as [[b1 parts]|] eqn:Hl;
    cbn [mbind result_bind] in H; [|discriminate].
  injection H as <- _.
  eapply loop_unchanged; [|exact Hl].
  intros i it _ Hit. apply _build_porto_map_lookup in Hit as [Hin Hid].
  split; [done|]. by apply Hall.
Qed.

(** Once set, [should_send] stays set. *)
Lemma loop_body_should_send (lm pm : gmap Z asset) (parts parts' : list string)
    (b' : bool) (i : Z) :
  loop_body lm pm (true, parts) i = Ok (b', parts') -> b' = true.
Proof.
  intros H. unfold loop_body in H.
  repeat (next_outcome_in H; [|discriminate]).
  injection H as <- _. by case_bool_decide.
Qed.

Lemma loop_should_send (lm pm : gmap Z asset) (ids : list Z) :
  ∀ (parts parts' : list string) (b' : bool),
    loop lm pm (true, parts) ids = Ok (b', parts') -> b' = true.
Proof.
  induction ids as [|i ids IH]; intros parts parts' b' H.
  - by injection H as <- _.
  - cbn [loop] in H.
    destruct (loop_body lm pm (true, parts) i) as [[b1 parts1]|] eqn:Hb;
      cbn [mbind result_bind] in H; [|discriminate].
    apply loop_body_should_send in Hb as ->. by eapply IH.
Qed.

(** A loop that meets an id on which the body raises whatever the loop's
    variables hold, raises. *)
Lemma loop_raises (lm pm : gmap Z asset) (ids : list Z) (i : Z) :
  i ∈ ids ->
  (∀ acc, is_ok (loop_body lm pm acc i) = false) ->
  ∀ acc, is_ok (loop lm pm acc ids) = false.
Proof.
  intros Hin Hraise. induction ids as [|j ids IH]; intros acc.
  - by apply elem_of_nil in Hin.
  - cbn [loop].
    destruct (loop_body lm pm acc j) as [acc'|e] eqn:Hb; cbn [mbind result_bind];
      [|done].
    apply elem_of_cons in Hin as [->|Hin].
    + specialize (Hraise acc). by rewrite Hb in Hraise.
    + by apply IH.
Qed.

End Loop.

(** ** A run of the job *)

Section Run.
Import BibitNotifyJob.

Lemma client_only_notifications (w w' : World) :
  client_only w w' ->
  List.filter is_notification (trace w') = List.filter is_notification (trace w)
  ∧ List.filter is_history_write (trace w') = List.filter is_history_write (trace w).
Proof.
  intros (_ & _ & _ & _ & evs & -> & Hc).
  rewrite !List.filter_app.
  assert (List.filter is_notification evs = [] ∧ List.filter is_history_write evs = [])
    as [-> ->]; [|by rewrite !app_nil_r].
  induction evs as [|ev evs IH]; [done|].
  cbn in Hc. apply andb_true_iff in Hc as [Hev Hc].
  destruct (IH Hc) as [IH1 IH2]. cbn. rewrite IH1, IH2.
  by destruct ev.
Qed.

(** What [run] comes to once the portfolio is fetched and cleaned. *)
Lemma run_fetched (w w1 : World) (portofolio : json) (cleaned : list asset) :
  BibitAPI.get_portofolio w = (Ok portofolio, w1) ->
  (data ← py_getitem portofolio "data"; _clean_porto data) = Ok cleaned ->
  run w =
    match construct (PortofolioHistoryStore.last_snapshot (history (_store w))) cleaned with
    | Ok (true, message) =>
        (TelegramAPI.send_message message;;
         RollingPortofolioHistoryStore.add cleaned) w1
    | Ok (false, _) => (Ok tt, w1)
    | Raise e => (Raise e, w1)
    end.
Proof.
  intros Hget Hclean. unfold run.
  rewrite (bind_ok _ _ _ _ _ Hget).
  assert (Hstore : _store w1 = _store w).
  { pose proof (client_get_portofolio w) as Hc. rewrite Hget in Hc. apply Hc. }
  unfold _construct_message, RollingPortofolioHistoryStore.get_last.
  unfold mbind at 1, M_bind at 1. unfold lift at 1. rewrite Hclean.
  unfold mbind at 1, M_bind at 1.
  unfold mbind at 1, M_bind at 1. rewrite get_last_spec, Hstore.
  unfold lift.
  destruct (construct _ cleaned) as [[[] msg]|e]; done.
Qed.

End Run.

(** C3: when the truncated market value of every asset of the current
    snapshot is what it was in the last stored snapshot (0 for an id that
    snapshot does not have), the run ends where the fetch left the world: no
    notification is sent, no history file is written, and the stored history
    is as before, whatever the invested amounts are. *)
Theorem unchanged_values_no_effect (w w1 : World) (portofolio : json)
    (cleaned : list asset) :
  BibitAPI.get_portofolio w = (Ok portofolio, w1) ->
  (data ← py_getitem portofolio "data"; BibitNotifyJob._clean_porto data) = Ok cleaned ->
  (∀ it, it ∈ cleaned ->
     BibitNotifyJob.same_truncated_value
       (BibitNotifyJob._build_porto_map
          (PortofolioHistoryStore.last_snapshot (history (_store w)))) it) ->
  let w' := snd (BibitNotifyJob.run w) in
  w' = w1
  ∧ List.filter is_notification (trace w') = List.filter is_notification (trace w)
  ∧ List.filter is_history_write (trace w') = List.filter is_history_write (trace w)
  ∧ files w' = files w
  ∧ _store w' = _store w.
Proof.
  intros Hget Hclean Hsame w'.
  assert (Hw' : w' = w1).
  { unfold w'. rewrite (run_fetched w w1 portofolio cleaned Hget Hclean).
    destruct (BibitNotifyJob.construct _ cleaned) as [[b msg]|e] eqn:Hc; [|done].
    apply construct_unchanged in Hc as ->; done. }
  rewrite Hw'.
  pose proof (client_get_portofolio w) as Hc. rewrite Hget in Hc. cbn [snd] in Hc.
  destruct (client_only_notifications _ _ Hc) as [Hn Hd].
  destruct Hc as (_ & Hf & _ & Hs & _). done.
Qed.

(** C3, on a history whose last snapshot values Fund A at 1050 and a fetch
    that values it at 1050.5 with another invested amount. *)
Lemma unchanged_values_no_effect_witness :
  let h := [Entry 1600000000 [Asset 1 (PInt 1000) (PInt 1050) "Fund A"]] in
  let pf := Sample.portfolio_body
              [Sample.raw_item 1 (PInt 900) (PFloat Sample.f_1050_5) "Fund A"] in
  let w := Sample.with_history (Sample.serving pf) h in
  let w' := snd (BibitNotifyJob.run w) in
  w' = log (EvRequest (BibitAPI.build_request Sample.old_secrets "GET" "/portfolio" (JDict []))
              (Ok (Response 200 (Some pf)))) w
  ∧ List.filter is_notification (trace w') = List.filter is_notification (trace w)
  ∧ List.filter is_history_write (trace w') = List.filter is_history_write (trace w)
  ∧ files w' = files w
  ∧ _store w' = _store w.
Proof.
  intros h pf w.
  apply (unchanged_values_no_effect w _ pf
           [Asset 1 (PInt 900) (PFloat Sample.f_1050_5) "Fund A"]).
  - reflexivity.
  - reflexivity.
  - intros it Hin. apply list_elem_of_singleton in Hin as ->. vm_compute. reflexivity.
Defined.

(** The division by a zero invested amount raises, if nothing has before. *)
Lemma change_of_zero_invested (current_profit last_profit current_invested : pynum) :
  num_is_zero current_invested = true ->
  is_ok (BibitNotifyJob.change_of current_profit last_profit current_invested) = false.
Proof.
  intros Hz. unfold BibitNotifyJob.change_of.
  do 2 (next_outcome; [|done]).
  unfold float_truediv. destruct current_invested as [z|f]; cbn in Hz.
  - apply Z.eqb_eq in Hz as ->. reflexivity.
  - cbn. by rewrite Hz.
Qed.

(** The body of the loop raises on a record whose invested amount is zero,
    whatever the loop's variables hold. *)
Lemma loop_body_zero_invested (lm pm : gmap Z asset) (it : asset)
    (acc : bool * list string) :
  pm !! id it = Some it ->
  num_is_zero (invested it) = true ->
  is_ok (BibitNotifyJob.loop_body lm pm acc (id it)) = false.
Proof.
  intros Hit Hz. unfold BibitNotifyJob.loop_body. destruct acc as [b parts].
  rewrite Hit. cbn [mbind result_bind].
  do 2 (next_outcome; [|done]).
  match goal with
  | |- context [BibitNotifyJob.change_of ?cp ?lp ?ci] =>
      pose proof (change_of_zero_invested cp lp ci Hz) as Hc;
      destruct (BibitNotifyJob.change_of cp lp ci); [discriminate|done]
  end.
Qed.

(** C5: when the current snapshot, with its ids unique, has an asset whose
    invested amount is zero, the run raises and ends where the fetch left
    the world: no notification is sent, no history file is written, and the
    stored history is as before. *)
Theorem zero_invested_aborts (w w1 : World) (portofolio : json)
    (cleaned : list asset) (it : asset) :
  BibitAPI.get_portofolio w = (Ok portofolio, w1) ->
  (data ← py_getitem portofolio "data"; BibitNotifyJob._clean_porto data) = Ok cleaned ->
  NoDup (id <$> cleaned) ->
  it ∈ cleaned ->
  num_is_zero (invested it) = true ->
  (∃ e, BibitNotifyJob.run w = (Raise e, w1))
  ∧ List.filter is_notification (trace w1) = List.filter is_notification (trace w)
  ∧ List.filter is_history_write (trace w1) = List.filter is_history_write (trace w)
  ∧ files w1 = files w
  ∧ _store w1 = _store w.
Proof.
  intros Hget Hclean Hnd Hin Hz. split.
  - rewrite (run_fetched w w1 portofolio cleaned Hget Hclean).
    unfold BibitNotifyJob.construct.
    set (lm := BibitNotifyJob._build_porto_map _).
    set (pm := BibitNotifyJob._build_porto_map cleaned).
    assert (Hit : pm !! id it = Some it) by (by apply _build_porto_map_NoDup).
    pose proof (loop_raises lm pm (BibitNotifyJob.sorted_keys pm) (id it)) as Hr.
    destruct (BibitNotifyJob.loop lm pm (false, []) (BibitNotifyJob.sorted_keys pm))
      as [acc|e] eqn:Hl; cbn [mbind result_bind].
    + exfalso.
      assert (is_ok (BibitNotifyJob.loop lm pm (false, []) (BibitNotifyJob.sorted_keys pm)) = false)
        as Hno.
      { apply Hr.
        - apply sorted_keys_elem. by rewrite Hit.
        - intros acc'. by apply loop_body_zero_invested. }
      by rewrite Hl in Hno.
    + by exists e.
  - pose proof (client_get_portofolio w) as Hc. rewrite Hget in Hc. cbn [snd] in Hc.
    destruct (client_only_notifications _ _ Hc) as [Hn Hd].
    destruct Hc as (_ & Hf & _ & Hs & _). done.
Qed.

(** C5, on a fetch with a fully divested Fund B next to Fund A. *)
Lemma zero_invested_aborts_witness :
  let pf := Sample.portfolio_body
              [Sample.raw_item 1 (PInt 1000) (PInt 1100) "Fund A";
               Sample.raw_item 2 (PInt 0) (PInt 5) "Fund B"] in
  let w := Sample.first_run (Sample.serving pf) in
  let w1 := log (EvRequest (BibitAPI.build_request Sample.old_secrets "GET" "/portfolio" (JDict []))
              (Ok (Response 200 (Some pf)))) w in
  (∃ e, BibitNotifyJob.run w = (Raise e, w1))
  ∧ List.filter is_notification (trace w1) = List.filter is_notification (trace w)
  ∧ List.filter is_history_write (trace w1) = List.filter is_history_write (trace w)
  ∧ files w1 = files w
  ∧ _store w1 = _store w.
Proof.
  intros pf w w1.
  apply (zero_invested_aborts w w1 pf
           [Asset 1 (PInt 1000) (PInt 1100) "Fund A"; Asset 2 (PInt 0) (PInt 5) "Fund B"]
           (Asset 2 (PInt 0) (PInt 5) "Fund B")).
  - reflexivity.
  - reflexivity.
  - apply (bool_decide_unpack _). vm_compute. exact I.
  - constructor 2. constructor 1.
  - reflexivity.
Defined.

(** ** First run *)

(** C7: when the backing file does not exist, [load] raises
    [StoreNotInitializedError] and [init] turns that into an empty history
    instead of raising; and [get_last] on a store with an empty history
    returns the empty list, the world untouched. *)
Theorem first_run_empty_history (w : World) :
  (files w !! storage (_store w) = None ->
     JSONFileStorage.load (storage (_store w)) w = (Raise StoreNotInitializedError, w)
     ∧ PortofolioHistoryStore.init w
       = (Ok tt, set_store (HistoryStore (storage (_store w)) []) w))
  ∧ (history (_store w) = [] -> PortofolioHistoryStore.get_last w = (Ok [], w)).
Proof.
  split.
  - intros Hnone. split.
    + unfold JSONFileStorage.load. by rewrite Hnone.
    + unfold PortofolioHistoryStore.init, PortofolioHistoryStore.set_history,
        JSONFileStorage.load.
      run_m. by rewrite Hnone.
  - intros Hempty. rewrite get_last_spec, Hempty. reflexivity.
Qed.

(** C7, on a world with no history file. *)
Lemma first_run_empty_history_witness :
  let w := Sample.first_run (Sample.constant_server 200) in
  (JSONFileStorage.load (storage (_store w)) w = (Raise StoreNotInitializedError, w)
   ∧ PortofolioHistoryStore.init w = (Ok tt, w))
  ∧ PortofolioHistoryStore.get_last w = (Ok [], w).
Proof.
  intros w. split.
  - apply (proj1 (first_run_empty_history w)). reflexivity.
  - apply (proj2 (first_run_empty_history w)). reflexivity.
Defined.

(** ** A holding the last snapshot does not have *)

Section NewHolding.
Import BibitNotifyJob.

(** Subtracting the integer 0 changes no number. *)
Lemma py_sub_0 (x : pynum) : py_sub x (PInt 0) = Ok x.
Proof.
  destruct x as [z|f]; cbn.
  - by rewrite Z.sub_0_r.
  - by destruct f as [[]|[]| |].
Qed.

(** With a zero baseline the change is [1.0 * current_profit /
    current_invested]. *)
Lemma change_of_baseline_0 (current_profit current_invested : pynum) :
  change_of current_profit (PInt 0) current_invested =
    (n ← float_mul fone current_profit; float_truediv n current_invested).
Proof. unfold change_of. by rewrite py_sub_0. Qed.

(** The body of the loop on an id the last snapshot does not have: the
    change is taken against a zero baseline, and [should_send] is set when
    the truncated value is not 0. *)
Lemma loop_body_new_holding (lm pm : gmap Z asset) (it : asset) (b b' : bool)
    (parts parts' : list string) :
  pm !! id it = Some it ->
  lm !! id it = None ->
  loop_body lm pm (b, parts) (id it) = Ok (b', parts') ->
  ∃ (current_profit : pynum) (change : float) (z : Z) (line : string),
    py_sub (marketvalue it) (invested it) = Ok current_profit
    ∧ (n ← float_mul fone current_profit; float_truediv n (invested it)) = Ok change
    ∧ py_int (marketvalue it) = Ok z
    ∧ _format_message (name it) change (marketvalue it) current_profit = Ok line
    ∧ parts' = parts ++ [line]
    ∧ b' = (if bool_decide (z ≠ 0) then true else b).
Proof.
  intros Hit Hnone H. unfold loop_body in H. rewrite Hit, Hnone in H.
  cbn [mbind result_bind get_or_0 py_sub py_int] in H.
  change (0 - 0) with 0 in H.
  destruct (py_sub (marketvalue it) (invested it)) as [cp|] eqn:Hcp;
    cbn [mbind result_bind] in H; [|discriminate].
  rewrite change_of_baseline_0 in H.
  destruct (n ← float_mul fone cp; float_truediv n (invested it)) as [change|] eqn:Hch;
    cbn [mbind result_bind] in H; [|discriminate].
  destruct (py_int (marketvalue it)) as [z|] eqn:Hz;
    cbn [mbind result_bind] in H; [|discriminate].
  destruct (_format_message (name it) change (marketvalue it) cp) as [line|] eqn:Hl;
    cbn [mbind result_bind] in H; [|discriminate].
  injection H as <- <-. by exists cp, change, z, line.
Qed.

(** A loop that passes an id whose body sets [should_send] ends with it
    set. *)
Lemma loop_sets_should_send (lm pm : gmap Z asset) (i : Z) (ids : list Z) :
  i ∈ ids ->
  (∀ b parts b' parts', loop_body lm pm (b, parts) i = Ok (b', parts') -> b' = true) ->
  ∀ b parts b' parts', loop lm pm (b, parts) ids = Ok (b', parts') -> b' = true.
Proof.
  intros Hin Hset. induction ids as [|j ids IH]; intros b parts b' parts' H.
  - by apply elem_of_nil in Hin.
  - cbn [loop] in H.
    destruct (loop_body lm pm (b, parts) j) as [[b1 parts1]|] eqn:Hb;
      cbn [mbind result_bind] in H; [|discriminate].
    apply elem_of_cons in Hin as [->|Hin].
    + apply Hset in Hb as ->. by eapply loop_should_send.
    + by eapply IH.
Qed.

End NewHolding.

(** C6, as the claim states it, fails: a new holding worth 0.5, which is
    not zero, does not ask for a notification, since [int(0.5)] is 0. *)
Lemma new_holding_below_one_not_notified :
  let it := Asset 1 (PInt 1) (PFloat Sample.f_0_5) "Fund A" in
  num_is_zero (marketvalue it) = false
  ∧ BibitNotifyJob._build_porto_map [] !! id it = None
  ∧ ∃ message, BibitNotifyJob.construct [] [it] = Ok (false, message).
Proof.
  intros it. split; [reflexivity|]. split; [reflexivity|].
  eexists. vm_compute. reflexivity.
Qed.

(** C6, amended: for an asset of the current snapshot (ids unique) whose id
    the last snapshot does not have, the prior market value and invested
    amount are taken as 0; when the loop's body completes for it, the change
    in its line is [1.0 * current_profit / current_invested]; and the
    comparison asks for a notification whenever the truncated current market
    value is not 0. *)
Theorem new_holding_baseline (last_porto porto : list asset) (it : asset) :
  NoDup (id <$> porto) ->
  it ∈ porto ->
  id it ∉ id <$> last_porto ->
  let lm := BibitNotifyJob._build_porto_map last_porto in
  let pm := BibitNotifyJob._build_porto_map porto in
  BibitNotifyJob.get_or_0 marketvalue (lm !! id it) = PInt 0
  ∧ BibitNotifyJob.get_or_0 invested (lm !! id it) = PInt 0
  ∧ (∀ (b b' : bool) (parts parts' : list string),
       BibitNotifyJob.loop_body lm pm (b, parts) (id it) = Ok (b', parts') ->
       ∃ (current_profit : pynum) (change : float) (z : Z) (line : string),
         py_sub (marketvalue it) (invested it) = Ok current_profit
         ∧ (n ← float_mul fone current_profit; float_truediv n (invested it)) = Ok change
         ∧ py_int (marketvalue it) = Ok z
         ∧ BibitNotifyJob._format_message (name it) change (marketvalue it) current_profit
           = Ok line
         ∧ parts' = parts ++ [line]
         ∧ b' = (if bool_decide (z ≠ 0) then true else b))
  ∧ (∀ (should_send : bool) (message : string) (z : Z),
       BibitNotifyJob.construct last_porto porto = Ok (should_send, message) ->
       py_int (marketvalue it) = Ok z ->
       z ≠ 0 ->
       should_send = true).
Proof.
  intros Hnd Hin Hnew lm pm.
  assert (Hnone : lm !! id it = None) by (by apply _build_porto_map_None).
  assert (Hit : pm !! id it = Some it) by (by apply _build_porto_map_NoDup).
  rewrite Hnone. split; [done|]. split; [done|]. split.
  - intros b b' parts parts' H. by eapply loop_body_new_holding.
  - intros should_send message z H Hz Hne. unfold BibitNotifyJob.construct in H.
    fold lm pm in H.
    destruct (BibitNotifyJob.loop lm pm (false, []) (BibitNotifyJob.sorted_keys pm))
      as [[b1 parts]|] eqn:Hl; cbn [mbind result_bind] in H; [|discriminate].
    injection H as <- _.
    eapply (loop_sets_should_send lm pm (id it)); [| |exact Hl].
    + apply sorted_keys_elem. by rewrite Hit.
    + intros b parts0 b' parts' Hb.
      destruct (loop_body_new_holding lm pm it b b' parts0 parts' Hit Hnone Hb)
        as (cp & ch & z' & line & _ & _ & Hz' & _ & _ & ->).
      rewrite Hz in Hz'. injection Hz' as <-.
      by rewrite bool_decide_eq_true_2.
Qed.

(** C6, amended, on Fund B bought since the last snapshot. *)
Lemma new_holding_baseline_witness :
  let last_porto := [Asset 1 (PInt 1000) (PInt 1050) "Fund A"] in
  let it := Asset 2 (PInt 500) (PInt 520) "Fund B" in
  let porto := [Asset 1 (PInt 1000) (PInt 1050) "Fund A"; it] in
  let lm := BibitNotifyJob._build_porto_map last_porto in
  let pm := BibitNotifyJob._build_porto_map porto in
  BibitNotifyJob.get_or_0 marketvalue (lm !! id it) = PInt 0
  ∧ BibitNotifyJob.get_or_0 invested (lm !! id it) = PInt 0
  ∧ (∀ (b b' : bool) (parts parts' : list string),
       BibitNotifyJob.loop_body lm pm (b, parts) (id it) = Ok (b', parts') ->
       ∃ (current_profit : pynum) (change : float) (z : Z) (line : string),
         py_sub (marketvalue it) (invested it) = Ok current_profit
         ∧ (n ← float_mul fone current_profit; float_truediv n (invested it)) = Ok change
         ∧ py_int (marketvalue it) = Ok z
         ∧ BibitNotifyJob._format_message (name it) change (marketvalue it) current_profit
           = Ok line
         ∧ parts' = parts ++ [line]
         ∧ b' = (if bool_decide (z ≠ 0) then true else b))
  ∧ (∀ (should_send : bool) (message : string) (z : Z),
       BibitNotifyJob.construct last_porto porto = Ok (should_send, message) ->
       py_int (marketvalue it) = Ok z ->
       z ≠ 0 ->
       should_send = true).
Proof.
  intros last_porto it porto.
  apply (new_holding_baseline last_porto porto it).
  - apply (bool_decide_unpack _). vm_compute. exact I.
  - constructor 2. constructor 1.
  - apply (bool_decide_unpack _). vm_compute. exact I.
Defined.

(** ** The order of the lines *)

Section Order.
Import BibitNotifyJob.

(** The body of the loop adds one line and may set [should_send]; what it
    adds does not depend on the loop's variables. *)
Lemma loop_body_acc (lm pm : gmap Z asset) (b : bool) (parts : list string) (i : Z) :
  loop_body lm pm (b, parts) i =
    ('(bi, line) ← loop_body lm pm (false, []) i; Ok (bi || b, parts ++ line)).
Proof.
  unfold loop_body.
  repeat (next_outcome; [|done]).
  cbn [mbind result_bind]. by case_bool_decide.
Qed.

Lemma loop_body_one_line (lm pm : gmap Z asset) (i : Z) (bi : bool) (l : list string) :
  loop_body lm pm (false, []) i = Ok (bi, l) -> ∃ line, l = [line].
Proof.
  unfold loop_body. intros H.
  repeat (next_outcome_in H; [|discriminate]).
  injection H as _ <-. by eexists.
Qed.

(** A loop that completes has added the lines of its ids, in the order of
    the ids. *)
Lemma loop_lines (lm pm : gmap Z asset) (ids : list Z) :
  ∀ (b b' : bool) (parts parts' : list string),
    loop lm pm (b, parts) ids = Ok (b', parts') ->
    ∃ lines : list (bool * string),
      Forall2 (line_of lm pm) ids lines
      ∧ parts' = parts ++ (snd <$> lines)
      ∧ b' = existsb fst lines || b.
Proof.
  induction ids as [|i ids IH]; intros b b' parts parts' H.
  - injection H as <- <-. exists []. split; [constructor|].
    by rewrite app_nil_r.
  - cbn [loop] in H. rewrite loop_body_acc in H.
    destruct (loop_body lm pm (false, []) i) as [[bi l]|] eqn:Hb;
      cbn [mbind result_bind] in H; [|discriminate].
    destruct (loop_body_one_line _ _ _ _ _ Hb) as [line ->].
    destruct (IH _ _ _ _ H) as (lines & Hall & -> & ->).
    exists ((bi, line) :: lines). split; [by constructor|]. split.
    + by rewrite <- app_assoc.
    + cbn. by rewrite orb_assoc, (orb_comm bi).
Qed.

End Order.

(** C8: for snapshots with unique ids, the ids the loop visits are those of
    the current snapshot in strictly ascending order, the message is the
    lines of these ids joined in that order, and neither the message nor
    [should_send] changes when the records of the current or of the last
    snapshot are listed in another order. *)
Theorem message_order_independent (last_porto last_porto' porto porto' : list asset) :
  NoDup (id <$> porto) ->
  NoDup (id <$> last_porto) ->
  porto ≡ₚ porto' ->
  last_porto ≡ₚ last_porto' ->
  let lm := BibitNotifyJob._build_porto_map last_porto in
  let pm := BibitNotifyJob._build_porto_map porto in
  let ids := BibitNotifyJob.sorted_keys pm in
  StronglySorted Z.lt ids
  ∧ (∀ i, i ∈ ids <-> i ∈ id <$> porto)
  ∧ (∀ (should_send : bool) (message : string),
       BibitNotifyJob.construct last_porto porto = Ok (should_send, message) ->
       ∃ lines : list (bool * string),
         Forall2 (BibitNotifyJob.line_of lm pm) ids lines
         ∧ message = Str.join Str.nl (snd <$> lines)
         ∧ should_send = existsb fst lines)
  ∧ BibitNotifyJob.construct last_porto' porto' = BibitNotifyJob.construct last_porto porto.
Proof.
  intros Hnd Hndl Hp Hpl lm pm ids. split; [apply sorted_keys_ascending|]. split.
  { intros i. unfold ids. rewrite sorted_keys_elem. split.
    - intros [it Hit]. apply _build_porto_map_lookup in Hit as [Hin <-].
      apply list_elem_of_fmap. by exists it.
    - intros (it & -> & Hin)%list_elem_of_fmap. exists it.
      by apply _build_porto_map_NoDup. }
  split.
  - intros should_send message H. unfold BibitNotifyJob.construct in H.
    fold lm pm ids in H.
    destruct (BibitNotifyJob.loop lm pm (false, []) ids) as [[b parts]|] eqn:Hl;
      cbn [mbind result_bind] in H; [|discriminate].
    injection H as <- <-.
    destruct (loop_lines _ _ _ _ _ _ _ Hl) as (lines & Hall & -> & ->).
    exists lines. split; [done|]. split; [done|]. by rewrite orb_false_r.
  - unfold BibitNotifyJob.construct.
    by rewrite <- (_build_porto_map_Permutation porto porto'),
      <- (_build_porto_map_Permutation last_porto last_porto').
Qed.

(** C8, on two funds listed in descending and in ascending order of id. *)
Lemma message_order_independent_witness :
  let a := Asset 1 (PInt 1000) (PInt 1100) "Fund A" in
  let b := Asset 2 (PInt 500) (PInt 520) "Fund B" in
  let last_porto := [Asset 1 (PInt 1000) (PInt 1050) "Fund A"] in
  let lm := BibitNotifyJob._build_porto_map last_porto in
  let pm := BibitNotifyJob._build_porto_map [b; a] in
  let ids := BibitNotifyJob.sorted_keys pm in
  StronglySorted Z.lt ids
  ∧ (∀ i, i ∈ ids <-> i ∈ id <$> [b; a])
  ∧ (∀ (should_send : bool) (message : string),
       BibitNotifyJob.construct last_porto [b; a] = Ok (should_send, message) ->
       ∃ lines : list (bool * string),
         Forall2 (BibitNotifyJob.line_of lm pm) ids lines
         ∧ message = Str.join Str.nl (snd <$> lines)
         ∧ should_send = existsb fst lines)
  ∧ BibitNotifyJob.construct last_porto [a; b] = BibitNotifyJob.construct last_porto [b; a].
Proof.
  intros a b last_porto.
  apply (message_order_independent last_porto last_porto [b; a] [a; b]).
  - apply (bool_decide_unpack _). vm_compute. exact I.
  - apply (bool_decide_unpack _). vm_compute. exact I.
  - apply Permutation_swap.
  - reflexivity.
Defined.

(** ** The format of a line *)

Section Format.
Import BibitNotifyJob.

(** Comparing the other way round gives the opposite answer. *)
Lemma SFcompare_antisym (a b : float) :
  SFcompare b a = CompOpp <$> SFcompare a b.
Proof.
  destruct a as [sa|sa| |sa ma ea], b as [sb|sb| |sb mb eb]; cbn;
    try (by repeat case_match).
  destruct sa, sb; cbn; try done.
  - rewrite (Z.compare_antisym eb ea).
    destruct (eb ?= ea) eqn:He; cbn; try done.
    rewrite CompOpp_involutive. f_equal.
    apply (Pos.compare_cont_antisym mb ma Eq).
  - rewrite (Z.compare_antisym eb ea).
    destruct (eb ?= ea) eqn:He; cbn; try done.
    f_equal. symmetry. apply (Pos.compare_cont_antisym ma mb Eq).
Qed.

(** The glyph [_format_message] picks is the specification's. *)
Lemma emoji_is_glyph_of (change : float) :
  (if float_gt change eps then emoji_up
   else if float_lt change (SFopp eps) then emoji_down
   else emoji_flat) = glyph_of change.
Proof.
  unfold glyph_of, float_gt, float_lt, SFltb.
  rewrite (SFcompare_antisym change eps).
  destruct (SFcompare change eps) as [[]|],
    (SFcompare change (SFopp eps)) as [[]|]; done.
Qed.

End Format.

(** ** Rounding and grouping *)

(** [round_half_even n e] is an integer nearest to [n * 2^e], and the even
    one of the two when [n * 2^e] lies half-way. *)
Lemma round_half_even_nearest (n e : Z) :
  0 <= n -> e < 0 ->
  let t := round_half_even n e in
  2 * Z.abs (t * 2 ^ (- e) - n) <= 2 ^ (- e)
  ∧ (2 * Z.abs (t * 2 ^ (- e) - n) = 2 ^ (- e) -> Z.even t = true).
Proof.
  intros Hn He t. unfold t, round_half_even.
  destruct (Z.leb_spec 0 e) as [|_]; [lia|].
  set (k := - e). assert (Hk : 0 < k) by lia.
  rewrite Z.shiftr_div_pow2, !Z.shiftl_mul_pow2, Z.mul_1_l by lia.
  assert (Hp : 2 ^ k = 2 * 2 ^ (k - 1)).
  { rewrite <- Z.pow_succ_r by lia. f_equal. lia. }
  assert (Hpos : 0 < 2 ^ (k - 1)) by (apply Z.pow_pos_nonneg; lia).
  pose proof (Z.div_mod n (2 ^ k) ltac:(lia)) as Hdm.
  pose proof (Z.mod_pos_bound n (2 ^ k) ltac:(lia)) as Hmod.
  set (q := n `div` 2 ^ k) in *. set (r := n `mod` 2 ^ k) in *.
  set (h := 2 ^ (k - 1)) in *.
  destruct (Z.compare_spec (n - q * 2 ^ k) h) as [Heq|Hlt|Hgt].
  - destruct (Z.even q) eqn:Hev.
    + split; [lia|done].
    + split; [lia|]. intros _. rewrite Z.even_add, Hev. done.
  - split; lia.
  - split; lia.
Qed.

Lemma round_half_even_nonneg (n e : Z) : 0 <= n -> 0 <= round_half_even n e.
Proof.
  intros Hn. destruct (Z.leb_spec 0 e) as [He|He].
  - unfold round_half_even. destruct (Z.leb_spec 0 e) as [_|]; [|lia].
    apply Z.shiftl_nonneg. lia.
  - pose proof (round_half_even_nearest n e Hn He) as [Hnear _]. cbv zeta in Hnear.
    assert (0 < 2 ^ (- e)) by (apply Z.pow_pos_nonneg; lia).
    nia.
Qed.

(** [round] of a float with a fractional part is within a half of it. *)
Lemma py_round_nearest (s : bool) (m : positive) (e z : Z) :
  py_round (PFloat (S754_finite s m e)) = Ok z ->
  e < 0 ->
  2 * Z.abs (Z.abs z * 2 ^ (- e) - Zpos m) <= 2 ^ (- e).
Proof.
  intros [= <-] He.
  pose proof (round_half_even_nonneg (Zpos m) e ltac:(lia)) as Hpos.
  pose proof (round_half_even_nearest (Zpos m) e ltac:(lia) He) as [Hnear _].
  cbv zeta in Hnear.
  replace (Z.abs (cond_Zopp s (round_half_even (Z.pos m) e)))
    with (round_half_even (Z.pos m) e); [done|].
  destruct s; cbn [cond_Zopp]; lia.
Qed.

(** The one decimal of a positive float with a fractional part: the number
    of tenths is within a half of ten times the float. *)
Lemma format_float_1f_tenths (m : positive) (e : Z) :
  e < 0 ->
  ∃ t : Z,
    0 <= t
    ∧ format_float_1f (S754_finite false m e)
      = pretty (t `div` 10) +:+ "." +:+ pretty (t `mod` 10)
    ∧ 2 * Z.abs (t * 2 ^ (- e) - 10 * Zpos m) <= 2 ^ (- e).
Proof.
  intros He. exists (round_half_even (10 * Zpos m) e).
  split; [apply round_half_even_nonneg; lia|]. split; [done|].
  by apply (round_half_even_nearest (10 * Zpos m) e ltac:(lia) He).
Qed.

(** The grouping of a digit list, on the list as written. *)
Lemma group3_rev_snoc3 (front : list ascii) (a b c : ascii) :
  front ≠ [] ->
  rev (group3_rev (rev (front ++ [a; b; c])))
  = rev (group3_rev (rev front)) ++ [","%char; a; b; c].
Proof.
  intros Hne. rewrite rev_app_distr. cbn [rev app].
  destruct (rev front) as [|d rest] eqn:Hr.
  - apply (f_equal (@rev ascii)) in Hr. rewrite rev_involutive in Hr. done.
  - cbn [group3_rev rev]. by rewrite <- !app_assoc.
Qed.

Lemma group3_rev_short (ds : list ascii) :
  (length ds <= 3)%nat -> rev (group3_rev (rev ds)) = ds.
Proof.
  intros Hlen. rewrite <- length_rev in Hlen.
  destruct (rev ds) as [|a [|b [|c [|d rest]]]] eqn:Hr; cbn in Hlen; try lia;
    cbn [group3_rev]; by rewrite <- Hr, rev_involutive.
Qed.

Lemma list_ascii_of_string_app (s t : string) :
  list_ascii_of_string (s +:+ t) = list_ascii_of_string s ++ list_ascii_of_string t.
Proof. induction s as [|a s IH]; [done|]. cbn. by rewrite <- IH. Qed.

Lemma string_of_list_ascii_app (l l' : list ascii) :
  string_of_list_ascii (l ++ l') = string_of_list_ascii l +:+ string_of_list_ascii l'.
Proof. induction l as [|a l IH]; [done|]. cbn. by rewrite IH. Qed.

(** Up to three digits are left as they are. *)
Lemma group_thousands_short (digits : string) :
  (String.length digits <= 3)%nat -> group_thousands digits = digits.
Proof.
  intros Hlen. unfold group_thousands.
  rewrite group3_rev_short; [apply string_of_list_ascii_of_string|].
  clear -Hlen. revert Hlen. generalize 3%nat.
  induction digits as [|a s IH]; intros n Hn; cbn in *; [lia|].
  destruct n; [lia|]. apply le_n_S, IH. lia.
Qed.

(** The last three digits of a longer number come after a comma, and the
    digits before them are grouped in turn. *)
Lemma group_thousands_step (front : string) (a b c : ascii) :
  front ≠ "" ->
  group_thousands (front +:+ String a (String b (String c "")))
  = group_thousands front +:+ String "," (String a (String b (String c ""))).
Proof.
  intros Hne. unfold group_thousands.
  rewrite list_ascii_of_string_app. cbn [list_ascii_of_string].
  rewrite group3_rev_snoc3; [by rewrite string_of_list_ascii_app|].
  by destruct front.
Qed.

Example format_int_grouped_millions : format_int_grouped 1234567 = "1,234,567".
Proof. reflexivity. Qed.

Example format_int_grouped_negative : format_int_grouped (-1000) = "-1,000".
Proof. reflexivity. Qed.

Example format_int_grouped_small : format_int_grouped 999 = "999".
Proof. reflexivity. Qed.

(** [round_half_even] is the rounding the specification names. *)
Lemma round_half_even_is_nearest (n e : Z) :
  0 <= n -> nearest_even n e (round_half_even n e).
Proof.
  intros Hn. unfold nearest_even.
  destruct (Z.leb_spec 0 e) as [He|He].
  - unfold round_half_even. destruct (Z.leb_spec 0 e) as [_|]; [|lia].
    by rewrite Z.shiftl_mul_pow2.
  - apply (round_half_even_nearest n e Hn He).
Qed.

Lemma py_round_rounds_to (num : pynum) (z : Z) :
  py_round num = Ok z -> rounds_to num z.
Proof.
  destruct num as [i|[s|s| |s m e]]; cbn; try discriminate.
  - by intros [= <-].
  - by intros [= <-].
  - intros [= <-]. exists (round_half_even (Zpos m) e).
    split; [apply round_half_even_is_nearest; lia|done].
Qed.

Lemma format_float_1f_shows (f : float) : shows_one_decimal f (format_float_1f f).
Proof.
  destruct f as [s|s| |s m e]; cbn [shows_one_decimal format_float_1f]; try done.
  exists (round_half_even (10 * Zpos m) e).
  split; [apply round_half_even_is_nearest; lia|done].
Qed.

(** A string of more than three characters ends in three characters that
    come after at least one other. *)
Lemma string_last3 (s : string) :
  (3 < String.length s)%nat ->
  ∃ front a b c,
    s = front +:+ String a (String b (String c ""))
    ∧ front ≠ ""
    ∧ String.length s = (String.length front + 3)%nat.
Proof.
  induction s as [|x s IH]; cbn [String.length]; [lia|]. intros Hlen.
  destruct (decide (String.length s = 3%nat)) as [H3|H3].
  - destruct s as [|a [|b [|c [|d s]]]]; cbn in H3; try lia.
    by exists (String x ""), a, b, c.
  - destruct IH as (front & a & b & c & -> & Hne & Hl); [lia|].
    exists (String x front), a, b, c. split; [done|]. split; [done|].
    cbn [String.length]. lia.
Qed.

(** [group_thousands] is the grouping the specification names. *)
Lemma group_thousands_grouped (digits : string) :
  grouped digits (group_thousands digits).
Proof.
  remember (String.length digits) as n eqn:Hn.
  revert digits Hn. induction (lt_wf n) as [n _ IH]. intros digits Hn.
  destruct (le_lt_dec (String.length digits) 3) as [Hshort|Hlong].
  - rewrite group_thousands_short by done. by constructor.
  - destruct (string_last3 digits Hlong) as (front & a & b & c & Heq & Hne & Hl).
    rewrite Heq, group_thousands_step by done.
    constructor; [done|].
    apply (IH (String.length front)); [lia|done].
Qed.

Lemma format_int_grouped_shows (z : Z) : shows_amount z (format_int_grouped z).
Proof.
  exists (group_thousands (pretty (Z.abs z))).
  split; [apply group_thousands_grouped|done].
Qed.

(** ** The format of a line *)

(** C9: a line is the glyph of the change ratio (up above [1e-9], down
    below [-1e-9], flat otherwise, [1e-9] being the double nearest to
    10^-9), a space, the absolute percentage (the ratio times the double
    100) to one decimal, the name between asterisks, and on the next line
    the grouped rounded value and, in brackets, the grouped rounded profit,
    where rounding is to the nearest integer with ties to even, one decimal
    is the nearest number of tenths with ties to even, and grouping puts a
    comma before every three digits from the right; and for Fund A going
    from 1050 to 1100 on 1000 invested, [should_send] is set and the message
    is the up glyph, a space and [5.0 | *Fund A*\n1,100 [100]\n]. *)
Theorem message_line_format :
  (eps = S754_finite false 4835703278458517 (-82)
   ∧ 2 ^ 52 <= 4835703278458517 < 2 ^ 53
   ∧ 2 * Z.abs (4835703278458517 * 10 ^ 9 - 2 ^ 82) <= 10 ^ 9
   ∧ f100 = S754_finite false 7036874417766400 (-46)
   ∧ 7036874417766400 = 100 * 2 ^ 46)
  ∧ (∀ (name : string) (change : float) (total profit : pynum) (line : string),
     BibitNotifyJob._format_message name change total profit = Ok line ->
     let percentage := SFabs (SFmul prec emax change f100) in
     ∃ t p : Z,
       py_round total = Ok t
       ∧ py_round profit = Ok p
       ∧ line =
           BibitNotifyJob.glyph_of change +:+ " "
           +:+ format_float_1f percentage
           +:+ " | *" +:+ name +:+ "*" +:+ Str.nl
           +:+ format_int_grouped t +:+ " [" +:+ format_int_grouped p +:+ "]" +:+ Str.nl
       ∧ (SFcompare change eps = Some Gt ->
          BibitNotifyJob.glyph_of change = BibitNotifyJob.emoji_up)
       ∧ (SFcompare change eps ≠ Some Gt ->
          SFcompare change (SFopp eps) = Some Lt ->
          BibitNotifyJob.glyph_of change = BibitNotifyJob.emoji_down)
       ∧ (SFcompare change eps ≠ Some Gt ->
          SFcompare change (SFopp eps) ≠ Some Lt ->
          BibitNotifyJob.glyph_of change = BibitNotifyJob.emoji_flat)
       ∧ shows_one_decimal percentage (format_float_1f percentage)
       ∧ rounds_to total t
       ∧ shows_amount t (format_int_grouped t)
       ∧ rounds_to profit p
       ∧ shows_amount p (format_int_grouped p))
  ∧ BibitNotifyJob.construct
      [Asset 1 (PInt 1000) (PInt 1050) "Fund A"]
      [Asset 1 (PInt 1000) (PInt 1100) "Fund A"]
    = Ok (true,
          BibitNotifyJob.emoji_up +:+ " " +:+ "5.0 | *Fund A*" +:+ Str.nl
          +:+ "1,100 [100]" +:+ Str.nl).
Proof.
  split; [|split].
  - split; [reflexivity|]. split; [by vm_compute|]. split; [by vm_compute|].
    split; reflexivity.
  - intros name change total profit line H percentage.
    unfold BibitNotifyJob._format_message, BibitNotifyJob._format_currency in H.
    rewrite emoji_is_glyph_of in H.
    cbn [float_mul as_float float_of_int mbind result_bind] in H.
    change (binary_normalize prec emax 100 0 false) with f100 in H.
    cbn [mbind result_bind] in H. fold percentage in H.
    destruct (py_round total) as [t|] eqn:Ht; cbn [mbind result_bind] in H;
      [|discriminate].
    destruct (py_round profit) as [p|] eqn:Hp; cbn [mbind result_bind] in H;
      [|discriminate].
    injection H as <-. exists t, p.
    split; [done|]. split; [done|]. split; [done|].
    split; [|split; [|split]].
    + intros Hgt. unfold BibitNotifyJob.glyph_of. by rewrite Hgt.
    + intros Hgt Hlt. unfold BibitNotifyJob.glyph_of. rewrite Hlt.
      by destruct (SFcompare change eps) as [[]|].
    + intros Hgt Hlt. unfold BibitNotifyJob.glyph_of.
      destruct (SFcompare change eps) as [[]|],
        (SFcompare change (SFopp eps)) as [[]|]; done.
    + split; [apply format_float_1f_shows|].
      split; [by apply py_round_rounds_to|].
      split; [apply format_int_grouped_shows|].
      split; [by apply py_round_rounds_to|apply format_int_grouped_shows].
  - vm_compute. reflexivity.
Qed.

(** C9, on the line of Fund A up by a twentieth, valued 1050.5 with a
    profit of 0.5: both amounts lie half-way and round to the even
    neighbour. *)
Lemma message_line_format_witness :
  let change := S754_finite false 7205759403792794 (-57) in
  let total := PFloat Sample.f_1050_5 in
  let profit := PFloat Sample.f_0_5 in
  let percentage := SFabs (SFmul prec emax change f100) in
  ∃ t p : Z,
    py_round total = Ok t
    ∧ py_round profit = Ok p
    ∧ BibitNotifyJob.emoji_up +:+ " 5.0 | *Fund A*" +:+ Str.nl +:+ "1,050 [0]" +:+ Str.nl =
        BibitNotifyJob.glyph_of change +:+ " "
        +:+ format_float_1f percentage
        +:+ " | *" +:+ "Fund A" +:+ "*" +:+ Str.nl
        +:+ format_int_grouped t +:+ " [" +:+ format_int_grouped p +:+ "]" +:+ Str.nl
    ∧ (SFcompare change eps = Some Gt ->
       BibitNotifyJob.glyph_of change = BibitNotifyJob.emoji_up)
    ∧ (SFcompare change eps ≠ Some Gt ->
       SFcompare change (SFopp eps) = Some Lt ->
       BibitNotifyJob.glyph_of change = BibitNotifyJob.emoji_down)
    ∧ (SFcompare change eps ≠ Some Gt ->
       SFcompare change (SFopp eps) ≠ Some Lt ->
       BibitNotifyJob.glyph_of change = BibitNotifyJob.emoji_flat)
    ∧ shows_one_decimal percentage (format_float_1f percentage)
    ∧ rounds_to total t
    ∧ shows_amount t (format_int_grouped t)
    ∧ rounds_to profit p
    ∧ shows_amount p (format_int_grouped p).
Proof.
  intros change total profit.
  apply (proj1 (proj2 message_line_format) "Fund A" change total profit).
  vm_compute. reflexivity.
Defined.

(** ** File names *)

Lemma string_length_app (s t : string) :
  String.length (s +:+ t) = (String.length s + String.length t)%nat.
Proof. induction s as [|a s IH]; [done|]. cbn. by rewrite <- IH. Qed.

Lemma string_app_inj_r (s1 s2 t : string) : s1 +:+ t = s2 +:+ t -> s1 = s2.
Proof.
  revert s2. induction s1 as [|a s1 IH]; intros [|b s2] H; [done|..].
  - apply (f_equal String.length) in H.
    rewrite !string_length_app in H. cbn in H. lia.
  - apply (f_equal String.length) in H.
    rewrite !string_length_app in H. cbn in H. lia.
  - change (String a (s1 +:+ t) = String b (s2 +:+ t)) in H.
    injection H as -> H. f_equal. by apply IH.
Qed.

Lemma path_join_inj (a b1 b2 : string) :
  Str.starts_with_slash b1 = Str.starts_with_slash b2 ->
  Str.path_join a b1 = Str.path_join a b2 -> b1 = b2.
Proof.
  unfold Str.path_join. intros ->.
  destruct (Str.starts_with_slash b2); [done|].
  destruct (String.eqb a "" || Str.ends_with_slash a)%bool; intros H.
  - by apply (inj (String.append a)) in H.
  - apply (inj (String.append a)) in H. by apply (inj (String.append "/")) in H.
Qed.

(** Distinct indices give distinct file names. *)
Lemma _get_filename_inj (r : json_file_repository) (i j : Z) :
  RollingJSONFileRepository._get_filename r i
  = RollingJSONFileRepository._get_filename r j -> i = j.
Proof.
  unfold RollingJSONFileRepository._get_filename. intros H.
  apply path_join_inj in H.
  - apply (inj (String.append (file_prefix r))) in H.
    apply (inj (String.append ".")) in H.
    apply string_app_inj_r in H. by apply (inj pretty) in H.
  - by destruct (file_prefix r).
Qed.

(** ** One append to the rolling store *)

(** What [add] comes to.  With more than 100 entries loaded it moves to the
    next index, loads what the file of that index holds if there is one,
    and appends there; otherwise it appends to the loaded history.  Either
    way the file of the active store is written whole. *)
Lemma add_spec (w : World) (snapshot : list asset) :
  let h := history (_store w) in
  let e := Entry (clock (env w) (trace w)) snapshot in
  let r := file_repository w in
  RollingPortofolioHistoryStore.add snapshot w =
    if bool_decide (100 < Z.of_nat (length h)) then
      let r' := FileRepository (directory r) (file_prefix r) (_last_idx r + 1) in
      let f := RollingJSONFileRepository._get_filename r' (_last_idx r + 1) in
      let h' := default [] (files w !! f) ++ [e] in
      (Ok tt,
       MkWorld (env w) (secret_storage w) (secrets_file w) (<[f := h']> (files w)) r'
         (HistoryStore f h') (trace w ++ [EvDump f h']))
    else
      let f := storage (_store w) in
      let h' := h ++ [e] in
      (Ok tt,
       MkWorld (env w) (secret_storage w) (secrets_file w) (<[f := h']> (files w)) r
         (HistoryStore f h') (trace w ++ [EvDump f h'])).
Proof.
  intros h e r.
  unfold RollingPortofolioHistoryStore.add, RollingPortofolioHistoryStore._init_inner_store,
    RollingPortofolioHistoryStore.max_portofolio, RollingJSONFileRepository.new_file,
    PortofolioHistoryStore.init, PortofolioHistoryStore.add, PortofolioHistoryStore.save,
    PortofolioHistoryStore.set_history, JSONFileStorage.load, JSONFileStorage.dump.
  run_m. fold h r.
  case_bool_decide as Hlt.
  - apply Z.ltb_lt in Hlt. rewrite Hlt. cbn.
    destruct (files w !! _) as [h0|]; reflexivity.
  - apply Z.ltb_nlt in Hlt. rewrite Hlt. reflexivity.
Qed.

(** ** Sequences of appends from a fresh log *)

Lemma adds_ok (snapshots : list (list asset)) (w : World) :
  fst (adds snapshots w) = Ok tt.
Proof.
  revert w. induction snapshots as [|s rest IH]; intros w; [done|].
  cbn [adds]. unfold mbind, M_bind.
  pose proof (add_spec w s) as Hs. cbv zeta in Hs.
  destruct (RollingPortofolioHistoryStore.add s w) as [[[]|e] w1].
  - apply IH.
  - by case_bool_decide.
Qed.

Lemma after_cons (w : World) (s : list asset) (rest : list (list asset)) :
  after w (s :: rest) = after (snd (RollingPortofolioHistoryStore.add s w)) rest.
Proof.
  unfold after. cbn [adds]. unfold mbind, M_bind.
  pose proof (add_spec w s) as Hs. cbv zeta in Hs.
  destruct (RollingPortofolioHistoryStore.add s w) as [[[]|e] w1]; [done|].
  by case_bool_decide.
Qed.

Lemma after_app (w : World) (a b : list (list asset)) :
  after w (a ++ b) = after (after w a) b.
Proof.
  revert w. induction a as [|s a IH]; intros w; [done|].
  cbn [app]. by rewrite !after_cons, IH.
Qed.

Lemma fresh_rolling_state (w : World) :
  fresh w ->
  rolling_state (RollingJSONFileRepository._get_filename (file_repository w)) w [] [].
Proof.
  intros (Hf & Hi & Hs). split.
  - constructor.
  - cbn. lia.
  - done.
  - done.
  - intros r Hd Hp i. unfold RollingJSONFileRepository._get_filename. by rewrite Hd, Hp.
  - done.
  - intros i c H. by rewrite lookup_nil in H.
  - done.
  - intros f [h Hh]. by rewrite Hf, lookup_empty in Hh.
  - by rewrite Hf, map_size_empty.
Qed.

(** [new_rolling_portofolio_history_store] on an empty directory gives a
    fresh log. *)
Lemma new_store_is_fresh (w : World) :
  files w = ∅ ->
  fst (new_rolling_portofolio_history_store [] w) = Ok tt
  ∧ fresh (snd (new_rolling_portofolio_history_store [] w)).
Proof.
  intros Hf.
  unfold new_rolling_portofolio_history_store, RollingJSONFileRepository.init,
    RollingJSONFileRepository.set_last_idx, RollingPortofolioHistoryStore.init,
    RollingJSONFileRepository.get_latest_filename,
    RollingPortofolioHistoryStore._init_inner_store, PortofolioHistoryStore.init,
    PortofolioHistoryStore.set_history, JSONFileStorage.load.
  cbn [RollingJSONFileRepository.scan_files]. run_m. cbn.
  rewrite Hf, lookup_empty. cbn. by repeat split.
Qed.

Lemma fn_inj (fn : Z -> string) (w : World) (full : list (list entry)) (cur : list entry) :
  rolling_state fn w full cur -> ∀ i j, fn i = fn j -> i = j.
Proof.
  intros Hrs i j H.
  rewrite <- !(rs_names _ _ _ _ Hrs (file_repository w) eq_refl eq_refl) in H.
  by apply _get_filename_inj in H.
Qed.

(** One append keeps the state of a rolling log: with at most 100 entries in
    the active store the entry joins them; with 101 the active list becomes
    a whole file, and the entry is the first of a file that did not exist. *)
Lemma add_rolling_state (fn : Z -> string) (w : World) (full : list (list entry))
    (cur : list entry) (snapshot : list asset) :
  rolling_state fn w full cur ->
  let e := Entry (clock (env w) (trace w)) snapshot in
  let w' := snd (RollingPortofolioHistoryStore.add snapshot w) in
  if bool_decide (100 < Z.of_nat (length cur)) then
    rolling_state fn w' (full ++ [cur]) [e]
    ∧ files w !! fn (Z.of_nat (length full) + 2) = None
    ∧ _last_idx (file_repository w') = _last_idx (file_repository w) + 1
  else
    rolling_state fn w' full (cur ++ [e]) ∧ file_repository w' = file_repository w.
Proof.
  intros Hrs e w'.
  pose proof (fn_inj _ _ _ _ Hrs) as Hinj.
  destruct Hrs as [Hfull Hcur Hfirst Hidx Hnames Hstore Hff Hcf Hno Hsize].
  unfold w'. rewrite add_spec. rewrite Hstore. cbn [history storage].
  case_bool_decide as Hlt; cbn [snd].
  - (* rollover *)
    assert (Hne : cur ≠ []) by (intros ->; cbn in Hlt; lia).
    rewrite Hidx.
    rewrite (Hnames (FileRepository (directory (file_repository w)) (file_prefix (file_repository w)) _)
               eq_refl eq_refl).
    replace (Z.of_nat (length full) + 1 + 1) with (Z.of_nat (length full) + 2) by lia.
    assert (Hnew : files w !! fn (Z.of_nat (length full) + 2) = None).
    { destruct (files w !! fn (Z.of_nat (length full) + 2)) as [h0|] eqn:Hl; [|done].
      destruct (Hno _ (mk_is_Some _ _ Hl)) as (i & Hi & Heq).
      apply Hinj in Heq. unfold file_count in Hi. destruct cur; [done|]. lia. }
    rewrite Hnew. cbn [default app].
    split; [|split; [done|cbn; lia]].
    split; cbn [file_repository _store files file_count].
    + apply Forall_app. split; [done|]. constructor; [|constructor]. lia.
    + cbn. lia.
    + done.
    + rewrite length_app. cbn. lia.
    + intros r Hd Hp i. by apply Hnames.
    + rewrite length_app. cbn [length].
      by replace (Z.of_nat (length full + 1) + 1) with (Z.of_nat (length full) + 2) by lia.
    + intros i c Hic.
      assert (i < length full + 1)%nat as Hi.
      { apply lookup_lt_Some in Hic. by rewrite length_app in Hic. }
      rewrite lookup_insert_ne by (intros Heq; apply Hinj in Heq; lia).
      destruct (decide (i < length full)%nat) as [Hlt'|Hge].
      * rewrite lookup_app_l in Hic by done. by apply Hff.
      * assert (i = length full) as -> by lia.
        rewrite list_lookup_middle in Hic by done. injection Hic as <-.
        by apply Hcf.
    + intros _. rewrite length_app. cbn [length].
      replace (Z.of_nat (length full + 1) + 1) with (Z.of_nat (length full) + 2) by lia.
      apply lookup_insert_eq.
    + intros f [h Hh]. unfold file_count. rewrite length_app. cbn [length].
      destruct (decide (fn (Z.of_nat (length full) + 2) = f)) as [<-|Hnf].
      * exists (Z.of_nat (length full) + 2). split; [lia|done].
      * rewrite lookup_insert_ne in Hh by done.
        destruct (Hno _ (mk_is_Some _ _ Hh)) as (i & Hi & Heq).
        exists i. split; [|done]. unfold file_count in Hi. destruct cur; [done|]. lia.
    + rewrite map_size_insert_None by done. rewrite Hsize.
      unfold file_count. rewrite length_app. destruct cur; [done|]. cbn. lia.
  - (* same file *)
    split; [|done].
    assert (Hfc : file_count full (cur ++ [e]) = (length full + 1)%nat).
    { unfold file_count. by destruct cur. }
    split; cbn [file_repository _store files].
    + done.
    + rewrite length_app. cbn. lia.
    + by destruct cur.
    + done.
    + done.
    + done.
    + intros i c Hic.
      rewrite lookup_insert_ne; [by apply Hff|].
      intros Heq. apply Hinj in Heq. apply lookup_lt_Some in Hic. lia.
    + intros _. apply lookup_insert_eq.
    + intros f [h Hh]. rewrite Hfc.
      destruct (decide (fn (Z.of_nat (length full) + 1) = f)) as [<-|Hnf].
      * exists (Z.of_nat (length full) + 1). split; [lia|done].
      * rewrite lookup_insert_ne in Hh by done.
        destruct (Hno _ (mk_is_Some _ _ Hh)) as (i & Hi & Heq).
        exists i. split; [|done]. unfold file_count in Hi. destruct cur; cbn in Hi; lia.
    + rewrite Hfc. destruct cur as [|e0 cur].
      * rewrite map_size_insert_None; [rewrite Hsize; unfold file_count; cbn; lia|].
        destruct (files w !! fn (Z.of_nat (length full) + 1)) as [h0|] eqn:Hl; [|done].
        destruct (Hno _ (mk_is_Some _ _ Hl)) as (i & Hi & Heq).
        apply Hinj in Heq. unfold file_count in Hi. cbn in Hi. lia.
      * rewrite map_size_insert_Some; [rewrite Hsize; unfold file_count; cbn; lia|].
        rewrite Hcf by done. done.
Qed.

Lemma adds_rolling_state (fn : Z -> string) (snapshots : list (list asset)) :
  ∀ (w : World) (full : list (list entry)) (cur : list entry),
    rolling_state fn w full cur ->
    ∃ (full' : list (list entry)) (cur' : list entry),
      rolling_state fn (after w snapshots) full' cur'
      ∧ portofolios <$> (concat full' ++ cur')
        = (portofolios <$> (concat full ++ cur)) ++ snapshots.
Proof.
  induction snapshots as [|s rest IH]; intros w full cur Hrs.
  - exists full, cur. split; [done|]. by rewrite app_nil_r.
  - rewrite after_cons.
    pose proof (add_rolling_state fn w full cur s Hrs) as Hstep. cbv zeta in Hstep.
    case_bool_decide.
    + destruct Hstep as (Hrs' & _ & _).
      destruct (IH _ _ _ Hrs') as (full' & cur' & Hrs'' & Heq).
      exists full', cur'. split; [done|]. rewrite Heq.
      rewrite concat_app. cbn [concat]. rewrite app_nil_r.
      rewrite !fmap_app. cbn [fmap list_fmap portofolios]. by rewrite <- !app_assoc.
    + destruct Hstep as (Hrs' & _).
      destruct (IH _ _ _ Hrs') as (full' & cur' & Hrs'' & Heq).
      exists full', cur'. split; [done|]. rewrite Heq.
      rewrite !fmap_app. cbn [fmap list_fmap portofolios]. by rewrite <- !app_assoc.
Qed.

(** The state of a log that started fresh, after any appends. *)
Lemma rolling_log_state (w0 : World) (snapshots : list (list asset)) :
  fresh w0 ->
  ∃ (full : list (list entry)) (cur : list entry),
    rolling_state (RollingJSONFileRepository._get_filename (file_repository w0))
      (after w0 snapshots) full cur
    ∧ portofolios <$> (concat full ++ cur) = snapshots.
Proof.
  intros Hfresh.
  destruct (adds_rolling_state _ snapshots w0 [] [] (fresh_rolling_state w0 Hfresh))
    as (full & cur & Hrs & Heq).
  by exists full, cur.
Qed.

Lemma length_concat_full (full : list (list entry)) :
  Forall (λ c, length c = 101%nat) full -> length (concat full) = (101 * length full)%nat.
Proof.
  induction 1 as [|c full Hc _ IH]; [done|].
  cbn [concat length]. rewrite length_app, IH, Hc. lia.
Qed.

(** The number of files is the number of entries over 101, rounded up. *)
Lemma rolling_state_count (fn : Z -> string) (w : World) (full : list (list entry))
    (cur : list entry) :
  rolling_state fn w full cur ->
  Z.of_nat (size (files w)) = ceil_div (Z.of_nat (length (concat full ++ cur))) 101.
Proof.
  intros Hrs. rewrite (rs_size _ _ _ _ Hrs), length_app.
  rewrite (length_concat_full full (rs_full _ _ _ _ Hrs)).
  pose proof (rs_cur _ _ _ _ Hrs) as Hcur.
  pose proof (rs_first _ _ _ _ Hrs) as Hfirst.
  unfold file_count, ceil_div. destruct cur as [|e cur].
  - rewrite Hfirst by done. reflexivity.
  - cbn [length] in *. apply (Z.div_unique _ _ _ (Z.of_nat (length cur))); lia.
Qed.

Lemma files_after_adds (w0 : World) (snapshots : list (list asset)) :
  fresh w0 ->
  Z.of_nat (size (files (after w0 snapshots)))
  = ceil_div (Z.of_nat (length snapshots)) 101.
Proof.
  intros Hfresh.
  destruct (rolling_log_state w0 snapshots Hfresh) as (full & cur & Hrs & Heq).
  rewrite (rolling_state_count _ _ _ _ Hrs).
  f_equal. f_equal. by rewrite <- Heq, length_fmap.
Qed.

Lemma ceil_div_100_101 (n : Z) :
  0 <= n <= 10200 -> Z.abs (ceil_div n 101 - ceil_div n 100) <= 1.
Proof.
  intros Hn. unfold ceil_div.
  pose proof (Z.div_mod (n + 101 - 1) 101 ltac:(lia)).
  pose proof (Z.mod_pos_bound (n + 101 - 1) 101 ltac:(lia)).
  pose proof (Z.div_mod (n + 100 - 1) 100 ltac:(lia)).
  pose proof (Z.mod_pos_bound (n + 100 - 1) 100 ltac:(lia)).
  lia.
Qed.

(** C2, as the claim states it, fails: after 10201 appends to a fresh log
    there are 101 files, while [ceil(10201 / 100)] is 103. *)
Lemma files_after_10201_adds :
  let w := after (Sample.first_run (Sample.constant_server 200)) (replicate (Z.to_nat 10201) []) in
  Z.of_nat (size (files w)) = 101
  ∧ ceil_div 10201 100 = 103.
Proof.
  intros w. split; [|reflexivity].
  unfold w. rewrite files_after_adds; [|by repeat split].
  rewrite length_replicate. reflexivity.
Qed.

(** C2, amended: from a fresh log every append succeeds; an append moves to
    the next index, and to a file that did not exist, exactly when the
    active store already holds more than 100 entries, which is when it holds
    101; the number of files is [ceil(N / 101)], which is within one of
    [ceil(N / 100)] as long as [N] is at most 10200; and the files of the
    indices from 1, read in order, hold the appended snapshots in order,
    each once. *)
Theorem rolling_log_files (w0 : World) (snapshots : list (list asset)) :
  fresh w0 ->
  let fn := RollingJSONFileRepository._get_filename (file_repository w0) in
  let N := Z.of_nat (length snapshots) in
  let w := after w0 snapshots in
  fst (adds snapshots w0) = Ok tt
  ∧ (∀ pre snapshot post, snapshots = pre ++ snapshot :: post ->
       let wj := after w0 pre in
       let wj' := after w0 (pre ++ [snapshot]) in
       (length (history (_store wj)) <= 101)%nat
       ∧ (100 < Z.of_nat (length (history (_store wj))) ->
            _last_idx (file_repository wj') = _last_idx (file_repository wj) + 1
            ∧ storage (_store wj') = fn (_last_idx (file_repository wj'))
            ∧ files wj !! storage (_store wj') = None
            ∧ portofolios <$> history (_store wj') = [snapshot])
       ∧ (¬ 100 < Z.of_nat (length (history (_store wj))) ->
            file_repository wj' = file_repository wj
            ∧ storage (_store wj') = storage (_store wj)
            ∧ portofolios <$> history (_store wj')
              = (portofolios <$> history (_store wj)) ++ [snapshot]))
  ∧ Z.of_nat (size (files w)) = ceil_div N 101
  ∧ (N <= 10200 -> Z.abs (Z.of_nat (size (files w)) - ceil_div N 100) <= 1)
  ∧ ∃ chunks : list (list entry),
      length chunks = size (files w)
      ∧ (∀ i c, chunks !! i = Some c -> files w !! fn (Z.of_nat i + 1) = Some c)
      ∧ portofolios <$> concat chunks = snapshots.
Proof.
  intros Hfresh fn N w. split; [apply adds_ok|]. split; [|split; [|split]].
  - intros pre snapshot post _ wj wj'.
    destruct (rolling_log_state w0 pre Hfresh) as (full & cur & Hrs & _).
    fold fn wj in Hrs.
    assert (Hwj' : wj' = snd (RollingPortofolioHistoryStore.add snapshot wj)).
    { unfold wj', wj. by rewrite after_app, after_cons. }
    pose proof (add_rolling_state fn wj full cur snapshot Hrs) as Hstep.
    cbv zeta in Hstep. rewrite <- Hwj' in Hstep.
    rewrite (rs_store _ _ _ _ Hrs). cbn [history storage].
    split; [apply (rs_cur _ _ _ _ Hrs)|]. split.
    + intros Hlt. rewrite bool_decide_eq_true_2 in Hstep by done.
      destruct Hstep as (Hrs' & Hnew & Hidx).
      rewrite (rs_store _ _ _ _ Hrs'), (rs_idx _ _ _ _ Hrs'). cbn [history storage].
      rewrite length_app. cbn [length].
      replace (Z.of_nat (length full + 1) + 1) with (Z.of_nat (length full) + 2) by lia.
      rewrite (rs_idx _ _ _ _ Hrs). repeat split; [lia|done].
    + intros Hnlt. rewrite bool_decide_eq_false_2 in Hstep by done.
      destruct Hstep as (Hrs' & Hrepo).
      rewrite (rs_store _ _ _ _ Hrs'). cbn [history storage].
      by rewrite fmap_app.
  - by apply files_after_adds.
  - intros HN. unfold w. rewrite files_after_adds by done.
    apply ceil_div_100_101. lia.
  - destruct (rolling_log_state w0 snapshots Hfresh) as (full & cur & Hrs & Heq).
    fold fn w in Hrs.
    exists (full ++ (if cur is [] then [] else [cur])). split; [|split].
    + rewrite (rs_size _ _ _ _ Hrs), length_app. unfold file_count. by destruct cur.
    + intros i c Hic.
      destruct (decide (i < length full)%nat) as [Hlt|Hge].
      * rewrite lookup_app_l in Hic by done. by apply (rs_full_files _ _ _ _ Hrs).
      * rewrite lookup_app_r in Hic by lia.
        destruct cur as [|e cur]; [by rewrite lookup_nil in Hic|].
        destruct (i - length full)%nat as [|k] eqn:Hk; [|by rewrite lookup_cons, lookup_nil in Hic].
        injection Hic as <-. assert (i = length full) as -> by lia.
        by apply (rs_cur_file _ _ _ _ Hrs).
    + rewrite <- Heq. f_equal. rewrite concat_app. f_equal.
      destruct cur; [done|]. cbn. by rewrite app_nil_r.
Qed.

(** C2, amended, on three appends to a fresh log. *)
Lemma rolling_log_files_witness :
  let w0 := Sample.first_run (Sample.constant_server 200) in
  let snapshots := [[Asset 1 (PInt 1000) (PInt 1050) "Fund A"]; []; []] in
  let fn := RollingJSONFileRepository._get_filename (file_repository w0) in
  let N := Z.of_nat (length snapshots) in
  let w := after w0 snapshots in
  fst (adds snapshots w0) = Ok tt
  ∧ (∀ pre snapshot post, snapshots = pre ++ snapshot :: post ->
       let wj := after w0 pre in
       let wj' := after w0 (pre ++ [snapshot]) in
       (length (history (_store wj)) <= 101)%nat
       ∧ (100 < Z.of_nat (length (history (_store wj))) ->
            _last_idx (file_repository wj') = _last_idx (file_repository wj) + 1
            ∧ storage (_store wj') = fn (_last_idx (file_repository wj'))
            ∧ files wj !! storage (_store wj') = None
            ∧ portofolios <$> history (_store wj') = [snapshot])
       ∧ (¬ 100 < Z.of_nat (length (history (_store wj))) ->
            file_repository wj' = file_repository wj
            ∧ storage (_store wj') = storage (_store wj)
            ∧ portofolios <$> history (_store wj')
              = (portofolios <$> history (_store wj)) ++ [snapshot]))
  ∧ Z.of_nat (size (files w)) = ceil_div N 101
  ∧ (N <= 10200 -> Z.abs (Z.of_nat (size (files w)) - ceil_div N 100) <= 1)
  ∧ ∃ chunks : list (list entry),
      length chunks = size (files w)
      ∧ (∀ i c, chunks !! i = Some c -> files w !! fn (Z.of_nat i + 1) = Some c)
      ∧ portofolios <$> concat chunks = snapshots.
Proof.
  intros w0 snapshots.
  apply (rolling_log_files w0 snapshots).
  repeat split; reflexivity.
Defined.

(** * Further properties *)

(** ** Files and their names *)

(** X2: two indices have the same file name only when they are the same
    index, whatever the directory and the prefix. *)
Theorem filename_of_index (r : json_file_repository) (i j : Z) :
  RollingJSONFileRepository._get_filename r i
  = RollingJSONFileRepository._get_filename r j <-> i = j.
Proof.
  split; [apply _get_filename_inj|by intros ->].
Qed.

Lemma set_repo_same (w : World) :
  set_repo
    (FileRepository (directory (file_repository w)) (file_prefix (file_repository w))
       (_last_idx (file_repository w))) w = w.
Proof. by destruct w as [e s sf fl [d p i] st tr]. Qed.

Lemma _get_filename_same_place (r r' : json_file_repository) (i : Z) :
  directory r' = directory r -> file_prefix r' = file_prefix r ->
  RollingJSONFileRepository._get_filename r' i
  = RollingJSONFileRepository._get_filename r i.
Proof.
  intros Hd Hp. unfold RollingJSONFileRepository._get_filename. by rewrite Hd, Hp.
Qed.

(** What [n] calls of [new_file] come to. *)
Lemma new_files_spec (n : nat) :
  ∀ w : World,
    let r := file_repository w in
    new_files n w =
      (Ok ((λ k, RollingJSONFileRepository._get_filename r (_last_idx r + Z.of_nat k))
             <$> seq 1 n),
       set_repo (FileRepository (directory r) (file_prefix r) (_last_idx r + Z.of_nat n)) w).
Proof.
  induction n as [|n IH]; intros w r.
  - cbn [new_files seq fmap list_fmap Z.of_nat]. unfold mret, M_ret.
    rewrite Z.add_0_r. unfold r. by rewrite set_repo_same.
  - cbn [new_files]. unfold mbind at 1, M_bind at 1.
    unfold RollingJSONFileRepository.new_file at 1. fold r.
    cbn [_last_idx]. unfold mbind, M_bind. rewrite IH.
    cbn [file_repository set_repo directory file_prefix _last_idx].
    unfold mret, M_ret. f_equal.
    + f_equal. cbn [seq]. rewrite fmap_cons. f_equal.
      rewrite <- (fmap_S_seq 1 n), <- list_fmap_compose.
      apply list_fmap_ext. intros _ k _. unfold compose.
      unfold RollingJSONFileRepository._get_filename. cbn [directory file_prefix].
      replace (_last_idx r + 1 + Z.of_nat k) with (_last_idx r + Z.of_nat (S k)) by lia. done.
    + unfold set_repo. cbn. do 2 f_equal. lia.
Qed.

(** X3: any number of calls of [new_file] return names that are pairwise
    distinct and distinct from the latest name before them; afterwards
    [get_latest_filename] gives the last name returned; and no file is
    created or changed and nothing is logged. *)
Theorem new_file_names_are_new (w : World) (n : nat) :
  let r := file_repository w in
  let latest := RollingJSONFileRepository._get_filename r (_last_idx r) in
  let w' := snd (new_files n w) in
  ∃ fs : list string,
    fst (new_files n w) = Ok fs
    ∧ length fs = n
    ∧ NoDup (latest :: fs)
    ∧ RollingJSONFileRepository.get_latest_filename w' = (Ok (List.last fs latest), w')
    ∧ files w' = files w
    ∧ trace w' = trace w.
Proof.
  intros r latest w'. unfold w', latest. rewrite new_files_spec. cbn [fst snd].
  fold r.
  eexists. split; [reflexivity|]. split; [by rewrite length_fmap, length_seq|].
  unfold RollingJSONFileRepository.get_latest_filename.
  split; [|split; [|done]].
  - apply NoDup_cons. split.
    + intros (k & Hk & Hin)%list_elem_of_fmap.
      apply _get_filename_inj in Hk. apply elem_of_seq in Hin. lia.
    + apply NoDup_fmap_2_strong; [|apply NoDup_seq].
      intros i j _ _ H. apply _get_filename_inj in H. lia.
  - f_equal. f_equal.
    cbn [file_repository set_repo _last_idx].
    rewrite (_get_filename_same_place r) by done.
    destruct n as [|n]; [cbn; by rewrite Z.add_0_r|].
    rewrite seq_S, fmap_app. cbn [fmap list_fmap]. by rewrite List.last_last.
Qed.

(** ** The scan of the history directory *)

Lemma split_length (c : ascii) (s : string) :
  length (Str.split c s) = S (count_char c s).
Proof.
  induction s as [|a s IH]; [done|].
  cbn [Str.split count_char]. destruct (Ascii.eqb a c); cbn [length].
  - by rewrite IH.
  - destruct (Str.split c s); cbn in *; lia.
Qed.

Lemma repository_only_refl (w : World) : repository_only w w.
Proof. by repeat split. Qed.

Lemma repository_only_trans (w1 w2 w3 : World) :
  repository_only w1 w2 -> repository_only w2 w3 -> repository_only w1 w3.
Proof.
  intros (?&?&?&?&?&?&?&?) (?&?&?&?&?&?&?&?). repeat split; congruence.
Qed.

Lemma scan_file_repository_only (f : string) (w : World) :
  repository_only w (snd (RollingJSONFileRepository.scan_file f w)).
Proof.
  unfold RollingJSONFileRepository.scan_file.
  destruct (Str.split "." f) as [|a [|b [|c [|d l]]]];
    try apply repository_only_refl.
  unfold RollingJSONFileRepository.set_last_idx. run_m.
  destruct (int_of_str (env w) b) as [i|e]; cbn [snd];
    [|apply repository_only_refl].
  destruct (_last_idx (file_repository w) <? i); cbn [snd];
    [by repeat split|apply repository_only_refl].
Qed.

Lemma scan_files_repository_only (fs : list string) :
  ∀ w, repository_only w (snd (RollingJSONFileRepository.scan_files fs w)).
Proof.
  induction fs as [|f fs IH]; intros w; [apply repository_only_refl|].
  cbn [RollingJSONFileRepository.scan_files]. unfold mbind, M_bind.
  pose proof (scan_file_repository_only f w) as Hf.
  destruct (RollingJSONFileRepository.scan_file f w) as [[[]|e] w1]; cbn [snd] in *;
    [|done].
  eapply repository_only_trans; [exact Hf|apply IH].
Qed.

(** A name that parses moves [_last_idx] up to its index, if that is
    larger. *)
Lemma scan_file_parsed (w : World) (f a b c : string) (i : Z) :
  Str.split "." f = [a; b; c] ->
  int_of_str (env w) b = Ok i ->
  RollingJSONFileRepository.scan_file f w =
    (Ok tt, snd (RollingJSONFileRepository.set_last_idx
                   (Z.max (_last_idx (file_repository w)) i) w)).
Proof.
  intros Hs Hi. unfold RollingJSONFileRepository.scan_file. rewrite Hs.
  unfold RollingJSONFileRepository.set_last_idx. run_m. rewrite Hi.
  destruct (Z.ltb_spec (_last_idx (file_repository w)) i).
  - by rewrite Z.max_r by lia.
  - rewrite Z.max_l by lia. by rewrite set_repo_same.
Qed.

Lemma scan_files_parsed (listing : list string) :
  ∀ (w : World) (idxs : list Z),
    parses_to w listing idxs ->
    RollingJSONFileRepository.scan_files listing w =
      (Ok tt, snd (RollingJSONFileRepository.set_last_idx
                     (foldl Z.max (_last_idx (file_repository w)) idxs) w)).
Proof.
  induction listing as [|f listing IH]; intros w idxs Hp.
  - apply Forall2_nil_inv_l in Hp as ->. cbn.
    unfold RollingJSONFileRepository.set_last_idx, modify, mret, M_ret. cbn [snd].
    by rewrite set_repo_same.
  - apply Forall2_cons_inv_l in Hp as (i & idxs' & (a & b & c & Hs & Hi) & Hp & ->).
    cbn [RollingJSONFileRepository.scan_files foldl].
    rewrite (bind_ok _ _ _ _ _ (scan_file_parsed w f a b c i Hs Hi)).
    rewrite (IH _ idxs'); [done|].
    eapply Forall2_impl; [exact Hp|]. done.
Qed.

(** X4: on a listing whose names all parse, [init] leaves [_last_idx] at the
    largest index listed, and at 1 when none is larger; the prefix and the
    extension of the names play no part; nothing else changes. *)
Theorem init_finds_latest_index (w : World) (listing : list string) (idxs : list Z) :
  parses_to w listing idxs ->
  let r := file_repository w in
  RollingJSONFileRepository.init listing w =
    (Ok tt, set_repo (FileRepository (directory r) (file_prefix r) (foldl Z.max 1 idxs)) w)
  ∧ 1 <= foldl Z.max 1 idxs
  ∧ (∀ i, i ∈ idxs -> i <= foldl Z.max 1 idxs)
  ∧ (foldl Z.max 1 idxs = 1 ∨ foldl Z.max 1 idxs ∈ idxs).
Proof.
  intros Hp r. split.
  - unfold RollingJSONFileRepository.init.
    unfold mbind, M_bind. unfold RollingJSONFileRepository.set_last_idx at 1, modify.
    rewrite (scan_files_parsed listing _ idxs) by exact Hp.
    done.
  - clear Hp.
    assert (∀ idxs m, m <= foldl Z.max m idxs
              ∧ (∀ i, i ∈ idxs -> i <= foldl Z.max m idxs)
              ∧ (foldl Z.max m idxs = m ∨ foldl Z.max m idxs ∈ idxs)) as H.
    { clear. induction idxs as [|j idxs IH]; intros m; cbn [foldl].
      - split; [lia|]. split; [|by left]. intros i Hi. by apply elem_of_nil in Hi.
      - destruct (IH (Z.max m j)) as (H1 & H2 & H3). split; [lia|]. split.
        + intros i [->|Hi]%elem_of_cons; [lia|by apply H2].
        + destruct H3 as [H3|H3].
          * rewrite H3. destruct (Z.max_spec m j) as [[_ ->]|[_ ->]];
              [right; by left|by left].
          * right. by right. }
    apply (H idxs 1).
Qed.

(** X4, on a directory that holds the first history file and a file of
    another program. *)
Lemma init_finds_latest_index_witness :
  let w := Scenario.first_run (Sample.constant_server 200) in
  let r := file_repository w in
  RollingJSONFileRepository.init ["history.1.json"; "notes.12.txt"] w =
    (Ok tt, set_repo (FileRepository (directory r) (file_prefix r) 12) w)
  ∧ 1 <= 12
  ∧ (∀ i, i ∈ [1; 12] -> i <= 12)
  ∧ (12 = 1 ∨ 12 ∈ [1; 12]).
Proof.
  intros w.
  apply (init_finds_latest_index w ["history.1.json"; "notes.12.txt"] [1; 12]).
  repeat constructor.
  - exists "history", "1", "json". split; reflexivity.
  - exists "notes", "12", "txt". split; reflexivity.
Defined.

Lemma scan_file_stray (w : World) (f : string) :
  count_char "." f ≠ 2%nat ->
  RollingJSONFileRepository.scan_file f w = (Raise ValueError, w).
Proof.
  intros Hc. unfold RollingJSONFileRepository.scan_file.
  pose proof (split_length "." f) as Hl.
  destruct (Str.split "." f) as [|a [|b [|c [|d l]]]]; try done.
  cbn in Hl. lia.
Qed.

Lemma scan_file_error (w : World) (f : string) (e : exn) :
  (∀ s e, int_of_str (env w) s = Raise e -> e = ValueError) ->
  fst (RollingJSONFileRepository.scan_file f w) = Raise e -> e = ValueError.
Proof.
  intros Hint. unfold RollingJSONFileRepository.scan_file.
  destruct (Str.split "." f) as [|a [|b [|c [|d l]]]]; try by intros [= <-].
  unfold RollingJSONFileRepository.set_last_idx. run_m.
  destruct (int_of_str (env w) b) as [i|e'] eqn:Hi.
  - by destruct (_last_idx (file_repository w) <? i).
  - intros [= <-]. by eapply Hint.
Qed.

Lemma scan_files_stray (listing : list string) (f : string) :
  f ∈ listing ->
  count_char "." f ≠ 2%nat ->
  ∀ w, (∀ s e, int_of_str (env w) s = Raise e -> e = ValueError) ->
    fst (RollingJSONFileRepository.scan_files listing w) = Raise ValueError.
Proof.
  intros Hin Hc. induction listing as [|g listing IH]; intros w Hint.
  - by apply elem_of_nil in Hin.
  - cbn [RollingJSONFileRepository.scan_files]. unfold mbind, M_bind.
    pose proof (scan_file_error w g) as He.
    pose proof (scan_file_repository_only g w) as Hro.
    destruct (RollingJSONFileRepository.scan_file g w) as [[[]|e] w1] eqn:Hg;
      cbn [fst snd] in *.
    + apply elem_of_cons in Hin as [->|Hin].
      * rewrite scan_file_stray in Hg by done. discriminate.
      * apply IH; [done|]. destruct Hro as (-> & _). done.
    + f_equal. by apply He.
Qed.

(** X5: when some name in the directory does not have exactly two dots,
    [init] raises [ValueError] (the builtin [int] raising nothing else), and
    the files, the loaded history, the secrets and the trace are as they
    were. *)
Theorem init_stops_on_stray_file (w : World) (listing : list string) (f : string) :
  f ∈ listing ->
  count_char "." f ≠ 2%nat ->
  (∀ s e, int_of_str (env w) s = Raise e -> e = ValueError) ->
  fst (RollingJSONFileRepository.init listing w) = Raise ValueError
  ∧ repository_only w (snd (RollingJSONFileRepository.init listing w)).
Proof.
  intros Hin Hc Hint. unfold RollingJSONFileRepository.init.
  unfold mbind, M_bind, RollingJSONFileRepository.set_last_idx, modify.
  set (w1 := set_repo _ w).
  pose proof (scan_files_stray listing f Hin Hc w1 Hint) as Hs.
  pose proof (scan_files_repository_only listing w1) as Hro.
  destruct (RollingJSONFileRepository.scan_files listing w1) as [[[]|e] w2];
    cbn [fst snd] in *; [discriminate|].
  split; [done|].
  eapply repository_only_trans; [|exact Hro]. by repeat split.
Qed.

Lemma decimal_raises_ValueError (s : string) (e : exn) :
  Scenario.decimal s = Raise e -> e = ValueError.
Proof.
  unfold Scenario.decimal. destruct s as [|a s]; [by intros [= <-]|].
  generalize 0. generalize (String a s). clear.
  intros s. induction s as [|a s IH]; intros acc; cbn; [done|].
  destruct (Ascii.is_nat a); [apply IH|by intros [= <-]].
Qed.

(** X5, on a directory with a [.DS_Store] next to the first history file. *)
Lemma init_stops_on_stray_file_witness :
  let w := Scenario.first_run (Sample.constant_server 200) in
  let listing := ["history.1.json"; ".DS_Store"] in
  fst (RollingJSONFileRepository.init listing w) = Raise ValueError
  ∧ repository_only w (snd (RollingJSONFileRepository.init listing w)).
Proof.
  intros w listing.
  apply (init_stops_on_stray_file w listing ".DS_Store").
  - constructor 2. constructor 1.
  - vm_compute. lia.
  - apply decimal_raises_ValueError.
Defined.

(** ** The history store across calls and restarts *)

(** X6: after [add] on the rolling store, whether it rolled over or not,
    [get_last] returns the snapshot just added, the file of the active store
    holds the loaded history, no other file has changed, and the secrets are
    as they were. *)
Theorem add_then_get_last (w : World) (snapshot : list asset) :
  let w' := snd (RollingPortofolioHistoryStore.add snapshot w) in
  let f := storage (_store w') in
  fst (RollingPortofolioHistoryStore.add snapshot w) = Ok tt
  ∧ RollingPortofolioHistoryStore.get_last w' = (Ok snapshot, w')
  ∧ files w' !! f = Some (history (_store w'))
  ∧ delete f (files w') = delete f (files w)
  ∧ secret_storage w' = secret_storage w
  ∧ secrets_file w' = secrets_file w.
Proof.
  intros w' f. unfold f, w'. rewrite add_spec.
  unfold RollingPortofolioHistoryStore.get_last. rewrite get_last_spec.
  unfold PortofolioHistoryStore.last_snapshot.
  case_bool_decide; cbn [fst snd _store history storage files secret_storage secrets_file];
    rewrite last_snoc, lookup_insert_eq, delete_insert_eq; done.
Qed.

Lemma count_char_app (c : ascii) (s t : string) :
  count_char c (s +:+ t) = (count_char c s + count_char c t)%nat.
Proof.
  induction s as [|a s IH]; [done|].
  change (String a s +:+ t) with (String a (s +:+ t)). cbn [count_char].
  rewrite IH. lia.
Qed.

Lemma split_no_sep (c : ascii) (s : string) :
  count_char c s = 0%nat -> Str.split c s = [s].
Proof.
  induction s as [|a s IH]; [done|]. cbn [count_char Str.split].
  destruct (Ascii.eqb a c); [done|]. intros H. by rewrite IH.
Qed.

Lemma split_app_sep (c : ascii) (a rest : string) :
  count_char c a = 0%nat ->
  Str.split c (a +:+ String c rest) = a :: Str.split c rest.
Proof.
  induction a as [|x a IH].
  - intros _. change ("" +:+ String c rest) with (String c rest).
    cbn [Str.split]. by rewrite Ascii.eqb_refl.
  - change (String x a +:+ String c rest) with (String x (a +:+ String c rest)).
    cbn [count_char Str.split]. destruct (Ascii.eqb x c); [done|].
    intros H. by rewrite IH.
Qed.

Lemma pretty_N_go_no_dot (x : N) :
  ∀ s, count_char "." (pretty_N_go x s) = count_char "." s.
Proof.
  induction (N.lt_wf_0 x) as [x _ IH]. intros s.
  destruct (decide (x = 0)%N) as [->|Hx]; [by rewrite pretty_N_go_0|].
  rewrite pretty_N_go_step by lia.
  rewrite IH by (apply N.div_lt; lia).
  cbn [count_char]. unfold pretty_N_char. by repeat case_match.
Qed.

Lemma pretty_Z_no_dot (i : Z) : count_char "." (pretty i) = 0%nat.
Proof.
  destruct i as [|p|p]; [done|..].
  - unfold pretty, pretty_Z, pretty, pretty_positive, pretty, pretty_N.
    case_decide; [done|]. by rewrite pretty_N_go_no_dot.
  - unfold pretty, pretty_Z. rewrite count_char_app.
    unfold pretty, pretty_positive, pretty, pretty_N.
    case_decide; [done|]. by rewrite pretty_N_go_no_dot.
Qed.

(** A history file's name splits into the prefix, the index and [json]. *)
Lemma split_basename (file_prefix : string) (i : Z) :
  count_char "." file_prefix = 0%nat ->
  Str.split "." (basename file_prefix i) = [file_prefix; pretty i; "json"].
Proof.
  intros Hp. unfold basename.
  change (file_prefix +:+ "." +:+ pretty i +:+ ".json")
    with (file_prefix +:+ String "." (pretty i +:+ String "." "json")).
  rewrite split_app_sep by done. rewrite split_app_sep by apply pretty_Z_no_dot.
  by rewrite split_no_sep.
Qed.

Lemma foldl_max_spec (idxs : list Z) :
  ∀ m, m <= foldl Z.max m idxs
       ∧ (∀ i, i ∈ idxs -> i <= foldl Z.max m idxs)
       ∧ (foldl Z.max m idxs = m ∨ foldl Z.max m idxs ∈ idxs).
Proof.
  induction idxs as [|j idxs IH]; intros m; cbn [foldl].
  - split; [lia|]. split; [|by left]. intros i Hi. by apply elem_of_nil in Hi.
  - destruct (IH (Z.max m j)) as (H1 & H2 & H3). split; [lia|]. split.
    + intros i [->|Hi]%elem_of_cons; [lia|by apply H2].
    + destruct H3 as [H3|H3].
      * rewrite H3. destruct (Z.max_spec m j) as [[_ ->]|[_ ->]];
          [right; by left|by left].
      * right. by right.
Qed.

(** Starting the store again on the files a log has written brings back the
    state the log was left in, whatever is in memory before. *)
Lemma restart_rolling_state (fn : Z -> string) (w : World) (full : list (list entry))
    (cur : list entry) (pre : string) (idxs : list Z) (idx : Z) (st : history_store) :
  rolling_state fn w full cur ->
  count_char "." pre = 0%nat ->
  idxs ≡ₚ seqZ 1 (Z.of_nat (size (files w))) ->
  (∀ i, i ∈ idxs -> int_of_str (env w) (pretty i) = Ok i) ->
  new_rolling_portofolio_history_store (basename pre <$> idxs) (restarted idx st w)
  = (Ok tt, w).
Proof.
  intros Hrs Hp Hperm Hint.
  assert (Hparse : ∀ w', env w' = env w -> parses_to w' (basename pre <$> idxs) idxs).
  { intros w' Henv. unfold parses_to.
    apply Forall2_fmap_l, Forall_Forall2_diag, Forall_forall.
    intros i Hi. exists pre, (pretty i), "json".
    split; [by apply split_basename|]. rewrite Henv. by apply Hint. }
  assert (Hmax : foldl Z.max 1 idxs = _last_idx (file_repository w)).
  { rewrite (rs_idx _ _ _ _ Hrs).
    destruct (foldl_max_spec idxs 1) as (H1 & H2 & H3).
    assert (Hin : ∀ i, i ∈ idxs <-> 1 <= i <= Z.of_nat (file_count full cur)).
    { intros i. rewrite Hperm, elem_of_seqZ, (rs_size _ _ _ _ Hrs). lia. }
    pose proof (rs_first _ _ _ _ Hrs) as Hfirst.
    unfold file_count in Hin. destruct cur as [|e cur].
    - rewrite Hfirst in * by done. cbn in *.
      destruct H3 as [H3|H3]; [lia|]. apply Hin in H3. lia.
    - assert (Z.of_nat (length full) + 1 ∈ idxs) as Hk by (apply Hin; lia).
      apply H2 in Hk. destruct H3 as [H3|H3]; [lia|]. apply Hin in H3. lia. }
  unfold new_rolling_portofolio_history_store, RollingJSONFileRepository.init.
  unfold mbind at 2, M_bind at 2.
  unfold RollingJSONFileRepository.set_last_idx at 1, modify.
  unfold mbind at 1, M_bind at 1.
  rewrite (scan_files_parsed _ _ idxs) by (by apply Hparse).
  unfold restarted.
  cbn [snd set_repo set_store file_repository _last_idx
       RollingJSONFileRepository.set_last_idx modify directory file_prefix].
  unfold RollingJSONFileRepository.set_last_idx, modify. cbn [snd].
  cbn [set_repo set_store file_repository env secret_storage secrets_file files _store
       trace directory file_prefix _last_idx].
  rewrite Hmax.
  unfold RollingPortofolioHistoryStore.init, RollingJSONFileRepository.get_latest_filename,
    RollingPortofolioHistoryStore._init_inner_store, PortofolioHistoryStore.init,
    PortofolioHistoryStore.set_history, JSONFileStorage.load.
  run_m. cbn [set_store set_repo _store storage files file_repository _last_idx].
  rewrite (rs_names _ _ _ _ Hrs
             (FileRepository (directory (file_repository w))
                (file_prefix (file_repository w)) (_last_idx (file_repository w)))
             eq_refl eq_refl).
  pose proof (rs_store _ _ _ _ Hrs) as Hst.
  pose proof (rs_idx _ _ _ _ Hrs) as Hidx.
  rewrite <- Hidx in Hst.
  destruct cur as [|e cur].
  - assert (files w !! fn (_last_idx (file_repository w)) = None) as ->.
    { destruct (files w !! _) as [h|] eqn:Hl; [|done].
      destruct (rs_no_other _ _ _ _ Hrs _ (mk_is_Some _ _ Hl)) as (i & Hi & Heq).
      apply (fn_inj _ _ _ _ Hrs) in Heq. unfold file_count in Hi. lia. }
    cbn. f_equal. rewrite <- Hst. by destruct w as [? ? ? ? [? ? ?] ? ?].
  - assert (files w !! fn (_last_idx (file_repository w)) = Some (e :: cur)) as ->.
    { rewrite Hidx. by apply (rs_cur_file _ _ _ _ Hrs). }
    cbn. f_equal. rewrite <- Hst. by destruct w as [? ? ? ? [? ? ?] ? ?].
Qed.

(** X8: after any appends to a fresh log, a process that starts again on
    the directory as it then is (the names of the files written, in whatever
    order, the prefix without a dot, the builtin [int] reading the indices)
    rebuilds, from whatever index and store it has in memory, the index, the
    active file and the loaded history the log was left with. *)
Theorem restart_resumes (w0 : World) (snapshots : list (list asset)) (idxs : list Z)
    (idx : Z) (st : history_store) :
  fresh w0 ->
  let w := after w0 snapshots in
  let pre := file_prefix (file_repository w0) in
  count_char "." pre = 0%nat ->
  idxs ≡ₚ seqZ 1 (Z.of_nat (size (files w))) ->
  (∀ i, i ∈ idxs -> int_of_str (env w) (pretty i) = Ok i) ->
  new_rolling_portofolio_history_store (basename pre <$> idxs) (restarted idx st w)
  = (Ok tt, w).
Proof.
  intros Hfresh w pre Hp Hperm Hint.
  destruct (rolling_log_state w0 snapshots Hfresh) as (full & cur & Hrs & _).
  by eapply restart_rolling_state.
Qed.

(** X8, on a log of 102 appends, which has written two files, and a
    process that starts with a stale index and a stale store in memory. *)
Lemma restart_resumes_witness :
  let w := after (Scenario.first_run (Sample.constant_server 200)) (replicate 102 []) in
  let stale := HistoryStore "/tmp/stale.json" [Entry 0 [Scenario.fund_a]] in
  _last_idx (file_repository (restarted 77 stale w)) = 77
  ∧ _store (restarted 77 stale w) = stale
  ∧ _last_idx (file_repository w) = 2
  ∧ length (history (_store w)) = 1%nat
  ∧ new_rolling_portofolio_history_store ["history.2.json"; "history.1.json"]
      (restarted 77 stale w) = (Ok tt, w).
Proof.
  intros w stale.
  split; [reflexivity|]. split; [reflexivity|].
  split; [reflexivity|]. split; [reflexivity|].
  apply (restart_resumes (Scenario.first_run (Sample.constant_server 200))
           (replicate 102 []) [2; 1] 77 stale).
  - repeat split; reflexivity.
  - reflexivity.
  - vm_compute. apply Permutation_swap.
  - intros i Hi. apply elem_of_cons in Hi as [->|Hi]; [reflexivity|].
    apply list_elem_of_singleton in Hi as ->. reflexivity.
Defined.

(** ** More on the authenticated client *)

(** X9: a first answer of 200 is returned as it is: one call is made, and
    neither the secrets nor anything else changes. *)
Theorem request_first_200 (w : World) (method url : string) (data : json)
    (res : response) :
  let req := BibitAPI.build_request (secret_storage w) method url data in
  server (env w) (trace w) req = Ok res ->
  status_code res = 200 ->
  BibitAPI.request method url data w = (Ok (Some res), log (EvRequest req (Ok res)) w).
Proof.
  intros req Hres H200. unfold BibitAPI.request.
  erewrite bind_ok; last by (rewrite _request_allow_fail; fold req; rewrite Hres).
  by rewrite H200.
Qed.

(** X9, on a server that serves an empty portfolio. *)
Lemma request_first_200_witness :
  let pf := Sample.portfolio_body [] in
  let w := Sample.first_run (Sample.serving pf) in
  BibitAPI.request "get" "/portfolio" (JDict []) w =
    (Ok (Some (Response 200 (Some pf))),
     log (EvRequest (BibitAPI.build_request Sample.old_secrets "get" "/portfolio" (JDict []))
            (Ok (Response 200 (Some pf)))) w).
Proof.
  intros pf w.
  apply (request_first_200 w "get" "/portfolio" (JDict []) (Response 200 (Some pf)));
    reflexivity.
Defined.

(** X10: a first call that fails in transport, or is answered with an error
    status other than 401, raises at once: that one call is all that
    happened, with no refresh, no retry and the secrets untouched. *)
Theorem request_first_failure (w : World) (method url : string) (data : json) :
  let req := BibitAPI.build_request (secret_storage w) method url data in
  let answer := server (env w) (trace w) req in
  (∀ e, answer = Raise e ->
     BibitAPI.request method url data w = (Raise e, log (EvRequest req answer) w))
  ∧ (∀ res, answer = Ok res ->
       400 <= status_code res < 600 ->
       status_code res ≠ 401 ->
       BibitAPI.request method url data w
       = (Raise (HTTPError (status_code res)), log (EvRequest req answer) w)).
Proof.
  intros req answer. split.
  - intros e He. unfold BibitAPI.request.
    rewrite (bind_raise _ _ w (log (EvRequest req answer) w) e); [done|].
    rewrite _request_allow_fail. fold req answer. by rewrite He.
  - intros res Hres Herr H401. unfold BibitAPI.request. rewrite Hres.
    erewrite bind_ok; last by (rewrite _request_allow_fail; fold req answer; rewrite Hres).
    destruct (Z.eqb_spec (status_code res) 200) as [|_]; [lia|].
    destruct (Z.eqb_spec (status_code res) 401) as [|_]; [done|].
    run_m. by rewrite raise_for_status_error.
Qed.

(** X10, on a server that answers 503 and on a network that is down. *)
Lemma request_first_failure_witness :
  let w := Sample.first_run (Sample.constant_server 503) in
  let w' := Sample.first_run (fun _ _ => Raise ConnectionError) in
  let req := BibitAPI.build_request Sample.old_secrets "get" "/portfolio" (JDict []) in
  BibitAPI.request "get" "/portfolio" (JDict []) w' =
    (Raise ConnectionError, log (EvRequest req (Raise ConnectionError)) w')
  ∧ BibitAPI.request "get" "/portfolio" (JDict []) w =
      (Raise (HTTPError 503), log (EvRequest req (Ok (Response 503 None))) w).
Proof.
  intros w w' req. split.
  - apply (proj1 (request_first_failure w' "get" "/portfolio" (JDict []))). reflexivity.
  - apply (proj2 (request_first_failure w "get" "/portfolio" (JDict []))
             (Response 503 None)); [reflexivity|cbn; lia|cbn; lia].
Defined.

(** The two ways [_refresh_token] can end.  Either it succeeds, having made
    one call and one save; or it raises, having made one call and no save,
    with the refresh token as it was.  The Telegram credentials are never
    touched. *)
Lemma _refresh_token_cases (w : World) :
  let s := secret_storage w in
  let req := BibitAPI.refresh_request s in
  let answer := server (env w) (trace w) req in
  let w' := snd (BibitAPI._refresh_token w) in
  telegram_token (secret_storage w') = telegram_token s
  ∧ telegram_chat_id (secret_storage w') = telegram_chat_id s
  ∧ ((fst (BibitAPI._refresh_token w) = Ok tt
      ∧ trace w' = trace w ++ [EvRequest req answer; EvSecretsDump (secret_storage w')]
      ∧ secrets_file w' = Some (secret_storage w'))
     ∨ (∃ e, fst (BibitAPI._refresh_token w) = Raise e
           ∧ trace w' = trace w ++ [EvRequest req answer]
           ∧ secrets_file w' = secrets_file w
           ∧ refresh_token (secret_storage w') = refresh_token s)).
Proof.
  intros s req answer w'. unfold w'.
  unfold BibitAPI._refresh_token, BibitAPI.set_access_token,
    BibitAPI.set_refresh_token, SecretStore.save. run_m.
  rewrite _request_spec. cbn. fold s.
  change (BibitAPI.build_request _ _ _ _) with req. fold answer.
  destruct answer as [res|e]; cbn; [|repeat split; right; by exists e].
  destruct (raise_for_status res) as [[]|e]; cbn; [|repeat split; right; by exists e].
  destruct (response_json res) as [j|e]; cbn; [|repeat split; right; by exists e].
  destruct (py_getitem j "data") as [d|e]; cbn; [|repeat split; right; by exists e].
  destruct (py_getitem d "token") as [token|e]; cbn; [|repeat split; right; by exists e].
  destruct (py_getitem token "access_token") as [a|e]; cbn;
    [|repeat split; right; by exists e].
  destruct (py_getitem token "refresh_token") as [r|e]; cbn;
    [|repeat split; right; by exists e].
  repeat split. left. by rewrite <- app_assoc.
Qed.

(** X11: a refresh that raises, for whatever reason, has made its one call
    and nothing else: the secrets file is not written, and the refresh
    token and the Telegram credentials in memory are as they were. *)
Theorem failed_refresh_saves_nothing (w : World) (e : exn) :
  fst (BibitAPI._refresh_token w) = Raise e ->
  let s := secret_storage w in
  let w' := snd (BibitAPI._refresh_token w) in
  trace w' = trace w ++ [EvRequest (BibitAPI.refresh_request s)
                           (server (env w) (trace w) (BibitAPI.refresh_request s))]
  ∧ secrets_file w' = secrets_file w
  ∧ refresh_token (secret_storage w') = refresh_token s
  ∧ telegram_token (secret_storage w') = telegram_token s
  ∧ telegram_chat_id (secret_storage w') = telegram_chat_id s.
Proof.
  intros He s w'.
  destruct (_refresh_token_cases w) as (Htt & Htc & [(Hok & _)|(e' & _ & Ht & Hf & Hr)]).
  - rewrite He in Hok. discriminate.
  - done.
Qed.

(** X11, on a server whose refresh answer carries no token. *)
Lemma failed_refresh_saves_nothing_witness :
  let w := Sample.first_run (Sample.serving (JDict [("data", JDict [])])) in
  let w' := snd (BibitAPI._refresh_token w) in
  trace w' = trace w ++ [EvRequest (BibitAPI.refresh_request (secret_storage w))
                           (server (env w) (trace w)
                              (BibitAPI.refresh_request (secret_storage w)))]
  ∧ secrets_file w' = secrets_file w
  ∧ refresh_token (secret_storage w') = refresh_token (secret_storage w)
  ∧ telegram_token (secret_storage w') = telegram_token (secret_storage w)
  ∧ telegram_chat_id (secret_storage w') = telegram_chat_id (secret_storage w).
Proof.
  intros w.
  apply (failed_refresh_saves_nothing w (KeyError "token")). reflexivity.
Defined.

(** X12: whatever the server answers, one [request] makes at most three
    calls and at most one save of the secrets, does nothing else to the
    outside, and leaves the history files, the loaded history, the file
    repository and the Telegram credentials as they were. *)
Theorem request_is_bounded (w : World) (method url : string) (data : json) :
  let w' := snd (BibitAPI.request method url data w) in
  (∃ evs : list event,
     trace w' = trace w ++ evs
     ∧ forallb is_client_event evs = true
     ∧ (length (List.filter is_request evs) <= 3)%nat
     ∧ (length (List.filter is_secrets_dump evs) <= 1)%nat)
  ∧ files w' = files w
  ∧ _store w' = _store w
  ∧ file_repository w' = file_repository w
  ∧ telegram_token (secret_storage w') = telegram_token (secret_storage w)
  ∧ telegram_chat_id (secret_storage w') = telegram_chat_id (secret_storage w).
Proof.
  intros w'. assert (w' = snd (BibitAPI.request method url data w)) as Hw' by done.
  clearbody w'. revert Hw'. unfold BibitAPI.request.
  unfold mbind at 1, M_bind at 1. rewrite _request_allow_fail.
  set (req := BibitAPI.build_request _ _ _ _).
  set (answer := server _ _ req).
  set (w1 := log (EvRequest req answer) w).
  assert (trace w1 = trace w ++ [EvRequest req answer]) as Ht1 by done.
  destruct answer as [res|e]; cbn [snd].
  2: { intros ->. split; [exists [EvRequest req (Raise e)]; cbn; repeat split; lia|done]. }
  destruct (status_code res =? 200); cbn [snd].
  { intros ->. split; [exists [EvRequest req (Ok res)]; cbn; repeat split; lia|done]. }
  destruct (status_code res =? 401); cbn [snd].
  2: { run_m. destruct (raise_for_status res) as [[]|e]; cbn [snd]; intros ->;
       (split; [exists [EvRequest req (Ok res)]; cbn; repeat split; lia|done]). }
  unfold mbind at 1, M_bind at 1.
  pose proof (_refresh_token_cases w1) as (Htt & Htc & Hcases).
  pose proof (client__refresh_token w1) as (_ & Hf & Hr & Hs & _).
  destruct (BibitAPI._refresh_token w1) as [[[]|e] w2]; cbn [fst snd] in *.
  - destruct Hcases as [(_ & Ht & _)|(e & He & _)]; [|discriminate].
    unfold mbind, M_bind. rewrite _request_allow_fail.
    set (req3 := BibitAPI.build_request _ _ _ _).
    set (answer3 := server _ _ req3).
    destruct answer3 as [res3|e3]; cbn [lift snd]; intros ->; cbn.
    all: (split; [eexists; split;
            [rewrite Ht, Ht1, <- !app_assoc; reflexivity|cbn; repeat split; lia]
          |by rewrite Htt, Htc, Hf, Hs, Hr]).
  - destruct Hcases as [(Hok & _)|(e' & _ & Ht & _)]; [discriminate|].
    intros ->.
    split; [eexists; split; [rewrite Ht, Ht1, <- app_assoc; reflexivity
                            |cbn; repeat split; lia]
           |by rewrite Htt, Htc, Hf, Hs, Hr].
Qed.

(** ** The text sent to Telegram *)

Lemma replace_char_cons (c a : ascii) (new s : string) :
  Str.replace_char c new (String a s) =
    if Ascii.eqb a c then new +:+ Str.replace_char c new s
    else String a (Str.replace_char c new s).
Proof. done. Qed.

(** The five passes of [escape], seen at the first character of the text:
    no pass touches what an earlier pass has put in. *)
Lemma escape_cons (a : ascii) (s : string) :
  TelegramAPI.escape (String a s) =
    if is_reserved a then String "\" (String a (TelegramAPI.escape s))
    else String a (TelegramAPI.escape s).
Proof.
  unfold TelegramAPI.escape, is_reserved, TelegramAPI.to_replace.
  cbn [foldl existsb].
  rewrite (replace_char_cons "." a).
  destruct (Ascii.eqb_spec a ".") as [->|H1]; [by cbv [String.append]; cbn|].
  rewrite (replace_char_cons "[" a).
  destruct (Ascii.eqb_spec a "[") as [->|H2]; [by cbv [String.append]; cbn|].
  rewrite (replace_char_cons "]" a).
  destruct (Ascii.eqb_spec a "]") as [->|H3]; [by cbv [String.append]; cbn|].
  rewrite (replace_char_cons "-" a).
  destruct (Ascii.eqb_spec a "-") as [->|H4]; [by cbv [String.append]; cbn|].
  rewrite (replace_char_cons "|" a).
  destruct (Ascii.eqb_spec a "|") as [->|H5]; [by cbv [String.append]; cbn|].
  cbn [orb]. done.
Qed.

(** X13: the text [send_message] posts is the content with one backslash
    put before each occurrence of [.], [[], []], [-] and [|], and nothing
    else changed: the five replacements do not act on each other's output,
    and a backslash of the content is left alone. *)
Theorem escape_one_backslash_each (content : string) :
  TelegramAPI.escape content = escape_each content.
Proof.
  induction content as [|a s IH]; [done|].
  rewrite escape_cons. cbn [escape_each]. by rewrite IH.
Qed.

(** An escaped text never starts with a reserved character. *)
Lemma escape_head (s : string) :
  match TelegramAPI.escape s with
  | String b _ => is_reserved b = false
  | EmptyString => True
  end.
Proof.
  destruct s as [|a s]; [done|]. rewrite escape_cons.
  by destruct (is_reserved a) eqn:Ha.
Qed.

Lemma escape_empty (s : string) : TelegramAPI.escape s = "" -> s = "".
Proof.
  destruct s as [|a s]; [done|]. rewrite escape_cons.
  by destruct (is_reserved a).
Qed.

(** Dropping the backslashes that stand before reserved characters gives
    the content back. *)
Lemma unescape_escape (s : string) : unescape (TelegramAPI.escape s) = s.
Proof.
  induction s as [|a s IH]; [done|].
  rewrite escape_cons. destruct (is_reserved a) eqn:Ha.
  - cbn [unescape]. change (Ascii.eqb "\" "\") with true. cbn [andb].
    by rewrite Ha, IH.
  - pose proof (escape_head s) as Hhead. pose proof (escape_empty s) as Hempty.
    cbn [unescape]. destruct (TelegramAPI.escape s) as [|b t].
    + by rewrite Hempty.
    + rewrite Hhead, andb_false_r. by rewrite IH.
Qed.

(** X14: escaping loses nothing: two contents are posted as the same text
    only when they are the same content. *)
Theorem escape_injective (s t : string) :
  TelegramAPI.escape s = TelegramAPI.escape t <-> s = t.
Proof.
  split; [|by intros ->].
  intros H. rewrite <- (unescape_escape s), <- (unescape_escape t). by rewrite H.
Qed.

(** What [send_message] comes to: one post of the escaped text with the
    stored credentials, logged, raised when it fails in transport or is
    answered with an error status. *)
Lemma send_message_spec (w : World) (content : string) :
  let s := secret_storage w in
  let safe_msg := TelegramAPI.escape content in
  let answer := telegram (env w) (trace w) (telegram_token s) (telegram_chat_id s)
                  safe_msg in
  TelegramAPI.send_message content w =
    (res ← answer; raise_for_status res,
     log (EvTelegram (telegram_token s) (telegram_chat_id s) safe_msg answer) w).
Proof.
  intros s safe_msg answer. unfold TelegramAPI.send_message. run_m.
  fold s safe_msg answer. by destruct answer.
Qed.

(** ** More on a run of the job *)

(** X15: an answer to the portfolio call that is neither 200 nor an error
    status, a 204 say, ends the run with [AttributeError]: [request] has
    returned [None], on which [get_portofolio] calls [json()].  That one
    call is all that happened. *)
Theorem run_on_answer_without_body (w : World) (res : response) :
  let req := BibitAPI.build_request (secret_storage w) "GET" "/portfolio" (JDict []) in
  server (env w) (trace w) req = Ok res ->
  status_code res ≠ 200 ->
  status_code res < 400 ->
  BibitAPI.get_portofolio w = (Raise AttributeError, log (EvRequest req (Ok res)) w)
  ∧ BibitNotifyJob.run w = (Raise AttributeError, log (EvRequest req (Ok res)) w).
Proof.
  intros req Hres H200 Hlt.
  assert (BibitAPI.get_portofolio w
          = (Raise AttributeError, log (EvRequest req (Ok res)) w)) as Hget.
  { unfold BibitAPI.get_portofolio, BibitAPI.request.
    rewrite (bind_ok _ _ w (log (EvRequest req (Ok res)) w) None); [done|].
    erewrite bind_ok; last by (rewrite _request_allow_fail; fold req; rewrite Hres).
    destruct (Z.eqb_spec (status_code res) 200) as [|_]; [done|].
    destruct (Z.eqb_spec (status_code res) 401) as [|_]; [lia|].
    run_m. by rewrite raise_for_status_ok. }
  split; [done|].
  unfold BibitNotifyJob.run. by rewrite (bind_raise _ _ _ _ _ Hget).
Qed.

(** X15, on a server that answers 204 with no content. *)
Lemma run_on_answer_without_body_witness :
  let w := Sample.first_run (Sample.constant_server 204) in
  let req := BibitAPI.build_request Sample.old_secrets "GET" "/portfolio" (JDict []) in
  BibitAPI.get_portofolio w
    = (Raise AttributeError, log (EvRequest req (Ok (Response 204 None))) w)
  ∧ BibitNotifyJob.run w
    = (Raise AttributeError, log (EvRequest req (Ok (Response 204 None))) w).
Proof.
  intros w req.
  apply (run_on_answer_without_body w (Response 204 None));
    [reflexivity|cbn; lia|cbn; lia].
Defined.

Section Notify.
Import BibitNotifyJob.

Variables (w w1 : World) (portofolio : json) (cleaned : list asset) (message : string).
Hypothesis Hget : BibitAPI.get_portofolio w = (Ok portofolio, w1).
Hypothesis Hclean : (data ← py_getitem portofolio "data"; _clean_porto data) = Ok cleaned.
Hypothesis Hsend :
  construct (PortofolioHistoryStore.last_snapshot (history (_store w))) cleaned
  = Ok (true, message).

Lemma fetch_keeps_history :
  files w1 = files w ∧ _store w1 = _store w ∧ file_repository w1 = file_repository w.
Proof.
  pose proof (client_get_portofolio w) as Hc. rewrite Hget in Hc.
  by destruct Hc as (_ & Hf & Hr & Hs & _).
Qed.

(** A notifying run whose post is accepted goes on to [add]. *)
Lemma run_accepted :
  let token := telegram_token (secret_storage w1) in
  let chat_id := telegram_chat_id (secret_storage w1) in
  let text := TelegramAPI.escape message in
  let answer := telegram (env w1) (trace w1) token chat_id text in
  (res ← answer; raise_for_status res) = Ok tt ->
  run w = RollingPortofolioHistoryStore.add cleaned
            (log (EvTelegram token chat_id text answer) w1).
Proof.
  intros token chat_id text answer Hok.
  rewrite (run_fetched w w1 portofolio cleaned Hget Hclean), Hsend.
  unfold mbind at 1, M_bind at 1. rewrite send_message_spec.
  fold token chat_id text answer. by rewrite Hok.
Qed.

(** A notifying run whose post fails stops there. *)
Lemma run_refused (e : exn) :
  let token := telegram_token (secret_storage w1) in
  let chat_id := telegram_chat_id (secret_storage w1) in
  let text := TelegramAPI.escape message in
  let answer := telegram (env w1) (trace w1) token chat_id text in
  (res ← answer; raise_for_status res) = Raise e ->
  run w = (Raise e, log (EvTelegram token chat_id text answer) w1).
Proof.
  intros token chat_id text answer Herr.
  rewrite (run_fetched w w1 portofolio cleaned Hget Hclean), Hsend.
  unfold mbind at 1, M_bind at 1. rewrite send_message_spec.
  fold token chat_id text answer. by rewrite Herr.
Qed.

End Notify.

(** The same snapshot again never asks for a notification. *)
Lemma construct_same (porto : list asset) (b : bool) (msg : string) :
  BibitNotifyJob.construct porto porto = Ok (b, msg) -> b = false.
Proof.
  intros H. unfold BibitNotifyJob.construct in H.
  destruct (BibitNotifyJob.loop _ _ _ _) as [[b1 parts]|] eqn:Hl;
    cbn [mbind result_bind] in H; [|discriminate].
  injection H as <- _.
  eapply loop_unchanged; [|exact Hl].
  intros i it _ Hit. pose proof Hit as Hit'.
  apply _build_porto_map_lookup in Hit' as [_ Hid].
  split; [done|].
  unfold BibitNotifyJob.same_truncated_value. by rewrite Hid, Hit.
Qed.

(** X16: a run that finds something to report and whose post Telegram
    accepts ends well, having posted once, with the stored credentials and
    the escaped message, and then written the history file once; the
    snapshot it reported is now the last one of the store, in memory and in
    the file, stamped with the time of the write. *)
Theorem run_notifies_then_records (w w1 : World) (portofolio : json)
    (cleaned : list asset) (message : string) :
  let token := telegram_token (secret_storage w1) in
  let chat_id := telegram_chat_id (secret_storage w1) in
  let text := TelegramAPI.escape message in
  let answer := telegram (env w1) (trace w1) token chat_id text in
  let w' := snd (BibitNotifyJob.run w) in
  let f := storage (_store w') in
  let h := history (_store w') in
  BibitAPI.get_portofolio w = (Ok portofolio, w1) ->
  (data ← py_getitem portofolio "data"; BibitNotifyJob._clean_porto data) = Ok cleaned ->
  BibitNotifyJob.construct (PortofolioHistoryStore.last_snapshot (history (_store w)))
    cleaned = Ok (true, message) ->
  (res ← answer; raise_for_status res) = Ok tt ->
  fst (BibitNotifyJob.run w) = Ok tt
  ∧ trace w' = trace w1 ++ [EvTelegram token chat_id text answer; EvDump f h]
  ∧ files w' !! f = Some h
  ∧ last h = Some (Entry (clock (env w)
                            (trace w1 ++ [EvTelegram token chat_id text answer]))
                     cleaned)
  ∧ RollingPortofolioHistoryStore.get_last w' = (Ok cleaned, w')
  ∧ delete f (files w') = delete f (files w).
Proof.
  intros token chat_id text answer w' f h Hget Hclean Hsend Hok.
  pose proof (fetch_keeps_history w w1 portofolio Hget) as (Hf & Hs & Hr).
  assert (env w1 = env w) as Henv.
  { pose proof (client_get_portofolio w) as Hc. rewrite Hget in Hc. apply Hc. }
  unfold f, h, w'.
  rewrite (run_accepted w w1 portofolio cleaned message Hget Hclean Hsend Hok).
  rewrite add_spec.
  unfold RollingPortofolioHistoryStore.get_last. rewrite get_last_spec.
  unfold PortofolioHistoryStore.last_snapshot.
  fold token chat_id text answer.
  case_bool_decide;
    cbn [fst snd _store history storage files trace env log];
    rewrite last_snoc, lookup_insert_eq, delete_insert_eq, <- app_assoc, Henv, Hf; done.
Qed.

(** X16, on a first run that finds one fund. *)
Lemma run_notifies_then_records_witness :
  let w := Sample.first_run (Sample.serving Scenario.fund_a_served) in
  let w1 := Scenario.fetched Scenario.fund_a_served w in
  let w' := snd (BibitNotifyJob.run w) in
  fst (BibitNotifyJob.run w) = Ok tt
  ∧ trace w' = trace w1 ++
      [EvTelegram (JStr "bot-token") (JNum (PInt 42))
         (TelegramAPI.escape Scenario.fund_a_message)
         (Ok (Response 200 (Some (JDict [("ok", JBool true)]))));
       EvDump (storage (_store w')) (history (_store w'))]
  ∧ RollingPortofolioHistoryStore.get_last w' = (Ok [Scenario.fund_a], w').
Proof.
  intros w w1 w'.
  destruct (run_notifies_then_records w w1 Scenario.fund_a_served [Scenario.fund_a]
              Scenario.fund_a_message)
    as (H1 & H2 & _ & _ & H5 & _);
    [reflexivity|vm_compute; reflexivity|vm_compute; reflexivity|vm_compute; reflexivity|].
  split; [exact H1|]. split; [exact H2|exact H5].
Defined.

(** X17: when the post to Telegram fails, in transport or with an error
    status, the run raises that error and records nothing: no history file
    is written and the store holds what it held, so the next run compares
    with the same snapshot again. *)
Theorem run_post_failure_records_nothing (w w1 : World) (portofolio : json)
    (cleaned : list asset) (message : string) (e : exn) :
  let token := telegram_token (secret_storage w1) in
  let chat_id := telegram_chat_id (secret_storage w1) in
  let text := TelegramAPI.escape message in
  let answer := telegram (env w1) (trace w1) token chat_id text in
  let w' := snd (BibitNotifyJob.run w) in
  BibitAPI.get_portofolio w = (Ok portofolio, w1) ->
  (data ← py_getitem portofolio "data"; BibitNotifyJob._clean_porto data) = Ok cleaned ->
  BibitNotifyJob.construct (PortofolioHistoryStore.last_snapshot (history (_store w)))
    cleaned = Ok (true, message) ->
  (res ← answer; raise_for_status res) = Raise e ->
  fst (BibitNotifyJob.run w) = Raise e
  ∧ trace w' = trace w1 ++ [EvTelegram token chat_id text answer]
  ∧ List.filter is_history_write (trace w') = List.filter is_history_write (trace w)
  ∧ files w' = files w
  ∧ _store w' = _store w
  ∧ file_repository w' = file_repository w.
Proof.
  intros token chat_id text answer w' Hget Hclean Hsend Herr.
  pose proof (fetch_keeps_history w w1 portofolio Hget) as (Hf & Hs & Hr).
  assert (List.filter is_history_write (trace w1)
          = List.filter is_history_write (trace w)) as Hw.
  { pose proof (client_get_portofolio w) as Hc. rewrite Hget in Hc.
    by apply client_only_notifications in Hc as [_ ?]. }
  unfold w'.
  rewrite (run_refused w w1 portofolio cleaned message Hget Hclean Hsend e Herr).
  cbn [fst snd trace log files _store file_repository].
  fold token chat_id text answer.
  rewrite List.filter_app. cbn [List.filter is_history_write]. by rewrite app_nil_r.
Qed.

(** X17, on a first run that finds one fund while Telegram answers 502. *)
Lemma run_post_failure_records_nothing_witness :
  let w := Scenario.telegram_is_down (Sample.serving Scenario.fund_a_served) [] in
  let w' := snd (BibitNotifyJob.run w) in
  fst (BibitNotifyJob.run w) = Raise (HTTPError 502)
  ∧ List.filter is_history_write (trace w') = List.filter is_history_write (trace w)
  ∧ files w' = files w
  ∧ _store w' = _store w.
Proof.
  intros w w'.
  destruct (run_post_failure_records_nothing w
              (Scenario.fetched Scenario.fund_a_served w) Scenario.fund_a_served
              [Scenario.fund_a] Scenario.fund_a_message (HTTPError 502))
    as (H1 & _ & H3 & H4 & H5 & _);
    [reflexivity|vm_compute; reflexivity|vm_compute; reflexivity|vm_compute; reflexivity|].
  split; [exact H1|]. split; [exact H3|]. split; [exact H4|exact H5].
Defined.

(** X18: a run that has notified and recorded does not notify again for the
    same holdings: when the next fetch cleans to the snapshot just
    recorded, the next run ends where its fetch left the world, with no
    post and no write. *)
Theorem second_run_is_quiet (w w1 w2 : World) (portofolio portofolio' : json)
    (cleaned : list asset) (message : string) :
  let answer := telegram (env w1) (trace w1) (telegram_token (secret_storage w1))
                  (telegram_chat_id (secret_storage w1)) (TelegramAPI.escape message) in
  let w' := snd (BibitNotifyJob.run w) in
  let w'' := snd (BibitNotifyJob.run w') in
  BibitAPI.get_portofolio w = (Ok portofolio, w1) ->
  (data ← py_getitem portofolio "data"; BibitNotifyJob._clean_porto data) = Ok cleaned ->
  BibitNotifyJob.construct (PortofolioHistoryStore.last_snapshot (history (_store w)))
    cleaned = Ok (true, message) ->
  (res ← answer; raise_for_status res) = Ok tt ->
  BibitAPI.get_portofolio w' = (Ok portofolio', w2) ->
  (data ← py_getitem portofolio' "data"; BibitNotifyJob._clean_porto data) = Ok cleaned ->
  w'' = w2
  ∧ List.filter is_notification (trace w'') = List.filter is_notification (trace w')
  ∧ List.filter is_history_write (trace w'') = List.filter is_history_write (trace w')
  ∧ files w'' = files w'
  ∧ _store w'' = _store w'.
Proof.
  intros answer w' w'' Hget Hclean Hsend Hok Hget' Hclean'.
  assert (PortofolioHistoryStore.last_snapshot (history (_store w')) = cleaned) as Hlast.
  { unfold w'.
    rewrite (run_accepted w w1 portofolio cleaned message Hget Hclean Hsend Hok).
    rewrite add_spec. unfold PortofolioHistoryStore.last_snapshot.
    case_bool_decide; cbn [snd _store history]; by rewrite last_snoc. }
  assert (w'' = w2) as ->.
  { unfold w''. rewrite (run_fetched w' w2 portofolio' cleaned Hget' Hclean'), Hlast.
    destruct (BibitNotifyJob.construct cleaned cleaned) as [[b msg]|e] eqn:Hc; [|done].
    by apply construct_same in Hc as ->. }
  split; [done|].
  pose proof (client_get_portofolio w') as Hc. rewrite Hget' in Hc. cbn [snd] in Hc.
  destruct (client_only_notifications _ _ Hc) as [Hn Hd].
  by destruct Hc as (_ & Hf & _ & Hs & _).
Qed.

(** X18, on two runs against a server that serves the same fund twice. *)
Lemma second_run_is_quiet_witness :
  let w := Sample.first_run (Sample.serving Scenario.fund_a_served) in
  let w' := snd (BibitNotifyJob.run w) in
  let w'' := snd (BibitNotifyJob.run w') in
  w'' = Scenario.fetched Scenario.fund_a_served w'
  ∧ List.filter is_notification (trace w'') = List.filter is_notification (trace w')
  ∧ List.filter is_history_write (trace w'') = List.filter is_history_write (trace w')
  ∧ files w'' = files w'
  ∧ _store w'' = _store w'.
Proof.
  intros w w' w''.
  apply (second_run_is_quiet w (Scenario.fetched Scenario.fund_a_served w)
           (Scenario.fetched Scenario.fund_a_served w')
           Scenario.fund_a_served Scenario.fund_a_served
           [Scenario.fund_a] Scenario.fund_a_message);
    [reflexivity|vm_compute; reflexivity|vm_compute; reflexivity|vm_compute; reflexivity
    |reflexivity|vm_compute; reflexivity].
Defined.

(** ** When a run notifies *)

Section Trigger.
Import BibitNotifyJob.

(** What one pass of the loop does to [should_send]: it is set when the
    truncated value of the record differs from the last one, and kept
    otherwise. *)
Lemma loop_body_flag (lm pm : gmap Z asset) (b b' : bool)
    (parts parts' : list string) (i : Z) :
  loop_body lm pm (b, parts) i = Ok (b', parts') ->
  ∃ it, pm !! i = Some it
        ∧ (b' = true <->
           b = true ∨ py_int (marketvalue it) ≠ py_int (get_or_0 marketvalue (lm !! i))).
Proof.
  intros H. unfold loop_body in H.
  destruct (pm !! i) as [it|] eqn:Hit; cbn [mbind result_bind] in H; [|discriminate].
  exists it. split; [done|].
  repeat (next_outcome_in H; [|discriminate]).
  injection H as <- _.
  case_bool_decide as Hne.
  - split; [|done]. intros _. right. congruence.
  - split; [by left|]. intros [->|Hd]; [done|]. exfalso. apply Hd. congruence.
Qed.

Lemma loop_flag (lm pm : gmap Z asset) (ids : list Z) :
  ∀ (b b' : bool) (parts parts' : list string),
    loop lm pm (b, parts) ids = Ok (b', parts') ->
    (b' = true <->
     b = true ∨ ∃ i it, i ∈ ids ∧ pm !! i = Some it
                         ∧ py_int (marketvalue it)
                           ≠ py_int (get_or_0 marketvalue (lm !! i))).
Proof.
  induction ids as [|i ids IH]; intros b b' parts parts' H.
  - injection H as <- _. split; [by left|].
    intros [?|(i & it & Hin & _)]; [done|]. by apply elem_of_nil in Hin.
  - cbn [loop] in H.
    destruct (loop_body lm pm (b, parts) i) as [[b1 parts1]|] eqn:Hb;
      cbn [mbind result_bind] in H; [|discriminate].
    apply loop_body_flag in Hb as (it & Hit & Hb).
    rewrite (IH _ _ _ _ H), Hb. split.
    + intros [[?|Hd]|(j & jt & Hin & Hj & Hd)].
      * by left.
      * right. exists i, it. split; [by left|done].
      * right. exists j, jt. split; [by right|done].
    + intros [?|(j & jt & Hin & Hj & Hd)]; [by left; left|].
      apply elem_of_cons in Hin as [->|Hin].
      * left. right. congruence.
      * right. by exists j, jt.
Qed.

End Trigger.

(** X19: what decides a notification.  When the comparison runs through,
    it asks for a notification exactly when some record of the current
    snapshot, as kept under its id, has a truncated market value other than
    that of the last snapshot's record of that id, 0 standing for an id the
    last snapshot does not have.  Invested amounts, names and holdings that
    are gone play no part. *)
Theorem notification_trigger (last_porto porto : list asset) (b : bool) (msg : string) :
  BibitNotifyJob.construct last_porto porto = Ok (b, msg) ->
  (b = true <->
   ∃ it, BibitNotifyJob._build_porto_map porto !! id it = Some it
         ∧ ¬ BibitNotifyJob.same_truncated_value
               (BibitNotifyJob._build_porto_map last_porto) it).
Proof.
  intros H. unfold BibitNotifyJob.construct in H.
  destruct (BibitNotifyJob.loop _ _ _ _) as [[b1 parts]|] eqn:Hl;
    cbn [mbind result_bind] in H; [|discriminate].
  injection H as <- _.
  rewrite (loop_flag _ _ _ _ _ _ _ Hl).
  unfold BibitNotifyJob.same_truncated_value. split.
  - intros [?|(i & it & _ & Hit & Hd)]; [done|].
    pose proof Hit as Hit'. apply _build_porto_map_lookup in Hit' as [_ <-].
    by exists it.
  - intros (it & Hit & Hd). right. exists (id it), it.
    split; [|done]. apply sorted_keys_elem. by exists it.
Qed.

(** X19, on a first run that finds one fund. *)
Lemma notification_trigger_witness :
  BibitNotifyJob.construct [] [Scenario.fund_a] = Ok (true, Scenario.fund_a_message)
  ∧ ∃ it, BibitNotifyJob._build_porto_map [Scenario.fund_a] !! id it = Some it
          ∧ ¬ BibitNotifyJob.same_truncated_value (BibitNotifyJob._build_porto_map []) it.
Proof.
  assert (BibitNotifyJob.construct [] [Scenario.fund_a]
          = Ok (true, Scenario.fund_a_message)) as Hc by (vm_compute; reflexivity).
  split; [exact Hc|].
  apply (proj1 (notification_trigger _ _ _ _ Hc)). reflexivity.
Defined.

Section Gone.
Import BibitNotifyJob.

(** The loop looks at the last snapshot only under the ids it visits. *)
Lemma loop_body_last (lm lm' pm : gmap Z asset) (acc : bool * list string) (i : Z) :
  lm !! i = lm' !! i -> loop_body lm pm acc i = loop_body lm' pm acc i.
Proof. intros H. unfold loop_body. destruct acc. by rewrite H. Qed.

Lemma loop_last (lm lm' pm : gmap Z asset) (ids : list Z) :
  (∀ i, i ∈ ids -> lm !! i = lm' !! i) ->
  ∀ acc, loop lm pm acc ids = loop lm' pm acc ids.
Proof.
  induction ids as [|i ids IH]; intros Hagree acc; [done|].
  cbn [loop]. rewrite (loop_body_last lm lm') by (apply Hagree; by left).
  destruct (loop_body lm' pm acc i) as [acc'|e]; cbn [mbind result_bind]; [|done].
  apply IH. intros j Hj. apply Hagree. by right.
Qed.

(** The map of a snapshot from which the records of other ids are taken
    out. *)
Lemma _build_porto_map_filter (ids : list Z) (l : list asset) (i : Z) :
  i ∈ ids ->
  _build_porto_map (filter (λ it, id it ∈ ids) l) !! i = _build_porto_map l !! i.
Proof.
  intros Hi. induction l as [|x l IH] using rev_ind; [done|].
  rewrite filter_app, filter_cons, filter_nil, (_build_porto_map_snoc l).
  cbn beta. destruct (decide (id x ∈ ids)) as [Hx|Hx].
  - rewrite _build_porto_map_snoc.
    destruct (decide (id x = i)) as [<-|Hne].
    + by rewrite !lookup_insert_eq.
    + by rewrite !lookup_insert_ne.
  - rewrite app_nil_r, lookup_insert_ne; [done|].
    intros Heq. apply Hx. by rewrite Heq.
Qed.

End Gone.

(** X20: holdings that are gone play no part: taking out of the last
    snapshot every record whose id the current snapshot does not have
    changes neither the decision nor the message, nor whether the
    comparison raises. *)
Theorem gone_holdings_play_no_part (last_porto porto : list asset) :
  BibitNotifyJob.construct (filter (λ it, id it ∈ id <$> porto) last_porto) porto
  = BibitNotifyJob.construct last_porto porto.
Proof.
  unfold BibitNotifyJob.construct.
  rewrite (loop_last _ (BibitNotifyJob._build_porto_map last_porto)); [done|].
  intros i Hi. apply _build_porto_map_filter.
  apply sorted_keys_elem in Hi as [it Hit].
  apply _build_porto_map_lookup in Hit as [Hin <-].
  apply list_elem_of_fmap. by exists it.
Qed.

(** ** Cleaning what the server sent *)

(** X21: an item that lacks one of the four kept fields makes
    [_clean_porto_item] raise [KeyError] for the first field it lacks, in
    the order [id], [invested], [marketvalue], [name]; fields beyond these
    four are never looked at. *)
Theorem clean_item_first_missing_field (kv : list (string * json))
    (pre post : list string) (field : string) :
  ["id"; "invested"; "marketvalue"; "name"] = pre ++ field :: post ->
  (∀ g, g ∈ pre -> is_Some (assoc g kv)) ->
  assoc field kv = None ->
  BibitNotifyJob._clean_porto_item (JDict kv) = Raise (KeyError field).
Proof.
  intros Hfields Hpre Hnone. unfold BibitNotifyJob._clean_porto_item, py_getitem.
  destruct pre as [|g1 pre]; cbn [app] in Hfields.
  { injection Hfields as <- _. by rewrite Hnone. }
  injection Hfields as <- Hfields.
  destruct (Hpre "id") as [v1 ->]; [by left|]. cbn [mbind result_bind].
  destruct pre as [|g2 pre]; cbn [app] in Hfields.
  { injection Hfields as <- _. by rewrite Hnone. }
  injection Hfields as <- Hfields.
  destruct (Hpre "invested") as [v2 ->]; [by right; left|]. cbn [mbind result_bind].
  destruct pre as [|g3 pre]; cbn [app] in Hfields.
  { injection Hfields as <- _. by rewrite Hnone. }
  injection Hfields as <- Hfields.
  destruct (Hpre "marketvalue") as [v3 ->]; [by right; right; left|].
  cbn [mbind result_bind].
  destruct pre as [|g4 pre]; cbn [app] in Hfields.
  { injection Hfields as <- _. by rewrite Hnone. }
  injection Hfields as _ Hfields. by destruct pre.
Qed.

(** X21, on an item with an id and a name only. *)
Lemma clean_item_first_missing_field_witness :
  BibitNotifyJob._clean_porto_item
    (JDict [("name", JStr "Fund A"); ("id", JNum (PInt 1))])
  = Raise (KeyError "invested").
Proof.
  apply (clean_item_first_missing_field _ ["id"] ["marketvalue"; "name"] "invested").
  - reflexivity.
  - intros g Hg. apply list_elem_of_singleton in Hg as ->. by eexists.
  - reflexivity.
Defined.

(** The items before the first one that cannot be cleaned do not matter. *)
Lemma map_result_first_error {A B} (f : A -> result B) (good rest : list A)
    (bad : A) (e : exn) :
  Forall (λ x, is_ok (f x) = true) good ->
  f bad = Raise e ->
  BibitNotifyJob.map_result f (good ++ bad :: rest) = Raise e.
Proof.
  intros Hgood Hbad. induction Hgood as [|x good Hx _ IH]; cbn.
  - by rewrite Hbad.
  - destruct (f x); [|done]. cbn. by rewrite IH.
Qed.

(** Reading the four fields of a dict stops at the first one it lacks. *)
Lemma missing_field_KeyError (kv : list (string * json)) (pre post : list string)
    (field : string) :
  ["id"; "invested"; "marketvalue"; "name"] = pre ++ field :: post ->
  (∀ g, g ∈ pre -> is_Some (assoc g kv)) ->
  assoc field kv = None ->
  (i ← py_getitem (JDict kv) "id";
   inv ← py_getitem (JDict kv) "invested";
   mv ← py_getitem (JDict kv) "marketvalue";
   nm ← py_getitem (JDict kv) "name";
   BibitNotifyJob.typed_item i inv mv nm) = Raise (KeyError field).
Proof.
  intros Hfields Hpre Hnone. unfold py_getitem.
  destruct pre as [|g1 pre]; cbn [app] in Hfields.
  { injection Hfields as <- _. by rewrite Hnone. }
  injection Hfields as <- Hfields.
  destruct (Hpre "id") as [v1 ->]; [by left|]. cbn [mbind result_bind].
  destruct pre as [|g2 pre]; cbn [app] in Hfields.
  { injection Hfields as <- _. by rewrite Hnone. }
  injection Hfields as <- Hfields.
  destruct (Hpre "invested") as [v2 ->]; [by right; left|]. cbn [mbind result_bind].
  destruct pre as [|g3 pre]; cbn [app] in Hfields.
  { injection Hfields as <- _. by rewrite Hnone. }
  injection Hfields as <- Hfields.
  destruct (Hpre "marketvalue") as [v3 ->]; [by right; right; left|].
  cbn [mbind result_bind].
  destruct pre as [|g4 pre]; cbn [app] in Hfields.
  { injection Hfields as <- _. by rewrite Hnone. }
  injection Hfields as _ Hfields. by destruct pre.
Qed.

(** X22: an item that lacks one of the four kept fields stops the run:
    when the items listed before it clean, the run raises [KeyError] for
    the first field the item lacks, in the order [id], [invested],
    [marketvalue], [name], and ends where the fetch left the world, with
    nothing posted and nothing recorded, whatever the items after it
    hold. *)
Theorem run_stops_on_bad_item (w w1 : World) (portofolio data : json)
    (good rest : list json) (kv : list (string * json)) (pre post : list string)
    (field : string) :
  BibitAPI.get_portofolio w = (Ok portofolio, w1) ->
  py_getitem portofolio "data" = Ok data ->
  py_getitem data "result" = Ok (JList (good ++ JDict kv :: rest)) ->
  Forall (λ x, is_ok (BibitNotifyJob._clean_porto_item x) = true) good ->
  ["id"; "invested"; "marketvalue"; "name"] = pre ++ field :: post ->
  (∀ g, g ∈ pre -> is_Some (assoc g kv)) ->
  assoc field kv = None ->
  BibitNotifyJob.run w = (Raise (KeyError field), w1)
  ∧ List.filter is_notification (trace w1) = List.filter is_notification (trace w)
  ∧ List.filter is_history_write (trace w1) = List.filter is_history_write (trace w)
  ∧ files w1 = files w
  ∧ _store w1 = _store w.
Proof.
  intros Hget Hdata Hresult Hgood Hfields Hpre Hnone. split.
  - unfold BibitNotifyJob.run. rewrite (bind_ok _ _ _ _ _ Hget).
    unfold BibitNotifyJob._clean_porto. rewrite Hdata. cbn [mbind result_bind].
    rewrite Hresult. cbn [mbind result_bind].
    rewrite (map_result_first_error _ good rest (JDict kv) (KeyError field) Hgood);
      [done|].
    by apply (missing_field_KeyError kv pre post).
  - pose proof (client_get_portofolio w) as Hc. rewrite Hget in Hc. cbn [snd] in Hc.
    destruct (client_only_notifications _ _ Hc) as [Hn Hd].
    by destruct Hc as (_ & Hf & _ & Hs & _).
Qed.

(** X22, on a portfolio whose second item has no market value. *)
Lemma run_stops_on_bad_item_witness :
  let good := Sample.raw_item 1 (PInt 1000) (PInt 1100) "Fund A" in
  let bad := [("id", JNum (PInt 2)); ("invested", JNum (PInt 500));
              ("name", JStr "Fund B")] in
  let pf := Sample.portfolio_body [good; JDict bad] in
  let w := Sample.first_run (Sample.serving pf) in
  let w1 := Scenario.fetched pf w in
  BibitNotifyJob.run w = (Raise (KeyError "marketvalue"), w1)
  ∧ List.filter is_notification (trace w1) = List.filter is_notification (trace w)
  ∧ List.filter is_history_write (trace w1) = List.filter is_history_write (trace w)
  ∧ files w1 = files w
  ∧ _store w1 = _store w.
Proof.
  intros good bad pf w w1.
  apply (run_stops_on_bad_item w w1 pf (JDict [("result", JList [good; JDict bad])])
           [good] [] bad ["id"; "invested"] ["name"] "marketvalue").
  - reflexivity.
  - reflexivity.
  - reflexivity.
  - by repeat constructor.
  - reflexivity.
  - intros g [->|[->|Hg]%elem_of_cons]%elem_of_cons; [by eexists..|].
    by apply elem_of_nil in Hg.
  - reflexivity.
Defined.

(** ** The script as a whole *)

(** X23: on a machine where [.secrets.json] does not exist the script stops
    at once with [StoreNotInitializedError]: the history directory is not
    read, no call is made and nothing is written. *)
Theorem main_without_secrets (w : World) (basedir : string) (listing : list string) :
  secrets_file w = None ->
  Main.main basedir listing w = (Raise StoreNotInitializedError, w).
Proof.
  intros Hnone. unfold Main.main, Main.new_secret_store.
  rewrite (bind_raise _ _ w w StoreNotInitializedError); [done|].
  unfold SecretStore.init. by rewrite Hnone.
Qed.

(** X23, on a machine that has never been set up. *)
Lemma main_without_secrets_witness :
  Main.main "/srv/bibit" [] (Scenario.no_secrets (Sample.constant_server 200))
  = (Raise StoreNotInitializedError, Scenario.no_secrets (Sample.constant_server 200)).
Proof.
  apply (main_without_secrets (Scenario.no_secrets (Sample.constant_server 200))).
  reflexivity.
Defined.

(** X24: a name in the history directory that does not have exactly two
    dots, a [.DS_Store] say, stops the script with [ValueError] before it
    fetches anything: no call is made, nothing is posted and no file is
    written. *)
Theorem main_stops_on_stray_file (w : World) (basedir : string)
    (listing : list string) (f : string) (s : secrets) :
  secrets_file w = Some s ->
  f ∈ listing ->
  count_char "." f ≠ 2%nat ->
  (∀ s e, int_of_str (env w) s = Raise e -> e = ValueError) ->
  let w' := snd (Main.main basedir listing w) in
  fst (Main.main basedir listing w) = Raise ValueError
  ∧ trace w' = trace w
  ∧ files w' = files w
  ∧ secrets_file w' = secrets_file w
  ∧ secret_storage w' = s.
Proof.
  intros Hs Hin Hc Hint w'. unfold w'. clear w'.
  remember (Main.main basedir listing w) as out eqn:Hout.
  unfold Main.main, Main.new_secret_store, Main.new_history_store,
    new_rolling_portofolio_history_store, RollingJSONFileRepository.init,
    RollingJSONFileRepository.set_last_idx, SecretStore.init in Hout.
  cbv [mbind M_bind modify] in Hout. rewrite Hs in Hout.
  set (w1 := set_repo _ (set_secret_storage s w)) in Hout.
  set (w2 := set_repo _ w1) in Hout.
  pose proof (scan_files_stray listing f Hin Hc w2 Hint) as Hstray.
  pose proof (scan_files_repository_only listing w2) as Hro.
  destruct (RollingJSONFileRepository.scan_files listing w2) as [[[]|e] w3];
    cbn [fst snd] in *; [discriminate|].
  injection Hstray as ->. subst out.
  destruct Hro as (_ & Hss & Hsf & Hf & _ & Ht & _).
  cbn [fst snd]. by rewrite Hss, Hsf, Hf, Ht.
Qed.

(** X24, on a directory with a [.DS_Store] next to the first history file. *)
Lemma main_stops_on_stray_file_witness :
  let w := Scenario.first_run (Sample.constant_server 200) in
  let w' := snd (Main.main "/srv/bibit" ["history.1.json"; ".DS_Store"] w) in
  fst (Main.main "/srv/bibit" ["history.1.json"; ".DS_Store"] w) = Raise ValueError
  ∧ trace w' = trace w
  ∧ files w' = files w
  ∧ secrets_file w' = secrets_file w
  ∧ secret_storage w' = Sample.old_secrets.
Proof.
  intros w.
  apply (main_stops_on_stray_file w "/srv/bibit" ["history.1.json"; ".DS_Store"]
           ".DS_Store" Sample.old_secrets).
  - reflexivity.
  - constructor 2. constructor 1.
  - vm_compute. lia.
  - apply decimal_raises_ValueError.
Defined.

(** ** Records that share an id *)

(** The map keeps, under an id, the last record the snapshot lists with
    it. *)
Lemma _build_porto_map_last (l : list asset) (i : Z) :
  BibitNotifyJob._build_porto_map l !! i = last (filter (λ it, id it = i) l).
Proof.
  induction l as [|x l IH] using rev_ind; [done|].
  rewrite _build_porto_map_snoc, filter_app, filter_cons, filter_nil. cbn beta.
  destruct (decide (id x = i)) as [<-|Hne].
  - by rewrite lookup_insert_eq, last_snoc.
  - by rewrite lookup_insert_ne, app_nil_r.
Qed.

(** X25: when the server lists two records with the same id, the earlier
    one is dropped without a word: the decision, the message and any error
    are those of the snapshot without it. *)
Theorem earlier_duplicate_is_dropped (last_porto l1 l2 l3 : list asset) (x y : asset) :
  id x = id y ->
  BibitNotifyJob.construct last_porto (l1 ++ x :: l2 ++ y :: l3)
  = BibitNotifyJob.construct last_porto (l1 ++ l2 ++ y :: l3).
Proof.
  intros Hid. unfold BibitNotifyJob.construct.
  assert (BibitNotifyJob._build_porto_map (l1 ++ x :: l2 ++ y :: l3)
          = BibitNotifyJob._build_porto_map (l1 ++ l2 ++ y :: l3)) as ->; [|done].
  apply map_eq. intros i. rewrite !_build_porto_map_last.
  rewrite !filter_app, !filter_cons, !filter_app, !filter_cons. cbn beta.
  rewrite Hid.
  destruct (decide (id y = i)) as [Hy|Hy]; [|done].
  rewrite !last_app, last_cons, last_app, !last_cons.
  by destruct (last (filter _ l3)).
Qed.

(** X25, on a fund that is listed twice. *)
Lemma earlier_duplicate_is_dropped_witness :
  BibitNotifyJob.construct []
    [Asset 1 (PInt 1000) (PInt 1050) "Fund A"; Scenario.fund_a]
  = BibitNotifyJob.construct [] [Scenario.fund_a].
Proof.
  apply (earlier_duplicate_is_dropped [] [] [] []
           (Asset 1 (PInt 1000) (PInt 1050) "Fund A") Scenario.fund_a).
  reflexivity.
Defined.

(** ** What a run never does *)

Lemma client_events_silent (evs : list event) :
  forallb is_client_event evs = true ->
  List.filter is_notification evs = [] ∧ List.filter is_history_write evs = [].
Proof.
  induction evs as [|ev evs IH]; [done|].
  cbn. intros [Hev Hc]%andb_true_iff.
  destruct (IH Hc) as [-> ->]. by destruct ev.
Qed.

(** What [run] comes to, outcome by outcome. *)
Lemma run_cases (w : World) :
  BibitNotifyJob.run w =
    match BibitAPI.get_portofolio w with
    | (Raise e, w1) => (Raise e, w1)
    | (Ok portofolio, w1) =>
        match (data ← py_getitem portofolio "data"; BibitNotifyJob._clean_porto data) with
        | Raise e => (Raise e, w1)
        | Ok cleaned =>
            match BibitNotifyJob.construct
                    (PortofolioHistoryStore.last_snapshot (history (_store w1))) cleaned with
            | Raise e => (Raise e, w1)
            | Ok (false, _) => (Ok tt, w1)
            | Ok (true, message) =>
                let s := secret_storage w1 in
                let text := TelegramAPI.escape message in
                let answer := telegram (env w1) (trace w1) (telegram_token s)
                                (telegram_chat_id s) text in
                let posted := log (EvTelegram (telegram_token s) (telegram_chat_id s)
                                     text answer) w1 in
                match (res ← answer; raise_for_status res) with
                | Raise e => (Raise e, posted)
                | Ok _ => RollingPortofolioHistoryStore.add cleaned posted
                end
            end
        end
    end.
Proof.
  unfold BibitNotifyJob.run.
  unfold mbind at 1, M_bind at 1.
  destruct (BibitAPI.get_portofolio w) as [[portofolio|e] w1]; [|done].
  unfold mbind at 1, M_bind at 1. unfold lift at 1.
  destruct (_ ← py_getitem portofolio "data"; _) as [cleaned|e]; [|done].
  unfold BibitNotifyJob._construct_message, RollingPortofolioHistoryStore.get_last.
  unfold mbind at 1, M_bind at 1.
  unfold mbind at 1, M_bind at 1. rewrite get_last_spec. unfold lift.
  destruct (BibitNotifyJob.construct _ cleaned) as [[[] message]|e]; [|done|done].
  unfold mbind at 1, M_bind at 1. rewrite send_message_spec. cbv zeta.
  by destruct (_ ← telegram _ _ _ _ _; _) as [[]|e].
Qed.

(** X26: whatever the servers answer, one run posts to Telegram at most
    once and writes the history at most once; and it writes the history
    only when it has posted and the post was accepted, in which case it
    ends well. *)
Theorem run_posts_and_records_at_most_once (w : World) :
  let w' := snd (BibitNotifyJob.run w) in
  ∃ evs : list event,
    trace w' = trace w ++ evs
    ∧ (length (List.filter is_notification evs) <= 1)%nat
    ∧ (length (List.filter is_history_write evs) <= 1)%nat
    ∧ (List.filter is_history_write evs ≠ [] ->
       fst (BibitNotifyJob.run w) = Ok tt
       ∧ ∃ token chat_id text res,
           List.filter is_notification evs = [EvTelegram token chat_id text (Ok res)]
           ∧ raise_for_status res = Ok tt).
Proof.
  intros w'. unfold w'. clear w'. rewrite run_cases.
  pose proof (client_get_portofolio w) as (_ & _ & _ & _ & evs1 & Ht1 & Hc1).
  apply client_events_silent in Hc1 as [Hn1 Hd1].
  assert (∀ r : result unit,
    ∃ evs, trace (snd (r, snd (BibitAPI.get_portofolio w))) = trace w ++ evs
      ∧ (length (List.filter is_notification evs) <= 1)%nat
      ∧ (length (List.filter is_history_write evs) <= 1)%nat
      ∧ (List.filter is_history_write evs ≠ [] ->
         fst (r, snd (BibitAPI.get_portofolio w)) = Ok tt
         ∧ ∃ token chat_id text res,
             List.filter is_notification evs = [EvTelegram token chat_id text (Ok res)]
             ∧ raise_for_status res = Ok tt)) as Hquiet.
  { intros r. exists evs1. cbn [snd]. rewrite Hn1, Hd1.
    split; [done|]. split; [cbn; lia|]. split; [cbn; lia|]. by intros []. }
  destruct (BibitAPI.get_portofolio w) as [[portofolio|e] w1]; cbn [snd] in *;
    [|apply Hquiet].
  destruct (_ ← py_getitem portofolio "data"; _) as [cleaned|e]; [|apply Hquiet].
  destruct (BibitNotifyJob.construct _ cleaned) as [[[] message]|e];
    [|apply Hquiet|apply Hquiet].
  cbv zeta.
  set (token := telegram_token (secret_storage w1)).
  set (chat_id := telegram_chat_id (secret_storage w1)).
  set (text := TelegramAPI.escape message).
  destruct (telegram (env w1) (trace w1) token chat_id text) as [res|e] eqn:Hanswer;
    cbn [mbind result_bind].
  2: { exists (evs1 ++ [EvTelegram token chat_id text (Raise e)]).
       cbn [snd trace log]. rewrite Ht1, <- app_assoc, !List.filter_app, Hn1, Hd1.
       cbn. split; [done|]. split; [lia|]. split; [lia|]. by intros []. }
  destruct (raise_for_status res) as [[]|e] eqn:Hstatus.
  2: { exists (evs1 ++ [EvTelegram token chat_id text (Ok res)]).
       cbn [snd trace log]. rewrite Ht1, <- app_assoc, !List.filter_app, Hn1, Hd1.
       cbn. split; [done|]. split; [lia|]. split; [lia|]. by intros []. }
  rewrite add_spec.
  case_bool_decide; cbn [fst snd trace log];
    (eexists (evs1 ++ [EvTelegram token chat_id text (Ok res); EvDump _ _]);
     rewrite Ht1, <- !app_assoc, !List.filter_app, Hn1, Hd1; cbn;
     split; [done|]; split; [lia|]; split; [lia|]; intros _;
     split; [done|]; by exists token, chat_id, text, res).
Qed.
